(** * MetadataAPI: a shallow embedding of the metadata-generation client

    The client (class [MetadataAPI]) resolves a prompt, builds an Azure
    OpenAI chat-completions request, sends it with bounded retry and
    exponential backoff, and parses the answer into a metadata record.

    Modelling choices, in the order of the file:
    - JavaScript values are the inductive [JSValue]; an object is an
      association list in insertion order, and a metadata record is such
      an object.  Strings are Rocq strings holding the UTF-8 bytes of the
      text.
    - The built-ins the client calls ([trim], [replace], [toLowerCase],
      [includes], [JSON.parse]) are written out as functions.
    - The outside world is a record [Env]: the stored custom prompts, the
      clock, the transport (what each [fetch] yields given the history so
      far) and [JSON.stringify] with indentation.  Effects are a trace of
      [Event]s threaded through [callAPI]; what is written to the console
      is left out.
    - A call that can throw returns a [Completion]. *)

From Stdlib Require Import String Ascii List ZArith NArith Lia Bool.
From Stdlib Require Import Numbers.DecimalString.
Import ListNotations.
Open Scope string_scope.

(** ** Characters and strings *)

Definition code (c : ascii) : N := N_of_ascii c.

(** The double quote and the line feed, which a literal cannot hold. *)
Definition dq : string := String (ascii_of_N 34) EmptyString.
Definition nl : string := String (ascii_of_N 10) EmptyString.

(** Test literals are written with apostrophes where JSON has double
    quotes; [json_lit] puts the double quotes back. *)
Fixpoint json_lit (s : string) : string :=
  match s with
  | EmptyString => EmptyString
  | String c r =>
      String (if N.eqb (code c) 39 then ascii_of_N 34 else c) (json_lit r)
  end.

Definition is_empty (s : string) : bool :=
  match s with EmptyString => true | String _ _ => false end.

(** [skipn] on strings. *)
Fixpoint drop (n : nat) (s : string) : string :=
  match n, s with
  | S k, String _ r => drop k r
  | _, _ => s
  end.

(** [String.prototype.includes]: [sub] occurs somewhere in [s]. *)
Fixpoint includes (sub s : string) : bool :=
  String.prefix sub s ||
  match s with
  | EmptyString => false
  | String _ r => includes sub r
  end.

(** Length in bytes of the ECMAScript white space or line terminator that
    starts [s] (what [trim] removes and the regular expression class
    [\s] matches), [0] when [s] starts with none.  The characters are
    U+0009..U+000D, U+0020, U+00A0, U+1680, U+2000..U+200A, U+2028,
    U+2029, U+202F, U+205F, U+3000 and U+FEFF, here in UTF-8. *)
Definition ws_len (s : string) : nat :=
  match s with
  | EmptyString => 0
  | String c1 r1 =>
      let b1 := code c1 in
      if ((9 <=? b1) && (b1 <=? 13) || (b1 =? 32))%N then 1
      else
        match r1 with
        | EmptyString => 0
        | String c2 r2 =>
            let b2 := code c2 in
            if ((b1 =? 194) && (b2 =? 160))%N then 2
            else
              match r2 with
              | EmptyString => 0
              | String c3 _ =>
                  let b3 := code c3 in
                  if ((b1 =? 225) && (b2 =? 154) && (b3 =? 128))%N then 3
                  else if ((b1 =? 226) && (b2 =? 128) &&
                           ((128 <=? b3) && (b3 <=? 138) || (b3 =? 168) ||
                            (b3 =? 169) || (b3 =? 175)))%N then 3
                  else if ((b1 =? 226) && (b2 =? 129) && (b3 =? 159))%N then 3
                  else if ((b1 =? 227) && (b2 =? 128) && (b3 =? 128))%N then 3
                  else if ((b1 =? 239) && (b2 =? 187) && (b3 =? 191))%N then 3
                  else 0
              end
        end
  end.

(** Drops the white space [s] starts with; [skip] counts the bytes still
    to drop of a character already recognised. *)
Fixpoint drop_ws (skip : nat) (s : string) : string :=
  match s with
  | EmptyString => EmptyString
  | String _ r =>
      match skip with
      | S k => drop_ws k r
      | O => match ws_len s with
             | O => s
             | S k => drop_ws k r
             end
      end
  end.

(** [s] is white space to its end. *)
Fixpoint only_ws (skip : nat) (s : string) : bool :=
  match s with
  | EmptyString => true
  | String _ r =>
      match skip with
      | S k => only_ws k r
      | O => match ws_len s with
             | O => false
             | S k => only_ws k r
             end
      end
  end.

Fixpoint trimEnd (s : string) : string :=
  match s with
  | EmptyString => EmptyString
  | String c r => if only_ws 0 s then EmptyString else String c (trimEnd r)
  end.

(** [String.prototype.trim]. *)
Definition trim (s : string) : string := trimEnd (drop_ws 0 s).

(** [str.replace(/\s+/g, ' ')]: every maximal run of white space becomes
    one space.  [in_run] says that the run's space is already written. *)
Fixpoint collapse_ws (skip : nat) (in_run : bool) (s : string) : string :=
  match s with
  | EmptyString => EmptyString
  | String c r =>
      match skip with
      | S k => collapse_ws k in_run r
      | O =>
          match ws_len s with
          | O => String c (collapse_ws 0 false r)
          | S k =>
              if in_run then collapse_ws k true r
              else String " " (collapse_ws k true r)
          end
      end
  end.

(** [String.prototype.toLowerCase], exact on ASCII letters and on the
    Kelvin sign U+212A (the one character outside ASCII whose lower case
    is an ASCII letter).  Other bytes are kept, which cannot change
    whether the result equals an ASCII key. *)
Fixpoint toLowerCase_from (skip : nat) (s : string) : string :=
  match s with
  | EmptyString => EmptyString
  | String c r =>
      match skip with
      | S k => toLowerCase_from k r
      | O =>
          let b := code c in
          if ((65 <=? b) && (b <=? 90))%N
          then String (ascii_of_N (b + 32)) (toLowerCase_from 0 r)
          else
            match r with
            | String c2 (String c3 _) =>
                if ((b =? 226) && (code c2 =? 132) && (code c3 =? 170))%N
                then String "k" (toLowerCase_from 2 r)
                else String c (toLowerCase_from 0 r)
            | _ => String c (toLowerCase_from 0 r)
            end
      end
  end.

Definition toLowerCase (s : string) : string := toLowerCase_from 0 s.

(** Length of the match of [/```json\n?|\n?```/] at the start of [s], [0]
    when there is none.  The first alternative is tried first and each
    optional line feed is greedy. *)
Definition fence_len (s : string) : nat :=
  if String.prefix ("```json" ++ nl) s then 8
  else if String.prefix "```json" s then 7
  else if String.prefix (nl ++ "```") s then 4
  else if String.prefix "```" s then 3
  else 0.

(** [content.replace(/```json\n?|\n?```/g, '')]: matches are found from
    left to right and deleted. *)
Fixpoint strip_fences_from (skip : nat) (s : string) : string :=
  match s with
  | EmptyString => EmptyString
  | String c r =>
      match skip with
      | S k => strip_fences_from k r
      | O =>
          match fence_len s with
          | O => String c (strip_fences_from 0 r)
          | S k => strip_fences_from k r
          end
      end
  end.

Definition strip_fences (s : string) : string := strip_fences_from 0 s.

(** A number in a template literal. *)
Definition Z_to_string (n : Z) : string := NilZero.string_of_int (Z.to_int n).

(** ** JavaScript values *)

Set Warnings "-register-all".

(** [JNum] keeps the decimal literal of a number: the client only tests
    numbers for truth and prints them.  [JHost] is an object of the
    engine that JSON cannot express (a built-in function or prototype). *)
Inductive JSValue : Type :=
| JUndefined
| JNull
| JBool (b : bool)
| JNum (lexeme : string)
| JStr (s : string)
| JArr (items : list JSValue)
| JObj (fields : list (string * JSValue))
| JHost (name : string).

(** What a call produces: a value, or an exception with its message. *)
Inductive Completion (A : Type) : Type :=
| Returned (a : A)
| Thrown (message : string).
Arguments Returned {A} a.
Arguments Thrown {A} message.

(** The value of a run of decimal digits, [acc] being that of the digits
    before it. *)
Fixpoint digits_value (s : string) (acc : N) : N :=
  match s with
  | EmptyString => acc
  | String c r =>
      let b := code c in
      if ((48 <=? b) && (b <=? 57))%N then digits_value r (10 * acc + (b - 48))%N
      else acc
  end.

(** The significand of a number literal (the part before the exponent):
    the value of its digits read as one integer, the number of them that
    stand after the point, and the text of the exponent, if any. *)
Fixpoint significand (s : string) (after_point : bool) (value scale : N)
  : N * N * string :=
  match s with
  | EmptyString => (value, scale, EmptyString)
  | String c r =>
      let b := code c in
      if ((b =? 101) || (b =? 69))%N then (value, scale, r)
      else if ((48 <=? b) && (b <=? 57))%N
      then significand r after_point (10 * value + (b - 48))%N
             (if after_point then scale + 1 else scale)%N
      else if (b =? 46)%N then significand r true value scale
      else significand r after_point value scale
  end.

(** The exponent written in [s], zero when there is none. *)
Definition exponent (s : string) : Z :=
  match s with
  | EmptyString => 0%Z
  | String c r =>
      if (code c =? 45)%N then (- Z.of_N (digits_value r 0))%Z
      else if (code c =? 43)%N then Z.of_N (digits_value r 0)
      else Z.of_N (digits_value s 0)
  end.

(** A number is falsy when it is zero.  The number of a literal is the
    double nearest to its value, ties going to the even one; so it is
    zero exactly when the value is at most [2^-1075], half the least
    positive double.  The literal stands for [value * 10^e]. *)
Definition num_truthy (lexeme : string) : bool :=
  let '(value, scale, rest) := significand lexeme false 0%N 0%N in
  let e := (exponent rest - Z.of_N scale)%Z in
  if (0 <=? e)%Z then negb (value =? 0)%N
  else (10 ^ Z.to_N (- e) <? value * 2 ^ 1075)%N.

(** ToBoolean. *)
Definition truthy (v : JSValue) : bool :=
  match v with
  | JUndefined | JNull => false
  | JBool b => b
  | JNum lexeme => num_truthy lexeme
  | JStr s => negb (is_empty s)
  | JArr _ | JObj _ | JHost _ => true
  end.

(** [a || b]. *)
Definition js_or (a b : JSValue) : JSValue := if truthy a then a else b.

Definition nullish (v : JSValue) : bool :=
  match v with
  | JUndefined | JNull => true
  | _ => false
  end.

(** Own property [k] of a field list, [undefined] when there is none. *)
Fixpoint lookup_field (k : string) (fields : list (string * JSValue)) : JSValue :=
  match fields with
  | [] => JUndefined
  | (k', v) :: rest => if String.eqb k' k then v else lookup_field k rest
  end.

(** Defines own property [k]: an existing one keeps its place and takes
    the new value, a new one goes last. *)
Fixpoint define_field (k : string) (v : JSValue) (fields : list (string * JSValue))
  : list (string * JSValue) :=
  match fields with
  | [] => [(k, v)]
  | (k', v') :: rest =>
      if String.eqb k' k then (k, v) :: rest
      else (k', v') :: define_field k v rest
  end.

(** The assignment [obj[k] = v] on an object created by a literal, for a
    string [v] (the client assigns nothing else under a computed key).
    Under the key [__proto__] the assignment reaches the prototype
    setter, which ignores a string, and the object stays as it is. *)
Definition assign_field (k : string) (v : JSValue) (fields : list (string * JSValue))
  : list (string * JSValue) :=
  if String.eqb k "__proto__" then fields else define_field k v fields.

(** [obj.k] read on a record the client has built. *)
Definition obj_get (k : string) (v : JSValue) : JSValue :=
  match v with
  | JObj fields => lookup_field k fields
  | _ => JUndefined
  end.

(** [v.k] for a value that is neither [null] nor [undefined] and a key no
    prototype defines ([choices], [message], [content], [Title], ...):
    the own property of an object, [undefined] on anything else. *)
Definition member (v : JSValue) (k : string) : JSValue := obj_get k v.

(** [v[0]] for such a value.  Of a string only the fact that the result
    is a string is observed, so its first byte stands for its first
    character. *)
Definition index0 (v : JSValue) : JSValue :=
  match v with
  | JArr items => hd JUndefined items
  | JObj fields => lookup_field "0" fields
  | JStr (String c _) => JStr (String c EmptyString)
  | _ => JUndefined
  end.

(** [v?.access]: [undefined] when [v] is [null] or [undefined]. *)
Definition opt_chain (v : JSValue) (access : JSValue -> JSValue) : JSValue :=
  if nullish v then JUndefined else access v.

(** ** JSON.parse *)

Definition is_json_ws (c : ascii) : bool :=
  let b := code c in ((b =? 32) || (b =? 9) || (b =? 10) || (b =? 13))%N.

Fixpoint skip_json_ws (s : string) : string :=
  match s with
  | String c r => if is_json_ws c then skip_json_ws r else s
  | EmptyString => s
  end.

Definition is_digit (c : ascii) : bool :=
  let b := code c in ((48 <=? b) && (b <=? 57))%N.

Definition hex_val (c : ascii) : option N :=
  let b := code c in
  if ((48 <=? b) && (b <=? 57))%N then Some (b - 48)%N
  else if ((97 <=? b) && (b <=? 102))%N then Some (b - 87)%N
  else if ((65 <=? b) && (b <=? 70))%N then Some (b - 55)%N
  else None.

Definition hex4 (a b c d : ascii) : option N :=
  match hex_val a, hex_val b, hex_val c, hex_val d with
  | Some x, Some y, Some z, Some w => Some (((x * 16 + y) * 16 + z) * 16 + w)%N
  | _, _, _, _ => None
  end.

(** The character a one-letter escape stands for. *)
Definition simple_escape (b : N) : option ascii :=
  if (b =? 34)%N then Some (ascii_of_N 34)
  else if (b =? 92)%N then Some (ascii_of_N 92)
  else if (b =? 47)%N then Some (ascii_of_N 47)
  else if (b =? 98)%N then Some (ascii_of_N 8)
  else if (b =? 102)%N then Some (ascii_of_N 12)
  else if (b =? 110)%N then Some (ascii_of_N 10)
  else if (b =? 114)%N then Some (ascii_of_N 13)
  else if (b =? 116)%N then Some (ascii_of_N 9)
  else None.

(** A piece of a string literal: a byte of the text, or the UTF-16 code
    unit of a [\uXXXX] escape. *)
Inductive StrItem : Type :=
| Raw (c : ascii)
| Esc (unit : N).

Definition cons_item (i : StrItem) (p : list StrItem * string) : list StrItem * string :=
  (i :: fst p, snd p).

(** The body of a string literal, after its opening quote, up to the
    closing quote. *)
Fixpoint json_string_items (s : string) : option (list StrItem * string) :=
  match s with
  | EmptyString => None
  | String c r =>
      let b := code c in
      if (b =? 34)%N then Some ([], r)
      else if (b <? 32)%N then None
      else if (b =? 92)%N then
        match r with
        | EmptyString => None
        | String e r1 =>
            if (code e =? 117)%N then
              match r1 with
              | String h1 (String h2 (String h3 (String h4 r2))) =>
                  match hex4 h1 h2 h3 h4 with
                  | Some u => option_map (cons_item (Esc u)) (json_string_items r2)
                  | None => None
                  end
              | _ => None
              end
            else
              match simple_escape (code e) with
              | Some ch => option_map (cons_item (Raw ch)) (json_string_items r1)
              | None => None
              end
        end
      else option_map (cons_item (Raw c)) (json_string_items r)
  end.

Definition bytes (l : list N) : string :=
  string_of_list_ascii (map ascii_of_N l).

(** UTF-8 of a code point (a lone surrogate is encoded like any other
    code point of its range). *)
Definition utf8 (cp : N) : string :=
  (if cp <? 128 then bytes [cp]
   else if cp <? 2048 then bytes [192 + cp / 64; 128 + cp mod 64]
   else if cp <? 65536
        then bytes [224 + cp / 4096; 128 + (cp / 64) mod 64; 128 + cp mod 64]
        else bytes [240 + cp / 262144; 128 + (cp / 4096) mod 64;
                    128 + (cp / 64) mod 64; 128 + cp mod 64])%N.

Definition is_high_surrogate (u : N) : bool := ((55296 <=? u) && (u <=? 56319))%N.
Definition is_low_surrogate (u : N) : bool := ((56320 <=? u) && (u <=? 57343))%N.

(** The text of a string literal: escaped surrogate pairs are joined. *)
Fixpoint encode_items (l : list StrItem) : string :=
  match l with
  | [] => EmptyString
  | Raw c :: r => String c (encode_items r)
  | Esc hi :: r =>
      match r with
      | Esc lo :: r' =>
          if is_high_surrogate hi && is_low_surrogate lo
          then utf8 (65536 + (hi - 55296) * 1024 + (lo - 56320))%N ++ encode_items r'
          else utf8 hi ++ encode_items r
      | _ => utf8 hi ++ encode_items r
      end
  end.

Fixpoint span_digits (s : string) : string * string :=
  match s with
  | String c r =>
      if is_digit c
      then let p := span_digits r in (String c (fst p), snd p)
      else (EmptyString, s)
  | EmptyString => (EmptyString, s)
  end.

(** A number literal at the start of [s] (an optional minus sign; a zero
    or a nonzero digit with further digits; optionally a point with
    digits; optionally an exponent with digits): its text and what
    follows. *)
Definition json_number (s : string) : option (string * string) :=
  let (sign, s1) :=
    match s with
    | String c r => if (code c =? 45)%N then ("-", r) else (EmptyString, s)
    | EmptyString => (EmptyString, s)
    end in
  let int_part :=
    match s1 with
    | String c r =>
        if (code c =? 48)%N then Some ("0", r)
        else if is_digit c then Some (span_digits s1)
        else None
    | EmptyString => None
    end in
  match int_part with
  | None => None
  | Some (int, s2) =>
      let frac_part :=
        match s2 with
        | String c r =>
            if (code c =? 46)%N then
              let p := span_digits r in
              if is_empty (fst p) then None else Some ("." ++ fst p, snd p)
            else Some (EmptyString, s2)
        | EmptyString => Some (EmptyString, s2)
        end in
      match frac_part with
      | None => None
      | Some (frac, s3) =>
          let exp_part :=
            match s3 with
            | String c r =>
                if ((code c =? 101) || (code c =? 69))%N then
                  let (esign, r1) :=
                    match r with
                    | String c' r' =>
                        if ((code c' =? 43) || (code c' =? 45))%N
                        then (String c' EmptyString, r')
                        else (EmptyString, r)
                    | EmptyString => (EmptyString, r)
                    end in
                  let p := span_digits r1 in
                  if is_empty (fst p) then None
                  else Some (String c esign ++ fst p, snd p)
                else Some (EmptyString, s3)
            | EmptyString => Some (EmptyString, s3)
            end in
          match exp_part with
          | None => None
          | Some (exp, s4) => Some (sign ++ int ++ frac ++ exp, s4)
          end
      end
  end.

(** Recursive descent.  [fuel] bounds the calls on one path; a call of
    [json_value] below another lies at least one character further in
    the text, and [JSON_parse] gives two units of fuel per character,
    which is always enough ([JSON_parse_fuel]). *)
Fixpoint json_value (fuel : nat) (s : string) : option (JSValue * string) :=
  match fuel with
  | O => None
  | S f =>
      match skip_json_ws s with
      | EmptyString => None
      | String c r as t =>
          let b := code c in
          if (b =? 123)%N then
            match skip_json_ws r with
            | EmptyString => None
            | String c' r' as t' =>
                if (code c' =? 125)%N then Some (JObj [], r')
                else json_members f t' []
            end
          else if (b =? 91)%N then
            match skip_json_ws r with
            | EmptyString => None
            | String c' r' as t' =>
                if (code c' =? 93)%N then Some (JArr [], r')
                else json_elements f t' []
            end
          else if (b =? 34)%N then
            match json_string_items r with
            | Some (items, r') => Some (JStr (encode_items items), r')
            | None => None
            end
          else if String.prefix "true" t then Some (JBool true, drop 4 t)
          else if String.prefix "false" t then Some (JBool false, drop 5 t)
          else if String.prefix "null" t then Some (JNull, drop 4 t)
          else
            match json_number t with
            | Some (lexeme, r') => Some (JNum lexeme, r')
            | None => None
            end
      end
  end
with json_elements (fuel : nat) (s : string) (acc : list JSValue)
  : option (JSValue * string) :=
  match fuel with
  | O => None
  | S f =>
      match json_value f s with
      | None => None
      | Some (v, r) =>
          match skip_json_ws r with
          | EmptyString => None
          | String c r' =>
              if (code c =? 44)%N then json_elements f r' (acc ++ [v])
              else if (code c =? 93)%N then Some (JArr (acc ++ [v]), r')
              else None
          end
      end
  end
with json_members (fuel : nat) (s : string) (acc : list (string * JSValue))
  : option (JSValue * string) :=
  match fuel with
  | O => None
  | S f =>
      match skip_json_ws s with
      | EmptyString => None
      | String c r =>
          if (code c =? 34)%N then
            match json_string_items r with
            | None => None
            | Some (items, r1) =>
                match skip_json_ws r1 with
                | EmptyString => None
                | String c1 r2 =>
                    if (code c1 =? 58)%N then
                      match json_value f r2 with
                      | None => None
                      | Some (v, r3) =>
                          let acc' := define_field (encode_items items) v acc in
                          match skip_json_ws r3 with
                          | EmptyString => None
                          | String c3 r4 =>
                              if (code c3 =? 44)%N then json_members f r4 acc'
                              else if (code c3 =? 125)%N then Some (JObj acc', r4)
                              else None
                          end
                      end
                    else None
                end
            end
          else None
      end
  end.

(** [JSON.parse(text)]: [None] when it throws a SyntaxError. *)
Definition JSON_parse (text : string) : option JSValue :=
  match json_value (2 * String.length text + 2) text with
  | Some (v, r) => if is_empty (skip_json_ws r) then Some v else None
  | None => None
  end.

(** ** Prompt texts of the client *)

(** The built-in prompt for whole-asset metadata
    ([buildAzureOpenAIPayload], the template literal). *)
Definition builtinPrompt : string :=
  "Enrich asset metadata for discoverability.

FACETS (use only when clearly visible):
1. Product/type/model/brand
2. Setting/activity/visuals
3. Mood/palette/style
4. People: age, gender, demography
5. Visible text or logos — NEVER make assumptions or name brands that are not absolutely clearly identifiable in the image or overlay/on-pack text
6. All numbers that appear Explicitely on image/overlay (e.g., " ++ dq ++
  "500 ml" ++ dq ++
  ", " ++ dq ++
  "v25.3" ++ dq ++
  ", " ++ dq ++
  "iPhone 6" ++ dq ++
  ")

OUTPUT:
• TITLE (6–10 words) – concise, editorial; name brand only if unmistakable.
• DESCRIPTION (3–5 sentences) – main subject → setting/activity → key visuals; include visible numeric concepts.
• KEYWORDS (up to 12) – prioratize single keywords first; use multi-word only when required contextually (e.g., " ++ dq ++
  "soccer player" ++ dq ++
  ").

RULES:
• All numeric values MUST be tagged with their complete unit or metric as a single keyword Only if Clearly seen in the image/text (" ++ dq ++
  "15 oz" ++ dq ++
  ", " ++ dq ++
  "120 ml" ++ dq ++
  ").
• The following keywords Must be Removed from the keywords list: " ++ dq ++
  "logo" ++ dq ++
  ", " ++ dq ++
  "brand" ++ dq ++
  ", " ++ dq ++
  "branding" ++ dq ++
  ", " ++ dq ++
  "packaging" ++ dq ++
  " .

Return in pretty-print JSON format. Do not add Markdown or code block formatting. Use exactly these keys: 'Title' (string), 'Description' (string), and 'Keywords' (string containing a comma-separated list of tags".

Definition defaultTitlePrompt : string :=
  "Generate a concise, editorial title (6-10 words) for this image. Focus on the main subject and key visual elements. Only include brand names if they are unmistakably visible. Return only the title text, no additional formatting or explanation.".

Definition defaultDescriptionPrompt : string :=
  "Write a detailed description (3-5 sentences) of this image. Start with the main subject, then describe the setting/activity, and finally mention key visual elements. Include any visible numeric values with their units. Return only the description text, no additional formatting or explanation.".

Definition defaultKeywordsPrompt : string :=
  "Generate up to 12 relevant keywords for this image. Prioritize single keywords first, use multi-word phrases only when contextually necessary. Include visible numeric values with units. Exclude: logo, brand, branding, packaging. Return only the keywords as comma-separated text, no additional formatting or explanation.".

(** The prompt of the description rule a browser without stored prompts
    starts with. *)
Definition firstTimePrompt : string :=
  "Generate a detailed description for this image. Focus on the main subject, setting, activity, key visual elements, and any visible text or numeric values. Provide 3-5 sentences that would help someone understand what this image contains.".

Definition fallbackPrompt : string :=
  "Generate a detailed description for this image.".

(** ** Data model *)

(** [this.config].  A field that may be left out is an [option]; like
    the empty string, a missing field is falsy. *)
Record Config : Type := {
  openaiUrl : option string;
  openApiUrl : option string;
  llamaUrl : option string;
  apiKey : option string;
  timeout : Z;
  retryAttempts : Z;
  deployment : option string;
  apiVersion : option string;
  modelName : option string;
  customPrompt : option string
}.

(** The configuration the constructor sets. *)
Definition constructor_config : Config := {|
  openaiUrl := Some "https://your-openai-api-endpoint.com/analyze";
  openApiUrl := None;
  llamaUrl := Some "https://your-llama-api-endpoint.com/analyze";
  apiKey := Some EmptyString;
  timeout := 30000;
  retryAttempts := 3;
  deployment := None;
  apiVersion := None;
  modelName := None;
  customPrompt := None
|}.

Record ImageInfo : Type := {
  width : Z;
  height : Z;
  format : string;
  size : Z;
  filename : string
}.

(** An entry of the stored custom prompts (its [id] is never read). *)
Record PromptConfig : Type := {
  property : string;
  prompt : string
}.

(** What [localStorage] holds under [customPrompts]: nothing; the list
    the prompt editor saved; or something that makes the read or its
    [JSON.parse] throw. *)
Inductive StoredPrompts : Type :=
| NoItem
| Item (prompts : list PromptConfig)
| Unreadable.

(** What the client does to the outside world. *)
Inductive Event : Type :=
| EvFetch (url : string) (authorization : string) (payload : JSValue)
| EvWait (ms : Z).

(** What one [fetch] comes to: it rejects (no connection, or the abort
    at the timeout); it answers with a status that is not ok, and reading
    the body as text succeeds or rejects; it answers ok, and reading the
    body as JSON succeeds or rejects. *)
Inductive FetchOutcome : Type :=
| FetchRejected (message : string)
| FetchNotOk (status : Z) (statusText : string) (text : Completion string)
| FetchOk (json : Completion JSValue).

(** The world of a call.  The clock and the transport answer from the
    events so far. *)
Record Env : Type := {
  storage : StoredPrompts;
  clock : list Event -> string;
  transport : list Event -> FetchOutcome;
  stringify_pretty : JSValue -> string
}.

(** Truth of a configuration field, [a || b] on two of them, and the
    text of a truthy one. *)
Definition str_truthy (o : option string) : bool :=
  match o with
  | Some s => negb (is_empty s)
  | None => false
  end.

Definition str_or (a b : option string) : option string :=
  if str_truthy a then a else b.

Definition text_of (o : option string) : string :=
  match o with
  | Some s => s
  | None => EmptyString
  end.

(** Messages of the engine's TypeErrors, as V8 words them. *)
Definition read_of_nullish (what key : string) : string :=
  "Cannot read properties of " ++ what ++ " (reading '" ++ key ++ "')".

Definition not_a_function (what : string) : string :=
  what ++ " is not a function".

Definition type_name (v : JSValue) : string :=
  match v with
  | JNull => "null"
  | _ => "undefined"
  end.

(** ** The client *)

(** [getStoredCustomPrompts]. *)
Definition getStoredCustomPrompts (env : Env) : list PromptConfig :=
  match storage env with
  | Item prompts => prompts
  | NoItem => [{| property := "description"; prompt := firstTimePrompt |}]
  | Unreadable => [{| property := "description"; prompt := fallbackPrompt |}]
  end.

(** The property names the stored prompts enumerate. *)
Definition activeProperties (env : Env) : list string :=
  map property (getStoredCustomPrompts env).

(** The table [defaultPrompts] of [getDefaultPromptForProperty]. *)
Definition defaultPrompts : list (string * JSValue) :=
  [ ("title", JStr defaultTitlePrompt);
    ("description", JStr defaultDescriptionPrompt);
    ("keywords", JStr defaultKeywordsPrompt) ].

(** The members every object literal inherits from [Object.prototype]. *)
Definition object_prototype_members : list string :=
  [ "constructor"; "hasOwnProperty"; "isPrototypeOf"; "propertyIsEnumerable";
    "toLocaleString"; "toString"; "valueOf"; "__proto__";
    "__defineGetter__"; "__defineSetter__"; "__lookupGetter__";
    "__lookupSetter__" ].

Definition inheritedMember (key : string) : bool :=
  existsb (String.eqb key) object_prototype_members.

(** [defaultPrompts[key]]: the entry of the table, else the inherited
    member of that name, else [undefined]. *)
Definition defaultPrompts_get (key : string) : JSValue :=
  match lookup_field key defaultPrompts with
  | JUndefined =>
      if inheritedMember key then JHost ("Object.prototype." ++ key)
      else JUndefined
  | v => v
  end.

Definition genericPrompt (prop : string) : string :=
  "Analyze this image and provide relevant " ++ prop ++
  " information. Return only the " ++ prop ++
  " text, no additional formatting or explanation.".

(** [getDefaultPromptForProperty]. *)
Definition getDefaultPromptForProperty (prop : string) : JSValue :=
  js_or (defaultPrompts_get (toLowerCase prop)) (JStr (genericPrompt prop)).

(** [storedPrompts.find(p => p.property === property)]. *)
Definition storedPromptFor (env : Env) (prop : string) : option PromptConfig :=
  find (fun p => String.eqb (property p) prop) (getStoredCustomPrompts env).

(** The prompt [buildAzureOpenAIPayload] settles on (its [let prompt]
    and the three branches that assign it).  [prop] and [custom] are the
    parameters [property] and [customPrompt]. *)
Definition resolvePrompt (env : Env) (cfg : Config) (prop custom : option string)
  : JSValue :=
  if str_truthy custom then JStr (text_of custom)
  else if str_truthy prop then
    match storedPromptFor env (text_of prop) with
    | Some propertyPrompt => JStr (prompt propertyPrompt)
    | None => getDefaultPromptForProperty (text_of prop)
    end
  else JStr (text_of (str_or (customPrompt cfg) (Some builtinPrompt))).

(** [buildAzureOpenAIPayload].  [imageInfo] is a parameter the body
    never reads. *)
Definition buildAzureOpenAIPayload (env : Env) (cfg : Config) (imageUrl : string)
    (imageInfo : ImageInfo) (prop custom : option string) : JSValue :=
  JObj
    [ ("messages",
       JArr
         [ JObj
             [ ("role", JStr "user");
               ("content",
                JArr
                  [ JObj [ ("type", JStr "text");
                           ("text", resolvePrompt env cfg prop custom) ];
                    JObj [ ("type", JStr "image_url");
                           ("image_url", JObj [ ("url", JStr imageUrl) ]) ] ]) ] ]);
      ("max_tokens", JNum "4096");
      ("temperature", JNum "1");
      ("top_p", JNum "1");
      ("model", JStr (text_of (str_or (modelName cfg) (Some "gpt-4-vision-preview")))) ].

(** [sanitizeString]. *)
Definition sanitizeString (str : JSValue) : string :=
  match str with
  | JStr s => collapse_ws 0 false (trim s)
  | _ => EmptyString
  end.

(** The two branches that fill a record from the stored prompts: every
    stored property takes [message]; with no stored prompt the
    description alone does. *)
Definition populate (message : string) (customPrompts : list PromptConfig)
    (result : list (string * JSValue)) : list (string * JSValue) :=
  if (0 <? length customPrompts)%nat
  then fold_left (fun acc promptConfig =>
                    assign_field (property promptConfig) (JStr message) acc)
                 customPrompts result
  else define_field "description" (JStr message) result.

(** [getDefaultMetadata]; [now] is the clock reading. *)
Definition getDefaultMetadata (now : string) : JSValue :=
  JObj
    [ ("title", JStr "Sample Title");
      ("description",
       JStr "This is a sample description generated for testing purposes.");
      ("tags", JStr "sample, test, placeholder, demo");
      ("confidence", JNull);
      ("processing_time", JNull);
      ("provider", JStr "default");
      ("generated_at", JStr now) ].

Definition errorMarker : string := "❌ Error: ".

(** [getErrorMetadata]. *)
Definition getErrorMetadata (env : Env) (now : string) (errorMessage : string)
  : JSValue :=
  JObj
    (populate (errorMarker ++ errorMessage) (getStoredCustomPrompts env)
       [ ("error", JStr errorMessage);
         ("provider", JStr "error");
         ("generated_at", JStr now) ]).

(** The record both fallbacks of the parser start from. *)
Definition openaiResult (now : string) : list (string * JSValue) :=
  [ ("confidence", JNull);
    ("processing_time", JNull);
    ("provider", JStr "openai");
    ("generated_at", JStr now) ].

(** [response.choices?.[0]?.message?.content]: reading [choices] of
    [null] or [undefined] throws. *)
Definition extract_content (response : JSValue) : Completion JSValue :=
  if nullish response
  then Thrown (read_of_nullish (type_name response) "choices")
  else
    Returned
      (opt_chain
         (opt_chain (opt_chain (member response "choices") index0)
                    (fun v => member v "message"))
         (fun v => member v "content")).

(** The record of the structured branch. *)
Definition structuredRecord (now : string) (metadata : JSValue) : JSValue :=
  JObj
    [ ("title",
       JStr (sanitizeString
               (js_or (js_or (member metadata "Title") (member metadata "title"))
                      (JStr EmptyString))));
      ("description",
       JStr (sanitizeString
               (js_or (js_or (member metadata "Description")
                             (member metadata "description"))
                      (JStr EmptyString))));
      ("tags",
       JStr (sanitizeString
               (js_or (js_or (js_or (member metadata "Keywords")
                                    (member metadata "keywords"))
                             (member metadata "tags"))
                      (JStr EmptyString))));
      ("confidence", JNull);
      ("processing_time", JNull);
      ("provider", JStr "openai");
      ("generated_at", JStr now) ].

(** The record of the plain-text branch (the handler of the inner
    [try]). *)
Definition plainTextRecord (env : Env) (now : string) (content : string) : JSValue :=
  JObj (populate (sanitizeString (JStr content)) (getStoredCustomPrompts env)
          (openaiResult now)).

(** The inner [try] of [parseAzureOpenAIResponse] on a string [content].
    Its handler catches the SyntaxError of [JSON.parse] and also the
    TypeError of reading [Title] of a parsed [null]. *)
Definition parseContent (env : Env) (now : string) (content : string) : JSValue :=
  match JSON_parse (trim (strip_fences content)) with
  | Some metadata =>
      if nullish metadata then plainTextRecord env now content
      else structuredRecord now metadata
  | None => plainTextRecord env now content
  end.

(** [parseAzureOpenAIResponse].  A truthy [content] that is no string has
    no [replace]; the handler of the inner [try] then calls its missing
    [substring], and that TypeError reaches the outer handler. *)
Definition parseAzureOpenAIResponse (env : Env) (now : string) (response : JSValue)
  : JSValue :=
  match extract_content response with
  | Thrown message =>
      getErrorMetadata env now ("Failed to parse Azure OpenAI response: " ++ message)
  | Returned content =>
      if negb (truthy content) then
        JObj (populate ("📝 Raw Response: " ++ stringify_pretty env response)
                (getStoredCustomPrompts env) (openaiResult now))
      else
        match content with
        | JStr text => parseContent env now text
        | _ =>
            getErrorMetadata env now
              ("Failed to parse Azure OpenAI response: " ++
               not_a_function "content.substring")
        end
  end.

(** What one attempt of [callAPI] comes to: the record it returns, or the
    message of the error its handler catches. *)
Definition attemptResult (env : Env) (now : string) (outcome : FetchOutcome)
  : JSValue + string :=
  match outcome with
  | FetchRejected message => inr message
  | FetchNotOk status statusText (Returned errorText) =>
      inr ("HTTP " ++ Z_to_string status ++ ": " ++ statusText ++ " - " ++ errorText)
  | FetchNotOk _ _ (Thrown message) => inr message
  | FetchOk (Thrown message) => inr message
  | FetchOk (Returned result) => inl (parseAzureOpenAIResponse env now result)
  end.

(** [baseUrl] of [callAPI], the test it makes of the endpoint, the
    address it builds and the [Authorization] header it sends. *)
Definition baseUrl (cfg : Config) : option string :=
  str_or (openaiUrl cfg) (openApiUrl cfg).

Definition incomplete (cfg : Config) : bool :=
  negb (str_truthy (baseUrl cfg)) || negb (str_truthy (deployment cfg)) ||
  negb (str_truthy (apiVersion cfg)) || includes "your-" (text_of (baseUrl cfg)).

Definition endpointUrl (cfg : Config) : string :=
  text_of (baseUrl cfg) ++ "/openai/deployments/" ++ text_of (deployment cfg) ++
  "/chat/completions?api-version=" ++ text_of (apiVersion cfg).

Definition authorizationHeader (cfg : Config) : string :=
  if str_truthy (apiKey cfg) then "Bearer " ++ text_of (apiKey cfg)
  else EmptyString.

(** [1000 * Math.pow(2, attempt - 1)]. *)
Definition backoff (attempt : Z) : Z := 1000 * 2 ^ (attempt - 1).

(** The [for] loop of [callAPI] and what follows it.  [remaining] is the
    number of values of [attempt] still to run, from [attempt] up to
    [retryAttempts]; [lastError] is the message of the last error, if
    any; [trace] holds the events so far. *)
Fixpoint attempts (env : Env) (cfg : Config) (url : string) (payload : JSValue)
    (remaining : nat) (attempt : Z) (lastError : option string)
    (trace : list Event) : Completion JSValue * list Event :=
  match remaining with
  | O =>
      match lastError with
      | Some message =>
          (Returned (getErrorMetadata env (clock env trace)
                       ("Azure OpenAI API failed: " ++ message)),
           trace)
      | None => (Thrown (read_of_nullish "undefined" "message"), trace)
      end
  | S k =>
      let sent := (trace ++ [EvFetch url (authorizationHeader cfg) payload])%list in
      match attemptResult env (clock env sent) (transport env sent) with
      | inl record => (Returned record, sent)
      | inr message =>
          let waited :=
            if (attempt <? retryAttempts cfg)%Z
            then (sent ++ [EvWait (backoff attempt)])%list
            else sent in
          attempts env cfg url payload k (attempt + 1) (Some message) waited
      end
  end.

(** [callAPI]. *)
Definition callAPI (env : Env) (cfg : Config) (provider : string)
    (imageUrl : string) (imageInfo : ImageInfo) (prop custom : option string)
    (trace : list Event) : Completion JSValue * list Event :=
  if negb (String.eqb provider "openai")
  then (Returned (getDefaultMetadata (clock env trace)), trace)
  else if incomplete cfg
  then (Returned (getDefaultMetadata (clock env trace)), trace)
  else
    let url := endpointUrl cfg in
    let payload := buildAzureOpenAIPayload env cfg imageUrl imageInfo prop custom in
    attempts env cfg url payload (Z.to_nat (retryAttempts cfg)) 1 None trace.

(** [generateOpenAIMetadata], [generateCustomPropertyMetadata] and
    [generateLlamaMetadata]. *)
Definition generateOpenAIMetadata (env : Env) (cfg : Config) (imageUrl : string)
    (imageInfo : ImageInfo) (prop : option string) (trace : list Event)
  : Completion JSValue * list Event :=
  callAPI env cfg "openai" imageUrl imageInfo prop None trace.

Definition generateCustomPropertyMetadata (env : Env) (cfg : Config)
    (imageUrl : string) (imageInfo : ImageInfo) (prop custom : string)
    (trace : list Event) : Completion JSValue * list Event :=
  callAPI env cfg "openai" imageUrl imageInfo (Some prop) (Some custom) trace.

Definition generateLlamaMetadata (env : Env) (cfg : Config) (imageUrl : string)
    (imageInfo : ImageInfo) (trace : list Event)
  : Completion JSValue * list Event :=
  callAPI env cfg "llama" imageUrl imageInfo None None trace.

(** The object [generateBothMetadata] returns from the two settled
    promises: the value of a fulfilled one, an error record for a
    rejected one. *)
Definition settledBoth (env : Env) (now : string)
    (openaiResult llamaResult : Completion JSValue) : JSValue :=
  JObj
    [ ("openai",
       match openaiResult with
       | Returned value => value
       | Thrown _ => getErrorMetadata env now "OpenAI API failed"
       end);
      ("llama",
       match llamaResult with
       | Returned value => value
       | Thrown _ => getErrorMetadata env now "Llama API failed"
       end) ].

(** The events of [callAPI] up to its first [await]: the call runs as
    far as its first [fetch], when it reaches one, and then hands control
    back to its caller. *)
Definition callAPI_suspended (env : Env) (cfg : Config) (provider : string)
    (imageUrl : string) (imageInfo : ImageInfo) (prop custom : option string)
    (trace : list Event) : list Event :=
  if negb (String.eqb provider "openai") then trace
  else if incomplete cfg then trace
  else
    match Z.to_nat (retryAttempts cfg) with
    | O => trace
    | S _ =>
        (trace ++
         [EvFetch (endpointUrl cfg) (authorizationHeader cfg)
            (buildAzureOpenAIPayload env cfg imageUrl imageInfo prop custom)])%list
    end.

(** [generateBothMetadata].  The array handed to [Promise.allSettled]
    is built before anything is awaited: the first call runs up to its
    first [await], then the second call runs, which performs no event
    and reads the clock at that instant, and then the first call goes
    on to its end.  Nothing in the [try] throws, so its handler is not
    modelled. *)
Definition generateBothMetadata (env : Env) (cfg : Config) (imageUrl : string)
    (imageInfo : ImageInfo) (trace : list Event) : Completion JSValue * list Event :=
  let suspended := callAPI_suspended env cfg "openai" imageUrl imageInfo None None trace in
  let llamaSettled := fst (generateLlamaMetadata env cfg imageUrl imageInfo suspended) in
  let (openaiSettled, trace1) :=
    generateOpenAIMetadata env cfg imageUrl imageInfo None trace in
  (Returned (settledBoth env (clock env trace1) openaiSettled llamaSettled), trace1).

Definition testImageInfo : ImageInfo := {|
  width := 800;
  height := 600;
  format := "jpg";
  size := 150000;
  filename := "test.jpg"
|}.

(** The [try] of [testConfiguration]: the result of the call, [null]
    when it throws. *)
Definition resultOrNull (settled : Completion JSValue) : JSValue :=
  match settled with
  | Returned result => result
  | Thrown _ => JNull
  end.

(** [testConfiguration]. *)
Definition testConfiguration (env : Env) (cfg : Config) (trace : list Event)
  : JSValue * list Event :=
  let (settled, trace') :=
    generateBothMetadata env cfg "data:image/jpeg;base64,test" testImageInfo trace in
  (resultOrNull settled, trace').

(** ** Vocabulary of the statements *)

Definition is_string (v : JSValue) : bool :=
  match v with
  | JStr _ => true
  | _ => false
  end.

(** The number of requests in a trace, and the durations of its waits in
    order. *)
Definition fetches (evs : list Event) : nat :=
  length (filter (fun e => match e with EvFetch _ _ _ => true | EvWait _ => false end)
                 evs).

Definition waits (evs : list Event) : list Z :=
  flat_map (fun e => match e with EvWait ms => [ms] | EvFetch _ _ _ => [] end) evs.

(** An attempt fails unless the answer is ok and its body is JSON. *)
Definition fails (outcome : FetchOutcome) : Prop :=
  match outcome with
  | FetchOk (Returned _) => False
  | _ => True
  end.

(** The message of the error the attempt made after the events [h]
    raises. *)
Definition failureMessage (env : Env) (h : list Event) : string :=
  match attemptResult env (clock env h) (transport env h) with
  | inr message => message
  | inl _ => EmptyString
  end.

(** The events of [remaining] failed attempts, the first numbered
    [attempt]: a request each, and a wait between two of them. *)
Fixpoint retrySchedule (request : Event) (remaining : nat) (attempt : Z) : list Event :=
  match remaining with
  | O => []
  | S k =>
      request ::
      match k with
      | O => []
      | S _ => EvWait (backoff attempt) :: retrySchedule request k (attempt + 1)
      end
  end.

(** The request [callAPI] sends. *)
Definition requestOf (env : Env) (cfg : Config) (imageUrl : string)
    (imageInfo : ImageInfo) (prop custom : option string) : Event :=
  EvFetch (endpointUrl cfg) (authorizationHeader cfg)
    (buildAzureOpenAIPayload env cfg imageUrl imageInfo prop custom).

(** A response the parser cannot read: reading its content throws, or
    the content is truthy and no string. *)
Definition unreadable (response : JSValue) : bool :=
  match extract_content response with
  | Thrown _ => true
  | Returned content => truthy content && negb (is_string content)
  end.

(** The attempt made after the events [h] failed: in the transport, or
    in the parser. *)
Definition attemptFailed (env : Env) (h : list Event) : Prop :=
  match transport env h with
  | FetchOk (Returned response) => unreadable response = true
  | _ => True
  end.

(** What a call that reached the network returns, read off the attempt
    made after the events [h], its last: the parsed response when that
    attempt was answered, the error record of its message otherwise. *)
Definition settles (env : Env) (h : list Event) (r : JSValue) : Prop :=
  match transport env h with
  | FetchOk (Returned response) =>
      r = parseAzureOpenAIResponse env (clock env h) response
  | _ =>
      r = getErrorMetadata env (clock env h)
            ("Azure OpenAI API failed: " ++ failureMessage env h)
  end.

(** The shape of an error record over the property names [props]: the
    error is set; the provider is [error] unless a property of that name
    took its place; every property other than [__proto__] holds a text
    that starts with the error marker. *)
Definition errorShaped (props : list string) (r : JSValue) : Prop :=
  (exists message, obj_get "error" r = JStr message) /\
  (~ In "provider" props -> obj_get "provider" r = JStr "error") /\
  (forall p, In p props -> p <> "__proto__" ->
             exists message, obj_get p r = JStr (errorMarker ++ message)).

(** The names of the own properties of a record. *)
Definition own_keys (v : JSValue) : list string :=
  match v with
  | JObj fields => map fst fields
  | _ => []
  end.

(** A content on which the parser falls back: one that is missing or
    falsy, or a string that is not empty and, with the code-fence markers
    deleted and trimmed, is no JSON. *)
Definition fallbackContent (content : JSValue) : Prop :=
  truthy content = false \/
  exists text,
    content = JStr text /\ text <> EmptyString /\
    JSON_parse (trim (strip_fences text)) = None.

(** The record the parser falls back on: the plain-text record of a
    content that is a string and not empty, the record of the serialized
    response otherwise. *)
Definition fallbackRecord (env : Env) (now : string) (response content : JSValue)
  : JSValue :=
  match content with
  | JStr (String c text) => plainTextRecord env now (String c text)
  | _ =>
      JObj (populate ("📝 Raw Response: " ++ stringify_pretty env response)
              (getStoredCustomPrompts env) (openaiResult now))
  end.

(** A response whose [choices[0].message.content] is [content]. *)
Definition responseWith (content : JSValue) : JSValue :=
  JObj [ ("choices", JArr [ JObj [ ("message", JObj [ ("content", content) ]) ] ]) ].

(** The first truthy value of a list, the empty string when there is
    none. *)
Fixpoint firstTruthy (vs : list JSValue) : JSValue :=
  match vs with
  | [] => JStr EmptyString
  | v :: rest => if truthy v then v else firstTruthy rest
  end.

(** ** The claims in the specification's words, where the client differs *)

(** The value of the first key of [fields] whose lower case is one of
    [names]: a case-insensitive match. *)
Fixpoint claimedField (names : list string) (fields : list (string * JSValue))
  : JSValue :=
  match fields with
  | [] => JUndefined
  | (k, v) :: rest =>
      if existsb (String.eqb (toLowerCase k)) names then v
      else claimedField names rest
  end.

(** The resolution order as the specification words it: the override if
    it is not empty; the rule of the property if there is one and its
    text is not empty; the built-in default of the property, found
    without regard to case; the global default if no property is asked
    for; a generic instruction that names the property. *)
Definition claimedPrompt (env : Env) (cfg : Config) (prop custom : option string)
  : string :=
  if str_truthy custom then text_of custom
  else
    match find (fun p => String.eqb (property p) (text_of prop) &&
                         negb (is_empty (prompt p)))
               (if str_truthy prop then getStoredCustomPrompts env else []) with
    | Some rule => prompt rule
    | None =>
        match lookup_field (toLowerCase (text_of prop))
                           (if str_truthy prop then defaultPrompts else []) with
        | JStr text => text
        | _ =>
            if str_truthy prop then genericPrompt (text_of prop)
            else text_of (str_or (customPrompt cfg) (Some builtinPrompt))
        end
    end.

(** A placeholder value, as the specification has it: a text that holds
    [your-]. *)
Definition placeholder (o : option string) : bool := includes "your-" (text_of o).

(** The configurations the specification counts as incomplete. *)
Definition claimedIncomplete (cfg : Config) : bool :=
  negb (str_truthy (baseUrl cfg)) || negb (str_truthy (deployment cfg)) ||
  negb (str_truthy (apiVersion cfg)) ||
  placeholder (baseUrl cfg) || placeholder (deployment cfg) ||
  placeholder (apiVersion cfg).

(** ** Sample inputs *)

(** A complete configuration. *)
Definition sampleConfig : Config := {|
  openaiUrl := Some "https://contoso.openai.azure.com";
  openApiUrl := None;
  llamaUrl := None;
  apiKey := Some "0123456789abcdef";
  timeout := 30000;
  retryAttempts := 3;
  deployment := Some "gpt-4o";
  apiVersion := Some "2024-02-01";
  modelName := None;
  customPrompt := None
|}.

Definition sampleImage : string := "data:image/jpeg;base64,test".

Definition sampleClock (h : list Event) : string := "2025-01-01T00:00:00.000Z".

(** A world in which every request is refused. *)
Definition offlineEnv (stored : StoredPrompts) : Env := {|
  storage := stored;
  clock := sampleClock;
  transport := fun _ => FetchRejected "Failed to fetch";
  stringify_pretty := fun _ => "{}"
|}.

(** A world in which every request is answered with [response]. *)
Definition answeringEnv (stored : StoredPrompts) (response : JSValue) : Env := {|
  storage := stored;
  clock := sampleClock;
  transport := fun _ => FetchOk (Returned response);
  stringify_pretty := fun _ => "{}"
|}.

(** Stored prompts with a property named like a field of the record. *)
Definition providerRule : StoredPrompts :=
  Item [ {| property := "provider";
            prompt := "Name the vendor shown in the image." |} ].

(** Stored prompts with a property named [__proto__], as the editor
    saves them. *)
Definition protoRule : StoredPrompts :=
  Item [ {| property := "__proto__"; prompt := "Describe the prototype." |} ].

(** The content of the specification's scenario: the JSON object in a
    code fence. *)
Definition fencedContent : string :=
  "```json" ++ nl ++
  json_lit "{'Title':'A','Description':'B','Keywords':'c,d'}" ++ nl ++ "```".

(** Valid JSON whose only key is the title in capitals. *)
Definition capitalsContent : string := json_lit "{'TITLE':'A'}".

(** Valid JSON with white space to clean, keywords that are no string
    and a second spelling of the tags. *)
Definition mixedContent : string :=
  json_lit "{'title':'  A   red  car ','Keywords':['x'],'tags':'t'}".

(** Stored prompts for two properties. *)
Definition twoRules : StoredPrompts :=
  Item [ {| property := "title"; prompt := "Give a title." |};
         {| property := "mood"; prompt := "Describe the mood." |} ].

(** Stored prompts whose rule for the title has no text. *)
Definition emptyTitleRule : StoredPrompts :=
  Item [ {| property := "title"; prompt := EmptyString |} ].

(** A configuration whose deployment holds a placeholder, and one that
    lacks the deployment; both have a real base URL. *)
Definition placeholderDeployment : Config := {|
  openaiUrl := Some "https://contoso.openai.azure.com";
  openApiUrl := None;
  llamaUrl := None;
  apiKey := Some "0123456789abcdef";
  timeout := 30000;
  retryAttempts := 3;
  deployment := Some "your-deployment";
  apiVersion := Some "2024-02-01";
  modelName := None;
  customPrompt := None
|}.

Definition noDeployment : Config := {|
  openaiUrl := Some "https://contoso.openai.azure.com";
  openApiUrl := None;
  llamaUrl := None;
  apiKey := Some "0123456789abcdef";
  timeout := 30000;
  retryAttempts := 3;
  deployment := None;
  apiVersion := Some "2024-02-01";
  modelName := None;
  customPrompt := None
|}.

(** A complete configuration that allows no attempt. *)
Definition noAttempts : Config := {|
  openaiUrl := Some "https://contoso.openai.azure.com";
  openApiUrl := None;
  llamaUrl := None;
  apiKey := Some "0123456789abcdef";
  timeout := 30000;
  retryAttempts := 0;
  deployment := Some "gpt-4o";
  apiVersion := Some "2024-02-01";
  modelName := None;
  customPrompt := None
|}.

(** A world in which the first request is refused and every later one is
    answered with [response]. *)
Definition recoveringEnv (stored : StoredPrompts) (response : JSValue) : Env := {|
  storage := stored;
  clock := sampleClock;
  transport := fun h =>
    match h with
    | [_] => FetchRejected "Failed to fetch"
    | _ => FetchOk (Returned response)
    end;
  stringify_pretty := fun _ => "{}"
|}.

(** A world in which every request is refused and the clock tells how
    many events have happened. *)
Definition tickingClock (h : list Event) : string :=
  "after " ++ NilEmpty.string_of_uint (Nat.to_uint (length h)) ++ " events".

Definition tickingEnv (stored : StoredPrompts) : Env := {|
  storage := stored;
  clock := tickingClock;
  transport := fun _ => FetchRejected "Failed to fetch";
  stringify_pretty := fun _ => "{}"
|}.

(** A world in which every request is answered with the status 401. *)
Definition unauthorizedEnv (stored : StoredPrompts) : Env := {|
  storage := stored;
  clock := sampleClock;
  transport := fun _ =>
    FetchNotOk 401 "Unauthorized" (Returned "Access denied due to invalid key.");
  stringify_pretty := fun _ => "{}"
|}.

(** ** The rest of the client, its configuration and the prompt editor *)


(** The argument of [setConfig]: for each key of the configuration, the
    value the object gives it, if it has the key at all. *)
Module Patch.
Record t : Type := {
  openaiUrl : option (option string);
  openApiUrl : option (option string);
  llamaUrl : option (option string);
  apiKey : option (option string);
  timeout : option Z;
  retryAttempts : option Z;
  deployment : option (option string);
  apiVersion : option (option string);
  modelName : option (option string);
  customPrompt : option (option string)
}.
End Patch.

(** A key of the spread [{ ...this.config, ...config }]: the value of
    [config] when it has the key, that of [this.config] otherwise. *)
Definition spread {A : Type} (given : option A) (old : A) : A :=
  match given with
  | Some v => v
  | None => old
  end.

(** [setConfig]. *)
Definition setConfig (config : Patch.t) (cfg : Config) : Config := {|
  openaiUrl := spread (Patch.openaiUrl config) (openaiUrl cfg);
  openApiUrl := spread (Patch.openApiUrl config) (openApiUrl cfg);
  llamaUrl := spread (Patch.llamaUrl config) (llamaUrl cfg);
  apiKey := spread (Patch.apiKey config) (apiKey cfg);
  timeout := spread (Patch.timeout config) (timeout cfg);
  retryAttempts := spread (Patch.retryAttempts config) (retryAttempts cfg);
  deployment := spread (Patch.deployment config) (deployment cfg);
  apiVersion := spread (Patch.apiVersion config) (apiVersion cfg);
  modelName := spread (Patch.modelName config) (modelName cfg);
  customPrompt := spread (Patch.customPrompt config) (customPrompt cfg)
|}.

(** The custom prompt of [DEFAULT_CONFIG]. *)
Definition defaultConfigPrompt : string :=
  "Enrich asset metadata for discoverability.

FACETS (use only when clearly visible):
1. Product/type/model/brand
2. Setting/activity/visuals
3. Mood/palette/style
4. People: age, gender, demography
5. Visible text or logos — NEVER make assumptions or name brands that are not absolutely clearly identifiable in the image or overlay/on-pack text
6. All numbers that appear Explicitely on image/overlay (e.g., " ++ dq ++
  "500 ml" ++ dq ++
  ", " ++ dq ++
  "v25.3" ++ dq ++
  ", " ++ dq ++
  "iPhone 6" ++ dq ++
  ")

OUTPUT:
• TITLE (6–10 words) – concise, editorial; name brand only if unmistakable.
• DESCRIPTION (3–5 sentences) – main subject → setting/activity → key visuals; include visible numeric concepts.
• KEYWORDS (up to 12) – prioratize single keywords first; use multi-word only when required contextually (e.g., " ++ dq ++
  "soccer player" ++ dq ++
  ").

RULES:
• All numeric values MUST be tagged with their complete unit or metric as a single keyword Only if Clearly seen in the image/text (" ++ dq ++
  "15 oz" ++ dq ++
  ", " ++ dq ++
  "120 ml" ++ dq ++
  ").
• The following keywords Must be Removed from the keywords list: " ++ dq ++
  "logo" ++ dq ++
  ", " ++ dq ++
  "brand" ++ dq ++
  ", " ++ dq ++
  "branding" ++ dq ++
  ", " ++ dq ++
  "packaging" ++ dq ++
  " .

Return in pretty-print JSON format. Do not add Markdown or code block formatting. Use exactly these keys: 'Title' (string), 'Description' (string), and 'Keywords' (string containing a comma-separated list of tags".

(** [DEFAULT_CONFIG], the configuration [autoLoadDefaultsIfNeeded] hands
    to [setConfig]. *)
Definition DEFAULT_CONFIG : Patch.t := {|
  Patch.openaiUrl := Some (Some "https://your-resource.openai.azure.com");
  Patch.openApiUrl := None;
  Patch.llamaUrl := None;
  Patch.apiKey := Some (Some "your-api-key-here");
  Patch.timeout := Some 30000%Z;
  Patch.retryAttempts := None;
  Patch.deployment := Some (Some "your-deployment-name");
  Patch.apiVersion := Some (Some "2024-02-15-preview");
  Patch.modelName := Some (Some "gpt-4-vision-preview");
  Patch.customPrompt := Some (Some defaultConfigPrompt)
|}.

(** [DEFAULT_CUSTOM_PROMPTS]. *)
Definition DEFAULT_CUSTOM_PROMPTS : list PromptConfig :=
  [ {| property := "description";
       prompt := "Generate a detailed description for this image. Focus on the main subject, setting, activity, key visual elements, and any visible text or numeric values. Provide 3-5 sentences that would help someone understand what this image contains." |} ].

(** The prompt editor.  The functions of this module read and replace
    the list [customPrompts] as a whole, so they are given on its
    contents and on what [localStorage] holds for the client;
    [writable] says whether [localStorage.setItem] succeeds.  The [id]
    of an entry is left out here, since none of them reads it, and so
    are the page and the notifications. *)
Module CustomPrompts.

(** The test of both filters: [p.property.trim() && p.prompt.trim()]. *)
Definition validPrompt (p : PromptConfig) : bool :=
  negb (is_empty (trim (property p))) && negb (is_empty (trim (prompt p))).

(** [saveCustomPrompts]: a failing write is caught and changes
    nothing. *)
Definition saveCustomPrompts (writable : bool) (customPrompts : list PromptConfig)
    (stored : StoredPrompts) : StoredPrompts :=
  if writable then Item customPrompts else stored.

(** [saveCustomPromptsAndClose]. *)
Definition saveCustomPromptsAndClose (writable : bool)
    (state : list PromptConfig * StoredPrompts) : list PromptConfig * StoredPrompts :=
  let validPrompts := filter validPrompt (fst state) in
  (validPrompts, saveCustomPrompts writable validPrompts (snd state)).

(** The [map] of [importPromptsFromFile]: the [property] and the
    [prompt] of every entry, each the empty string when falsy.  [None]
    stands for the TypeError of reading an entry that is [null]. *)
Fixpoint mapEntries (items : list JSValue) : option (list (JSValue * JSValue)) :=
  match items with
  | [] => Some []
  | entry :: rest =>
      if nullish entry then None
      else
        option_map
          (cons (js_or (member entry "property") (JStr EmptyString),
                 js_or (member entry "prompt") (JStr EmptyString)))
          (mapEntries rest)
  end.

(** Its [filter].  [None] stands for the TypeError of calling [trim]
    on a value that is no string; the prompt of an entry is read only
    when its trimmed property is not empty. *)
Fixpoint filterEntries (entries : list (JSValue * JSValue))
  : option (list PromptConfig) :=
  match entries with
  | [] => Some []
  | (JStr name, text) :: rest =>
      if is_empty (trim name) then filterEntries rest
      else
        match text with
        | JStr body =>
            option_map
              (fun kept =>
                 if is_empty (trim body) then kept
                 else {| property := name; prompt := body |} :: kept)
              (filterEntries rest)
        | _ => None
        end
  | _ :: _ => None
  end.

(** The handler [importPromptsFromFile] gives the file reader; [text]
    is the text of the file.  Whatever is thrown is caught and leaves
    the state as it is. *)
Definition importPromptsFromFile (writable : bool) (text : string)
    (state : list PromptConfig * StoredPrompts) : list PromptConfig * StoredPrompts :=
  match JSON_parse text with
  | None => state
  | Some importData =>
      if nullish importData then state
      else
        match member importData "prompts" with
        | JArr items =>
            match mapEntries items with
            | None => state
            | Some entries =>
                match filterEntries entries with
                | None => state
                | Some [] => state
                | Some validPrompts =>
                    (validPrompts,
                     saveCustomPrompts writable validPrompts (snd state))
                end
            end
        | _ => state
        end
  end.

End CustomPrompts.

(** An entry of a file at which the handler of [importPromptsFromFile]
    throws: an entry that is [null]; a property that is truthy and no
    string; or, the property being a string that is not blank, a prompt
    that is truthy and no string. *)
Definition refusedEntry (entry : JSValue) : bool :=
  nullish entry ||
  match member entry "property" with
  | JStr name =>
      negb (is_empty (trim name)) &&
      match member entry "prompt" with
      | JStr _ => false
      | text => truthy text
      end
  | name => truthy name
  end.

(** The prompt an entry names: its property and its prompt, when both
    are strings that are not blank. *)
Definition importedPrompt (entry : JSValue) : list PromptConfig :=
  match member entry "property", member entry "prompt" with
  | JStr name, JStr body =>
      if CustomPrompts.validPrompt {| property := name; prompt := body |}
      then [ {| property := name; prompt := body |} ]
      else []
  | _, _ => []
  end.

Definition importedPrompts (items : list JSValue) : list PromptConfig :=
  flat_map importedPrompt items.

(** The functions of the editor that depend on which array
    [customPrompts] refers to and on which objects it holds: the arrays
    and the prompt objects of the page are kept in a store. *)
Module Editor.

Local Open Scope list_scope.

(** A prompt object of the editor: its [id], a string when it has one,
    and its property and prompt. *)
Record Entry : Type := {
  id : option string;
  config : PromptConfig
}.

(** What [localStorage] holds under [customPrompts], ids included, and
    what the client sees of it. *)
Inductive Saved : Type :=
| NothingSaved
| SavedEntries (entries : list Entry)
| SavedUnreadable.

Definition clientStorage (saved : Saved) : StoredPrompts :=
  match saved with
  | NothingSaved => NoItem
  | SavedEntries entries => Item (map config entries)
  | SavedUnreadable => Unreadable
  end.

(** The objects and the two arrays of the page.  An array holds the
    addresses of its elements in [heap]; [customPrompts] is [None] when
    the variable refers to the array [DEFAULT_CUSTOM_PROMPTS] itself. *)
Record Store : Type := {
  heap : list Entry;
  defaults : list nat;
  customPrompts : option (list nat)
}.

Definition noEntry : Entry :=
  {| id := None; config := {| property := EmptyString; prompt := EmptyString |} |}.

Definition object (st : Store) (address : nat) : Entry := nth address (heap st) noEntry.

Definition elements (st : Store) : list nat :=
  match customPrompts st with
  | None => defaults st
  | Some items => items
  end.

(** What the editor shows, and what [DEFAULT_CUSTOM_PROMPTS] holds. *)
Definition contents (st : Store) : list Entry := map (object st) (elements st).

Definition defaultContents (st : Store) : list Entry := map (object st) (defaults st).

(** The page as the scripts leave it. *)
Definition initial : Store := {|
  heap := map (fun p => {| id := None; config := p |}) DEFAULT_CUSTOM_PROMPTS;
  defaults := seq 0 (length DEFAULT_CUSTOM_PROMPTS);
  customPrompts := Some []
|}.

(** New objects go to the end of the heap. *)
Definition allocate (entries : list Entry) (st : Store) : list nat :=
  seq (length (heap st)) (length entries).

Definition fallbackEntry : Entry :=
  {| id := None; config := {| property := "description"; prompt := fallbackPrompt |} |}.

(** [getStoredCustomPrompts] of the editor: the array it returns ([None]
    for the array [DEFAULT_CUSTOM_PROMPTS] itself), the heap and the
    storage after it.  Unlike the client's it saves the defaults when
    nothing is stored; a write that fails sends it to its handler. *)
Definition getStoredCustomPrompts (writable : bool) (saved : Saved) (st : Store)
  : option (list nat) * Store * Saved :=
  match saved with
  | SavedEntries entries =>
      (Some (allocate entries st),
       {| heap := heap st ++ entries; defaults := defaults st;
          customPrompts := customPrompts st |},
       saved)
  | NothingSaved =>
      if writable then (None, st, SavedEntries (defaultContents st))
      else
        (Some (allocate [fallbackEntry] st),
         {| heap := heap st ++ [fallbackEntry]; defaults := defaults st;
            customPrompts := customPrompts st |},
         saved)
  | SavedUnreadable =>
      (Some (allocate [fallbackEntry] st),
       {| heap := heap st ++ [fallbackEntry]; defaults := defaults st;
          customPrompts := customPrompts st |},
       saved)
  end.

(** [loadCustomPrompts]. *)
Definition loadCustomPrompts (writable : bool) (saved : Saved) (st : Store)
  : Store * Saved :=
  match saved with
  | SavedEntries entries =>
      ({| heap := heap st ++ entries; defaults := defaults st;
          customPrompts := Some (allocate entries st) |},
       saved)
  | NothingSaved =>
      let '(array, st', saved') := getStoredCustomPrompts writable saved st in
      ({| heap := heap st'; defaults := defaults st'; customPrompts := array |}, saved')
  | SavedUnreadable =>
      ({| heap := heap st; defaults := defaults st; customPrompts := None |}, saved)
  end.

(** [customPrompts.push(newPrompt)] in [addCustomPrompt]; [newId] is
    what [generateId] returns. *)
Definition addCustomPrompt (newId : string) (st : Store) : Store :=
  let address := length (heap st) in
  let newPrompt :=
    {| id := Some newId;
       config := {| property := EmptyString; prompt := EmptyString |} |} in
  match customPrompts st with
  | None =>
      {| heap := heap st ++ [newPrompt]; defaults := defaults st ++ [address];
         customPrompts := None |}
  | Some items =>
      {| heap := heap st ++ [newPrompt]; defaults := defaults st;
         customPrompts := Some (items ++ [address]) |}
  end.

(** [p.id === id], for ids that are strings or [undefined]. *)
Definition same_id (a b : option string) : bool :=
  match a, b with
  | Some x, Some y => String.eqb x y
  | None, None => true
  | _, _ => false
  end.

(** [removeCustomPrompt]. *)
Definition removeCustomPrompt (i : option string) (st : Store) : Store :=
  {| heap := heap st; defaults := defaults st;
     customPrompts :=
       Some (filter (fun a => negb (same_id (id (object st a)) i)) (elements st)) |}.

(** The assignment to a property of the object at [address]. *)
Fixpoint assign (objects : list Entry) (address : nat) (change : Entry -> Entry)
  : list Entry :=
  match objects, address with
  | [], _ => []
  | e :: rest, O => change e :: rest
  | e :: rest, S a => e :: assign rest a change
  end.

Definition setProperty (text : string) (e : Entry) : Entry :=
  {| id := id e; config := {| property := text; prompt := prompt (config e) |} |}.

Definition setPrompt (text : string) (e : Entry) : Entry :=
  {| id := id e; config := {| property := property (config e); prompt := text |} |}.

Definition updateObject (i : option string) (change : Entry -> Entry) (st : Store)
  : Store :=
  match find (fun a => same_id (id (object st a)) i) (elements st) with
  | Some address =>
      {| heap := assign (heap st) address change; defaults := defaults st;
         customPrompts := customPrompts st |}
  | None => st
  end.

(** [updateCustomPromptProperty] and [updateCustomPromptText]. *)
Definition updateCustomPromptProperty (i : option string) (text : string) (st : Store)
  : Store := updateObject i (setProperty text) st.

Definition updateCustomPromptText (i : option string) (text : string) (st : Store)
  : Store := updateObject i (setPrompt text) st.

(** [resetCustomPromptsToDefaults]: a copy of every default with a new
    id; [newIds k] is what the call of [generateId] for element [k]
    returns. *)
Definition resetCustomPromptsToDefaults (newIds : nat -> string) (st : Store) : Store :=
  let copies :=
    map (fun ka => {| id := Some (newIds (fst ka));
                      config := config (object st (snd ka)) |})
        (combine (seq 0 (length (defaults st))) (defaults st)) in
  {| heap := heap st ++ copies; defaults := defaults st;
     customPrompts := Some (allocate copies st) |}.

(** The contents of the array [getStoredCustomPrompts] returns. *)
Definition returnedContents (r : option (list nat) * Store * Saved) : list Entry :=
  map (object (snd (fst r)))
      (match fst (fst r) with
       | None => defaults (snd (fst r))
       | Some items => items
       end).

(** What the user does in the editor between a load and a save, and
    what that makes of the page. *)
Inductive Edit : Type :=
| Add (newId : string)
| Remove (i : option string)
| SetProperty (i : option string) (text : string)
| SetPrompt (i : option string) (text : string).

Definition edit (e : Edit) (st : Store) : Store :=
  match e with
  | Add newId => addCustomPrompt newId st
  | Remove i => removeCustomPrompt i st
  | SetProperty i text => updateCustomPromptProperty i text st
  | SetPrompt i text => updateCustomPromptText i text st
  end.

Definition edits (es : list Edit) (st : Store) : Store :=
  fold_left (fun s e => edit e s) es st.

(** Every address is that of an object. *)
Definition well_formed (st : Store) : Prop :=
  Forall (fun a => a < length (heap st)) (defaults st).

(** The array of the editor is its own and none of its objects is one of
    the defaults: the defaults lie below [n] in the heap, its elements
    do not. *)
Definition separated (n : nat) (st : Store) : Prop :=
  Forall (fun a => a < n) (defaults st) /\ n <= length (heap st) /\
  exists items, customPrompts st = Some items /\ Forall (fun a => n <= a) items.

End Editor.

(** A prompts file with a valid entry, an entry whose prompt is blank and
    an entry without a property. *)
Definition promptsFile : string :=
  json_lit "{'version':'1.0','prompts':[{'id':'a','property':'title','prompt':'Give a title.'},{'property':'mood','prompt':'   '},{'prompt':'Describe it.'}]}".

(** Settings a user saves: with a real endpoint, and without any. *)
Definition endpointSettings : Patch.t := {|
  Patch.openaiUrl := Some (Some "https://contoso.openai.azure.com");
  Patch.openApiUrl := None;
  Patch.llamaUrl := None;
  Patch.apiKey := Some (Some "0123456789abcdef");
  Patch.timeout := None;
  Patch.retryAttempts := None;
  Patch.deployment := Some (Some "gpt-4o");
  Patch.apiVersion := Some (Some "2024-02-01");
  Patch.modelName := None;
  Patch.customPrompt := None
|}.

Definition otherSettings : Patch.t := {|
  Patch.openaiUrl := None;
  Patch.openApiUrl := Some (Some "https://contoso.openai.azure.com");
  Patch.llamaUrl := None;
  Patch.apiKey := Some (Some "0123456789abcdef");
  Patch.timeout := None;
  Patch.retryAttempts := None;
  Patch.deployment := Some (Some "gpt-4o");
  Patch.apiVersion := Some (Some "2024-02-01");
  Patch.modelName := None;
  Patch.customPrompt := None
|}.

(** Prompts in the editor: a valid one, one with a blank text and one
    with a blank property. *)
Definition editedPrompts : list PromptConfig :=
  [ {| property := "title"; prompt := "Give a title." |};
    {| property := "mood"; prompt := "   " |};
    {| property := " "; prompt := "Describe it." |} ].

(** ** Sanitized texts, file names and the CSV text *)

(** The shape of a sanitized text: wherever white space starts in it, it
    is one space, and what follows the space is there and is no white
    space.  A tidy text, moreover, does not start with white space. *)
Fixpoint spaced (s : string) : bool :=
  match s with
  | EmptyString => true
  | String c r =>
      if (ws_len s =? 0)%nat then spaced r
      else (code c =? 32)%N && negb (is_empty r) && (ws_len r =? 0)%nat && spaced r
  end.

Definition tidy (s : string) : bool := (ws_len s =? 0)%nat && spaced s.

(** [IMAGE_EXTENSIONS]. *)
Definition IMAGE_EXTENSIONS : list string :=
  [ "jpg"; "jpeg"; "png"; "gif"; "webp"; "bmp"; "svg"; "ico"; "tiff"; "tif" ].

(** [filename.split('.')]. *)
Fixpoint split_dot (s : string) : list string :=
  match s with
  | EmptyString => [EmptyString]
  | String c r =>
      if (code c =? 46)%N then EmptyString :: split_dot r
      else
        match split_dot r with
        | first :: rest => String c first :: rest
        | [] => [String c EmptyString]
        end
  end.

(** [isValidImage]: [pop] takes the last part, and [includes] compares
    it with the extensions, all of them ASCII. *)
Definition isValidImage (filename : JSValue) : bool :=
  match filename with
  | JStr s =>
      if is_empty s then false
      else
        let extension := toLowerCase (last (split_dot s) EmptyString) in
        existsb (String.eqb extension) IMAGE_EXTENSIONS
  | _ => false
  end.

(** The replacement [exportAsCsv] makes in a cell: every quote character
    is written twice. *)
Fixpoint double_quotes (s : string) : string :=
  match s with
  | EmptyString => EmptyString
  | String c r =>
      if (code c =? 34)%N then String c (String c (double_quotes r))
      else String c (double_quotes r)
  end.

(** A cell of the CSV text: [cell] is the text [String] gives for the
    value of the cell. *)
Definition csvCell (cell : string) : string := dq ++ double_quotes cell ++ dq.

(** [Array.prototype.join] on strings. *)
Fixpoint join (separator : string) (items : list string) : string :=
  match items with
  | [] => EmptyString
  | [item] => item
  | item :: rest => item ++ separator ++ join separator rest
  end.

(** [csvContent] of [exportAsCsv], from the rows of [csvData]. *)
Definition csvContent (csvData : list (list string)) : string :=
  join nl (map (fun row => join "," (map csvCell row)) csvData).

(** The first byte of [s] is [b]. *)
Definition starts_with (b : N) (s : string) : bool :=
  match s with
  | String c _ => (code c =? b)%N
  | EmptyString => false
  end.

(** A table whose cells hold quotes, commas and a line feed. *)
Definition sampleTable : list (list string) :=
  [ [ "Index"; "Filename"; "OpenAI - Description" ];
    [ "1"; "a,b.jpg"; "He said " ++ dq ++ "hi" ++ dq ++ "," ++ nl ++ "then left" ] ].

(** ** JSON.stringify on the prompts *)

(** The backslash. *)
Definition bs : string := String (ascii_of_N 92) EmptyString.

Definition hex_digit (n : N) : ascii :=
  ascii_of_N (if (n <? 10)%N then 48 + n else 87 + n).

(** QuoteJSONString on one character of a well-formed text: the quote
    and the backslash take a backslash, a control character its letter
    or its code in four hexadecimal digits, and any other byte is
    kept. *)
Definition quote_char (c : ascii) : string :=
  let b := code c in
  if (b =? 8)%N then bs ++ "b"
  else if (b =? 9)%N then bs ++ "t"
  else if (b =? 10)%N then bs ++ "n"
  else if (b =? 12)%N then bs ++ "f"
  else if (b =? 13)%N then bs ++ "r"
  else if (b =? 34)%N then bs ++ dq
  else if (b =? 92)%N then bs ++ bs
  else if (b <? 32)%N
       then bs ++ "u00" ++
            String (hex_digit (b / 16)) (String (hex_digit (b mod 16)) EmptyString)
       else String c EmptyString.

Fixpoint quote_body (s : string) : string :=
  match s with
  | EmptyString => EmptyString
  | String c r => quote_char c ++ quote_body r
  end.

Definition QuoteJSONString (s : string) : string := dq ++ quote_body s ++ dq.

(** The end of SerializeJSONObject and SerializeJSONArray: the texts
    [partial] of the members between [opening] and [closing], on lines of
    their own when there is a [gap]. *)
Definition serialize (gap stepback opening closing : string) (partial : list string)
  : string :=
  match partial with
  | [] => opening ++ closing
  | _ :: _ =>
      if is_empty gap then opening ++ join "," partial ++ closing
      else
        let indent := stepback ++ gap in
        opening ++ nl ++ indent ++ join ("," ++ nl ++ indent) partial ++
        nl ++ stepback ++ closing
  end.

(** A member of an object, its value already serialized. *)
Definition member_text (gap key value : string) : string :=
  QuoteJSONString key ++ ":" ++ (if is_empty gap then EmptyString else " ") ++ value.

(** An entry of [customPrompts] with all that it holds ([id] included)
    is the list of its properties, in the order in which they are
    enumerated; their values are strings.  [SerializeEntry] is
    JSON.stringify on such an object and [SerializeEntries] on an array
    of them, at the indentation [stepback]; [entryObject] is the
    object. *)
Definition SerializeEntry (gap stepback : string) (fields : list (string * string))
  : string :=
  serialize gap stepback "{" "}"
    (map (fun field => member_text gap (fst field) (QuoteJSONString (snd field)))
         fields).

Definition SerializeEntries (gap stepback : string)
    (entries : list (list (string * string))) : string :=
  serialize gap stepback "[" "]" (map (SerializeEntry gap (stepback ++ gap)) entries).

Definition entryObject (fields : list (string * string)) : JSValue :=
  JObj (fold_left (fun acc field => define_field (fst field) (JStr (snd field)) acc)
          fields []).

(** [dataStr] of [exportPromptsToFile]: [JSON.stringify(promptsData,
    null, 2)]; [exported] is the clock reading. *)
Definition exportPromptsToFile (exported : string)
    (customPrompts : list (list (string * string))) : string :=
  serialize "  " EmptyString "{" "}"
    [ member_text "  " "version" (QuoteJSONString "1.0");
      member_text "  " "exported" (QuoteJSONString exported);
      member_text "  " "prompts" (SerializeEntries "  " "  " customPrompts) ].

(** The property and the prompt of an entry, as the editor and the
    client read them. *)
Definition textOf (v : JSValue) : string :=
  match v with
  | JStr s => s
  | _ => EmptyString
  end.

Definition entryPrompt (fields : list (string * string)) : PromptConfig :=
  {| property := textOf (member (entryObject fields) "property");
     prompt := textOf (member (entryObject fields) "prompt") |}.

(** The pieces of the string literal that [quote_body] writes, and text
    that is white space for [JSON.parse]. *)
Definition item_of (c : ascii) : StrItem :=
  let b := code c in
  if ((b <? 32) &&
      negb ((b =? 8) || (b =? 9) || (b =? 10) || (b =? 12) || (b =? 13)))%N
  then Esc b else Raw c.

Fixpoint items_of (s : string) : list StrItem :=
  match s with
  | EmptyString => []
  | String c r => item_of c :: items_of r
  end.

Fixpoint json_ws_only (w : string) : bool :=
  match w with
  | EmptyString => true
  | String c r => is_json_ws c && json_ws_only r
  end.

(** Entries as the editor makes them: with the [id] first, with the [id]
    last (after a reset) and without one (the defaults). *)
Definition sampleEntries : list (list (string * string)) :=
  [ [ ("id", "k3x9"); ("property", "title");
      ("prompt", "Give a " ++ dq ++ "short" ++ dq ++ " title.") ];
    [ ("property", "mood"); ("prompt", "   "); ("id", "a7") ];
    [ ("property", "description"); ("prompt", "Describe" ++ nl ++ "the image.") ] ].

(** * Proofs *)

(** ** The fuel of [JSON_parse] *)

Lemma skip_json_ws_length s : String.length (skip_json_ws s) <= String.length s.
Proof.
  induction s as [|c s IH]; simpl; [lia |].
  destruct (is_json_ws c); simpl; lia.
Qed.

Lemma json_string_items_length : forall n s items r,
  String.length s <= n ->
  json_string_items s = Some (items, r) -> String.length r < String.length s.
Proof.
  induction n as [|n IH]; intros s items r Hn H.
  - destruct s; simpl in *; [discriminate | lia].
  - destruct s as [|c s]; simpl in H; [discriminate |].
    destruct (code c =? 34)%N.
    { injection H as _ <-. simpl. lia. }
    destruct (code c <? 32)%N; [discriminate |].
    destruct (code c =? 92)%N.
    + destruct s as [|e s1]; [discriminate |].
      destruct (code e =? 117)%N.
      * destruct s1 as [|h1 [|h2 [|h3 [|h4 r2]]]]; try discriminate.
        destruct (hex4 h1 h2 h3 h4); [| discriminate].
        destruct (json_string_items r2) as [[items' r']|] eqn:E; [| discriminate].
        injection H as _ <-.
        apply IH in E; simpl in *; lia.
      * destruct (simple_escape (code e)); [| discriminate].
        destruct (json_string_items s1) as [[items' r']|] eqn:E; [| discriminate].
        injection H as _ <-.
        apply IH in E; simpl in *; lia.
    + destruct (json_string_items s) as [[items' r']|] eqn:E; [| discriminate].
      injection H as _ <-.
      apply IH in E; simpl in *; lia.
Qed.

Lemma span_digits_length s : String.length (snd (span_digits s)) <= String.length s.
Proof.
  induction s as [|c s IH]; simpl; [lia |].
  destruct (is_digit c); simpl; lia.
Qed.

Lemma json_number_length s lexeme r :
  json_number s = Some (lexeme, r) -> String.length r < String.length s.
Proof.
  unfold json_number.
  set (p := match s with
            | String c r0 => if (code c =? 45)%N then ("-", r0) else (EmptyString, s)
            | EmptyString => (EmptyString, s)
            end).
  assert (Hp : String.length (snd p) <= String.length s).
  { subst p. destruct s as [|c s0]; simpl; [lia |].
    destruct (code c =? 45)%N; simpl; lia. }
  destruct p as [sign s1]. simpl in Hp.
  set (ip := match s1 with
             | String c r0 =>
                 if (code c =? 48)%N then Some ("0", r0)
                 else if is_digit c then Some (span_digits s1) else None
             | EmptyString => None
             end).
  assert (Hi : forall int s2, ip = Some (int, s2) ->
                              String.length s2 < String.length s1).
  { subst ip. intros int s2. destruct s1 as [|c s0]; [discriminate |].
    destruct (code c =? 48)%N.
    - intros [= _ <-]. simpl. lia.
    - destruct (is_digit c) eqn:Ed; [| discriminate].
      simpl. rewrite Ed. intros [= _ <-].
      pose proof (span_digits_length s0). simpl. lia. }
  destruct ip as [[int s2]|]; [| discriminate].
  specialize (Hi int s2 eq_refl).
  set (fp := match s2 with
             | String c r0 =>
                 if (code c =? 46)%N
                 then let p := span_digits r0 in
                      if is_empty (fst p) then None else Some ("." ++ fst p, snd p)
                 else Some (EmptyString, s2)
             | EmptyString => Some (EmptyString, s2)
             end).
  assert (Hf : forall frac s3, fp = Some (frac, s3) ->
                               String.length s3 <= String.length s2).
  { subst fp. intros frac s3. destruct s2 as [|c s0]; [intros [= _ <-]; lia |].
    destruct (code c =? 46)%N.
    - cbv zeta. destruct (is_empty (fst (span_digits s0))); [discriminate |].
      intros [= _ <-]. pose proof (span_digits_length s0). simpl. lia.
    - intros [= _ <-]. lia. }
  destruct fp as [[frac s3]|]; [| discriminate].
  specialize (Hf frac s3 eq_refl).
  match goal with
  | |- match ?e with _ => _ end = _ -> _ => set (ep := e)
  end.
  assert (He : forall exp s4, ep = Some (exp, s4) ->
                              String.length s4 <= String.length s3).
  { subst ep. intros exp s4. destruct s3 as [|c s0]; [intros [= _ <-]; lia |].
    destruct ((code c =? 101) || (code c =? 69))%N.
    - destruct s0 as [|c' s0'].
      + simpl. discriminate.
      + destruct ((code c' =? 43) || (code c' =? 45))%N.
        * destruct (is_empty (fst (span_digits s0'))); [discriminate |].
          intros [= _ <-]. pose proof (span_digits_length s0'). simpl. lia.
        * destruct (is_empty (fst (span_digits (String c' s0')))); [discriminate |].
          intros [= _ <-]. pose proof (span_digits_length (String c' s0')).
          simpl in *. lia.
    - intros [= _ <-]. lia. }
  destruct ep as [[exp s4]|]; [| discriminate].
  specialize (He exp s4 eq_refl).
  intros [= _ <-]. lia.
Qed.

Lemma drop_length n s : String.length (drop n s) <= String.length s.
Proof.
  revert s. induction n as [|n IH]; intros s; destruct s; simpl; try lia.
  specialize (IH s). lia.
Qed.

Lemma json_progress f :
  (forall s v r, json_value f s = Some (v, r) -> String.length r < String.length s) /\
  (forall s acc v r, json_elements f s acc = Some (v, r) ->
                     String.length r < String.length s) /\
  (forall s acc v r, json_members f s acc = Some (v, r) ->
                     String.length r < String.length s).
Proof.
  induction f as [|f (IHv & IHe & IHm)].
  - repeat split; intros; discriminate.
  - split; [| split].
    + intros s v r. cbn [json_value].
      pose proof (skip_json_ws_length s) as Hs.
      destruct (skip_json_ws s) as [|c r0]; [discriminate |].
      simpl in Hs.
      destruct (code c =? 123)%N.
      { pose proof (skip_json_ws_length r0) as Hr.
        destruct (skip_json_ws r0) as [|c' r']; [discriminate |].
        simpl in Hr.
        destruct (code c' =? 125)%N.
        - intros [= _ <-]. lia.
        - intros H. apply IHm in H. simpl in H. lia. }
      destruct (code c =? 91)%N.
      { pose proof (skip_json_ws_length r0) as Hr.
        destruct (skip_json_ws r0) as [|c' r']; [discriminate |].
        simpl in Hr.
        destruct (code c' =? 93)%N.
        - intros [= _ <-]. lia.
        - intros H. apply IHe in H. simpl in H. lia. }
      destruct (code c =? 34)%N.
      { destruct (json_string_items r0) as [[items r']|] eqn:E; [| discriminate].
        intros [= _ <-].
        apply (json_string_items_length _ _ _ _ (le_n _)) in E. lia. }
      destruct (String.prefix "true" (String c r0)).
      { intros [= _ <-]. pose proof (drop_length 3 r0). simpl in *. lia. }
      destruct (String.prefix "false" (String c r0)).
      { intros [= _ <-]. pose proof (drop_length 4 r0). simpl in *. lia. }
      destruct (String.prefix "null" (String c r0)).
      { intros [= _ <-]. pose proof (drop_length 3 r0). simpl in *. lia. }
      destruct (json_number (String c r0)) as [[lexeme r']|] eqn:E; [| discriminate].
      intros [= _ <-]. apply json_number_length in E. simpl in E. lia.
    + intros s acc v r. cbn [json_elements].
      destruct (json_value f s) as [[v0 r0]|] eqn:E; [| discriminate].
      apply IHv in E.
      pose proof (skip_json_ws_length r0) as Hr.
      destruct (skip_json_ws r0) as [|c r']; [discriminate |].
      simpl in Hr.
      destruct (code c =? 44)%N.
      { intros H. apply IHe in H. lia. }
      destruct (code c =? 93)%N; [| discriminate].
      intros [= _ <-]. lia.
    + intros s acc v r. cbn [json_members].
      pose proof (skip_json_ws_length s) as Hs.
      destruct (skip_json_ws s) as [|c r0]; [discriminate |].
      simpl in Hs.
      destruct (code c =? 34)%N; [| discriminate].
      destruct (json_string_items r0) as [[items r1]|] eqn:E; [| discriminate].
      apply (json_string_items_length _ _ _ _ (le_n _)) in E.
      pose proof (skip_json_ws_length r1) as H1.
      destruct (skip_json_ws r1) as [|c1 r2]; [discriminate |].
      simpl in H1.
      destruct (code c1 =? 58)%N; [| discriminate].
      destruct (json_value f r2) as [[v0 r3]|] eqn:Ev; [| discriminate].
      apply IHv in Ev.
      pose proof (skip_json_ws_length r3) as H3.
      destruct (skip_json_ws r3) as [|c3 r4]; [discriminate |].
      simpl in H3. cbv zeta.
      destruct (code c3 =? 44)%N.
      { intros H. apply IHm in H. lia. }
      destruct (code c3 =? 125)%N; [| discriminate].
      intros [= _ <-]. lia.
Qed.

(** More fuel than twice the length of the text changes nothing. *)
Lemma json_fuel f :
  (forall s f', 2 * String.length s + 1 <= f -> f <= f' ->
                json_value f' s = json_value f s) /\
  (forall s acc f', 2 * String.length s + 2 <= f -> f <= f' ->
                    json_elements f' s acc = json_elements f s acc) /\
  (forall s acc f', 2 * String.length s + 2 <= f -> f <= f' ->
                    json_members f' s acc = json_members f s acc).
Proof.
  induction f as [|f (IHv & IHe & IHm)].
  - repeat split; intros; lia.
  - split; [| split].
    + intros s f' Hb Hf. destruct f' as [|f']; [lia |].
      cbn [json_value].
      pose proof (skip_json_ws_length s) as Hs.
      destruct (skip_json_ws s) as [|c r0]; [reflexivity |].
      simpl in Hs.
      pose proof (skip_json_ws_length r0) as Hr.
      destruct (skip_json_ws r0) as [|c' r'] eqn:E0.
      * reflexivity.
      * simpl in Hr.
        rewrite (IHm (String c' r') [] f') by (simpl; lia).
        rewrite (IHe (String c' r') [] f') by (simpl; lia).
        reflexivity.
    + intros s acc f' Hb Hf. destruct f' as [|f']; [lia |].
      cbn [json_elements].
      rewrite (IHv s f') by lia.
      destruct (json_value f s) as [[v0 r0]|] eqn:E; [| reflexivity].
      apply (proj1 (json_progress f)) in E.
      pose proof (skip_json_ws_length r0) as Hr.
      destruct (skip_json_ws r0) as [|c r']; [reflexivity |].
      simpl in Hr.
      rewrite (IHe r' (acc ++ [v0])%list f') by lia.
      reflexivity.
    + intros s acc f' Hb Hf. destruct f' as [|f']; [lia |].
      cbn [json_members].
      pose proof (skip_json_ws_length s) as Hs.
      destruct (skip_json_ws s) as [|c r0]; [reflexivity |].
      simpl in Hs.
      destruct (code c =? 34)%N; [| reflexivity].
      destruct (json_string_items r0) as [[items r1]|] eqn:E; [| reflexivity].
      apply (json_string_items_length _ _ _ _ (le_n _)) in E.
      pose proof (skip_json_ws_length r1) as H1.
      destruct (skip_json_ws r1) as [|c1 r2]; [reflexivity |].
      simpl in H1.
      destruct (code c1 =? 58)%N; [| reflexivity].
      rewrite (IHv r2 f') by lia.
      destruct (json_value f r2) as [[v0 r3]|] eqn:Ev; [| reflexivity].
      apply (proj1 (json_progress f)) in Ev.
      pose proof (skip_json_ws_length r3) as H3.
      destruct (skip_json_ws r3) as [|c3 r4]; [reflexivity |].
      simpl in H3. cbv zeta.
      rewrite (IHm r4 (define_field (encode_items items) v0 acc) f') by lia.
      reflexivity.
Qed.

(** [JSON_parse] never fails for want of fuel: any larger amount gives
    the same result. *)
Lemma JSON_parse_fuel text f :
  2 * String.length text + 2 <= f ->
  json_value f text = json_value (2 * String.length text + 2) text.
Proof.
  intros Hf. apply (proj1 (json_fuel (2 * String.length text + 2))); lia.
Qed.

(** ** Fields of a record *)

Lemma lookup_define_eq k v fields : lookup_field k (define_field k v fields) = v.
Proof.
  induction fields as [|[k' v'] rest IH]; simpl.
  - now rewrite String.eqb_refl.
  - destruct (String.eqb k' k) eqn:E; simpl.
    + now rewrite String.eqb_refl.
    + now rewrite E.
Qed.

Lemma lookup_define_ne k k' v fields :
  k <> k' -> lookup_field k' (define_field k v fields) = lookup_field k' fields.
Proof.
  intros Hne.
  induction fields as [|[k0 v0] rest IH]; simpl.
  - apply String.eqb_neq in Hne. now rewrite Hne.
  - destruct (String.eqb k0 k) eqn:E; simpl.
    + apply String.eqb_eq in E. subst k0.
      apply String.eqb_neq in Hne. now rewrite Hne.
    + destruct (String.eqb k0 k'); [reflexivity | exact IH].
Qed.

Lemma lookup_assign_eq k v fields :
  k <> "__proto__" -> lookup_field k (assign_field k v fields) = v.
Proof.
  intros Hk. unfold assign_field.
  apply String.eqb_neq in Hk. rewrite Hk. apply lookup_define_eq.
Qed.

Lemma lookup_assign_ne k k' v fields :
  k <> k' -> lookup_field k' (assign_field k v fields) = lookup_field k' fields.
Proof.
  intros Hne. unfold assign_field.
  destruct (String.eqb k "__proto__"); [reflexivity | now apply lookup_define_ne].
Qed.

(** Assigning one text under several names: a name that holds the text
    keeps it. *)
Lemma assign_all_keeps message prompts : forall fields p,
  lookup_field p fields = JStr message ->
  lookup_field p
    (fold_left (fun acc promptConfig =>
                  assign_field (property promptConfig) (JStr message) acc)
               prompts fields) = JStr message.
Proof.
  induction prompts as [|q rest IH]; intros fields p Hp; simpl.
  - exact Hp.
  - apply IH.
    destruct (String.eqb (property q) p) eqn:E.
    + apply String.eqb_eq in E. subst p.
      unfold assign_field.
      destruct (String.eqb (property q) "__proto__"); [exact Hp | apply lookup_define_eq].
    + apply String.eqb_neq in E. rewrite lookup_assign_ne; assumption.
Qed.

(** ... and every name assigned to, other than [__proto__], holds it in
    the end. *)
Lemma assign_all_sets message prompts : forall fields p,
  In p (map property prompts) -> p <> "__proto__" ->
  lookup_field p
    (fold_left (fun acc promptConfig =>
                  assign_field (property promptConfig) (JStr message) acc)
               prompts fields) = JStr message.
Proof.
  induction prompts as [|q rest IH]; intros fields p Hin Hp; simpl in *.
  - contradiction.
  - destruct Hin as [Hq | Hin].
    + apply assign_all_keeps. rewrite Hq. now apply lookup_assign_eq.
    + now apply IH.
Qed.

(** A name that is not assigned to keeps its value. *)
Lemma assign_all_frame message prompts : forall fields k,
  ~ In k (map property prompts) ->
  lookup_field k
    (fold_left (fun acc promptConfig =>
                  assign_field (property promptConfig) (JStr message) acc)
               prompts fields) = lookup_field k fields.
Proof.
  induction prompts as [|q rest IH]; intros fields k Hk; simpl in *.
  - reflexivity.
  - rewrite IH by tauto.
    apply lookup_assign_ne. intro E. apply Hk. now left.
Qed.

Lemma populate_sets message prompts fields p :
  In p (map property prompts) -> p <> "__proto__" ->
  lookup_field p (populate message prompts fields) = JStr message.
Proof.
  intros Hin Hp. unfold populate.
  destruct prompts as [|q rest]; [contradiction |].
  simpl Nat.ltb. cbv iota. now apply assign_all_sets.
Qed.

Lemma populate_frame message prompts fields k :
  ~ In k (map property prompts) -> k <> "description" ->
  lookup_field k (populate message prompts fields) = lookup_field k fields.
Proof.
  intros Hk Hd. unfold populate.
  destruct prompts as [|q rest].
  - simpl. apply lookup_define_ne. congruence.
  - simpl Nat.ltb. cbv iota. now apply assign_all_frame.
Qed.

(** With no stored prompt the description takes the text. *)
Lemma populate_empty message fields :
  lookup_field "description" (populate message [] fields) = JStr message.
Proof. unfold populate. simpl. apply lookup_define_eq. Qed.

(** A field that holds a text holds a text afterwards. *)
Lemma assign_keeps_text k k' message fields :
  (exists s, lookup_field k fields = JStr s) ->
  exists s, lookup_field k (assign_field k' (JStr message) fields) = JStr s.
Proof.
  intros [s Hs]. unfold assign_field.
  destruct (String.eqb k' "__proto__"); [eauto |].
  destruct (String.eqb k' k) eqn:E.
  - apply String.eqb_eq in E. subst k'. eexists. apply lookup_define_eq.
  - apply String.eqb_neq in E. rewrite lookup_define_ne by exact E. eauto.
Qed.

Lemma populate_keeps_text message prompts fields k :
  (exists s, lookup_field k fields = JStr s) ->
  exists s, lookup_field k (populate message prompts fields) = JStr s.
Proof.
  intros Hs. unfold populate.
  destruct (0 <? length prompts)%nat.
  - revert fields Hs.
    induction prompts as [|x l IH]; intros fields Hs; simpl.
    + exact Hs.
    + apply IH. now apply assign_keeps_text.
  - destruct Hs as [s Hs].
    destruct (String.eqb "description" k) eqn:E.
    + apply String.eqb_eq in E. subst k. eexists. apply lookup_define_eq.
    + apply String.eqb_neq in E. rewrite lookup_define_ne by exact E. eauto.
Qed.

(** ** The error record *)

Lemma getErrorMetadata_shaped env now errorMessage :
  errorShaped (activeProperties env) (getErrorMetadata env now errorMessage).
Proof.
  unfold errorShaped, getErrorMetadata, activeProperties, obj_get.
  repeat split.
  - apply populate_keeps_text. simpl. eauto.
  - intros Hp. rewrite populate_frame by (assumption || discriminate). reflexivity.
  - intros p Hin Hp. exists errorMessage. now apply populate_sets.
Qed.

(** ** The retry loop *)

Lemma fails_message env now outcome :
  fails outcome -> exists message, attemptResult env now outcome = inr message.
Proof.
  destruct outcome as [m | st stt [t | m] | [r | m]]; simpl; intros H;
    try contradiction; eauto.
Qed.

Lemma attemptResult_inr_fails env now outcome message :
  attemptResult env now outcome = inr message -> fails outcome.
Proof.
  destruct outcome as [m | st stt [t | m] | [r | m]]; simpl; intros H;
    try exact I; discriminate.
Qed.

Lemma attemptResult_inl env now outcome record :
  attemptResult env now outcome = inl record ->
  exists response,
    outcome = FetchOk (Returned response) /\
    record = parseAzureOpenAIResponse env now response.
Proof.
  destruct outcome as [m | st stt [t | m] | [r | m]]; simpl; intros H;
    try discriminate.
  exists r. split; congruence.
Qed.

Section RetryLoop.

Variables (env : Env) (cfg : Config) (url : string) (payload : JSValue).

Lemma attempts_step k attempt lastError trace :
  attempts env cfg url payload (S k) attempt lastError trace =
  let sent := (trace ++ [EvFetch url (authorizationHeader cfg) payload])%list in
  match attemptResult env (clock env sent) (transport env sent) with
  | inl record => (Returned record, sent)
  | inr message =>
      attempts env cfg url payload k (attempt + 1) (Some message)
        (if (attempt <? retryAttempts cfg)%Z
         then (sent ++ [EvWait (backoff attempt)])%list
         else sent)
  end.
Proof. reflexivity. Qed.

Lemma retrySchedule_step request k attempt :
  retrySchedule request (S (S k)) attempt =
  request :: EvWait (backoff attempt) :: retrySchedule request (S k) (attempt + 1).
Proof. reflexivity. Qed.

(** When every attempt fails the loop runs the whole schedule and
    returns the error record of the last message. *)
Lemma attempts_all_fail :
  (forall h, fails (transport env h)) ->
  forall k attempt lastError trace,
    (Z.of_nat (S k) = retryAttempts cfg - attempt + 1)%Z ->
    let request := EvFetch url (authorizationHeader cfg) payload in
    let final := (trace ++ retrySchedule request (S k) attempt)%list in
    attempts env cfg url payload (S k) attempt lastError trace =
    (Returned (getErrorMetadata env (clock env final)
                 ("Azure OpenAI API failed: " ++ failureMessage env final)),
     final).
Proof.
  intros Hfail k.
  induction k as [|k IH]; intros attempt lastError trace Hinv; cbn zeta;
    rewrite attempts_step; cbn zeta;
    set (sent := (trace ++ [EvFetch url (authorizationHeader cfg) payload])%list);
    destruct (fails_message env (clock env sent) _ (Hfail sent)) as [m Hm];
    rewrite Hm.
  - replace (attempt <? retryAttempts cfg)%Z with false
      by (symmetry; apply Z.ltb_ge; lia).
    simpl. fold sent. unfold failureMessage. rewrite Hm. reflexivity.
  - replace (attempt <? retryAttempts cfg)%Z with true
      by (symmetry; apply Z.ltb_lt; lia).
    rewrite (IH (attempt + 1)%Z (Some m) (sent ++ [EvWait (backoff attempt)])%list)
      by lia.
    cbn zeta. rewrite retrySchedule_step. subst sent.
    rewrite <- !app_assoc. reflexivity.
Qed.

(** Whatever the transport does, the loop returns a record, and the
    record is the one its last attempt settles. *)
Lemma attempts_settles :
  forall k attempt lastError trace,
    (Z.of_nat (S k) = retryAttempts cfg - attempt + 1)%Z ->
    exists r trace',
      attempts env cfg url payload (S k) attempt lastError trace =
      (Returned r, trace') /\ settles env trace' r.
Proof.
  induction k as [|k IH]; intros attempt lastError trace Hinv;
    rewrite attempts_step; cbn zeta;
    set (sent := (trace ++ [EvFetch url (authorizationHeader cfg) payload])%list);
    destruct (attemptResult env (clock env sent) (transport env sent))
      as [record | m] eqn:Hres.
  - apply attemptResult_inl in Hres. destruct Hres as [response [Hout Hrec]].
    exists record, sent. split; [reflexivity |].
    unfold settles. now rewrite Hout.
  - replace (attempt <? retryAttempts cfg)%Z with false
      by (symmetry; apply Z.ltb_ge; lia).
    simpl. eexists _, sent. split; [reflexivity |].
    unfold settles, failureMessage. rewrite Hres.
    apply attemptResult_inr_fails in Hres.
    destruct (transport env sent) as [m' | st stt [t | m'] | [r' | m']];
      simpl in Hres; try contradiction; reflexivity.
  - apply attemptResult_inl in Hres. destruct Hres as [response [Hout Hrec]].
    exists record, sent. split; [reflexivity |].
    unfold settles. now rewrite Hout.
  - apply IH. lia.
Qed.

End RetryLoop.

(** ** The schedule of a failed call *)

Lemma fetches_retrySchedule url authorization payload n attempt :
  fetches (retrySchedule (EvFetch url authorization payload) n attempt) = n.
Proof.
  revert attempt. induction n as [|k IH]; intros attempt; [reflexivity |].
  destruct k as [|k]; [reflexivity |].
  rewrite retrySchedule_step. unfold fetches in *. simpl.
  f_equal. apply (IH (attempt + 1)%Z).
Qed.

Lemma waits_retrySchedule url authorization payload n attempt :
  waits (retrySchedule (EvFetch url authorization payload) n attempt) =
  map (fun i => backoff (attempt + Z.of_nat i)) (seq 0 (n - 1)).
Proof.
  revert attempt. induction n as [|k IH]; intros attempt; [reflexivity |].
  destruct k as [|k]; [reflexivity |].
  rewrite retrySchedule_step.
  change (waits (?a :: EvWait ?ms :: ?l)) with (ms :: waits l).
  rewrite (IH (attempt + 1)%Z).
  replace (S (S k) - 1) with (S (S k - 1)) by lia.
  cbn [seq map]. rewrite <- seq_shift, map_map.
  f_equal.
  - f_equal. simpl. lia.
  - apply map_ext. intros i. f_equal. lia.
Qed.

Lemma last_retrySchedule request k attempt d :
  last (retrySchedule request (S k) attempt) d = request.
Proof.
  revert attempt. induction k as [|k IH]; intros attempt; [reflexivity |].
  rewrite retrySchedule_step.
  change (last (request :: EvWait (backoff attempt) ::
                retrySchedule request (S k) (attempt + 1)) d)
    with (last (retrySchedule request (S k) (attempt + 1)) d).
  apply IH.
Qed.

(** ** The retry loop of [callAPI] *)

(** C2. With a complete configuration, at least one attempt allowed and a
    transport that fails every time, [callAPI] sends exactly
    [retryAttempts] requests (3 in the constructor's configuration),
    waits [1000 * 2^(attempt-1)] ms after each failed attempt but the
    last, that is 1000, 2000, 4000, ... between consecutive requests and
    one wait fewer than requests, and returns the error record built from
    the message of the last error. *)
Theorem callAPI_retry_schedule env cfg imageUrl imageInfo prop custom trace :
  incomplete cfg = false ->
  (1 <= retryAttempts cfg)%Z ->
  (forall h, fails (transport env h)) ->
  let request := requestOf env cfg imageUrl imageInfo prop custom in
  let evs := retrySchedule request (Z.to_nat (retryAttempts cfg)) 1 in
  let final := (trace ++ evs)%list in
  callAPI env cfg "openai" imageUrl imageInfo prop custom trace =
    (Returned (getErrorMetadata env (clock env final)
                 ("Azure OpenAI API failed: " ++ failureMessage env final)),
     final) /\
  Z.of_nat (fetches evs) = retryAttempts cfg /\
  waits evs =
    map (fun i => (1000 * 2 ^ Z.of_nat i)%Z)
        (seq 0 (Z.to_nat (retryAttempts cfg) - 1)) /\
  length (waits evs) = fetches evs - 1 /\
  last evs request = request /\
  retryAttempts constructor_config = 3%Z.
Proof.
  intros Hinc Hpos Hfail request evs final.
  destruct (Z.to_nat (retryAttempts cfg)) as [|k] eqn:Hn; [lia |].
  assert (Hw : waits evs =
               map (fun i => (1000 * 2 ^ Z.of_nat i)%Z) (seq 0 (S k - 1))).
  { subst evs request. unfold requestOf. rewrite waits_retrySchedule.
    apply map_ext. intros i. unfold backoff. do 2 f_equal. lia. }
  assert (Hf : fetches evs = S k).
  { subst evs request. unfold requestOf. apply fetches_retrySchedule. }
  repeat split.
  - unfold callAPI. simpl. rewrite Hinc, Hn.
    apply (attempts_all_fail env cfg (endpointUrl cfg)
             (buildAzureOpenAIPayload env cfg imageUrl imageInfo prop custom)
             Hfail k 1%Z None trace).
    lia.
  - rewrite Hf. lia.
  - exact Hw.
  - rewrite Hw, Hf, length_map, length_seq. reflexivity.
  - apply last_retrySchedule.
Qed.

Lemma callAPI_retry_schedule_witness :
  fetches (snd (callAPI (offlineEnv NoItem) sampleConfig "openai" sampleImage
                  testImageInfo None None [])) = 3 /\
  waits (snd (callAPI (offlineEnv NoItem) sampleConfig "openai" sampleImage
                testImageInfo None None [])) = [1000; 2000]%Z /\
  obj_get "error"
    (resultOrNull (fst (callAPI (offlineEnv NoItem) sampleConfig "openai"
                          sampleImage testImageInfo None None []))) =
  JStr "Azure OpenAI API failed: Failed to fetch".
Proof.
  destruct (callAPI_retry_schedule (offlineEnv NoItem) sampleConfig sampleImage
              testImageInfo None None [])
    as (Hcall & Hf & Hw & _).
  - reflexivity.
  - simpl. lia.
  - intros h. exact I.
  - rewrite Hcall. cbn [snd fst app resultOrNull].
    split; [| split].
    + apply Nat2Z.inj. rewrite Hf. reflexivity.
    + rewrite Hw. reflexivity.
    + vm_compute. reflexivity.
Defined.

(** ** Failures of a call *)

Lemma parse_unreadable env now response :
  unreadable response = true ->
  exists message,
    parseAzureOpenAIResponse env now response = getErrorMetadata env now message.
Proof.
  unfold unreadable, parseAzureOpenAIResponse.
  destruct (extract_content response) as [content | m]; [| eauto].
  intros H. apply andb_true_iff in H. destruct H as [Ht Hs].
  rewrite Ht. simpl negb. cbv iota.
  destruct content; simpl in Hs; try discriminate; eauto.
Qed.

(** With a complete configuration and at least one attempt allowed the
    call returns a record, the one its last attempt settles. *)
Lemma callAPI_settles env cfg imageUrl imageInfo prop custom trace :
  incomplete cfg = false ->
  (1 <= retryAttempts cfg)%Z ->
  exists r trace',
    callAPI env cfg "openai" imageUrl imageInfo prop custom trace =
    (Returned r, trace') /\ settles env trace' r.
Proof.
  intros Hinc Hpos. unfold callAPI. simpl. rewrite Hinc.
  destruct (Z.to_nat (retryAttempts cfg)) as [|k] eqn:Hn; [lia |].
  apply attempts_settles. lia.
Qed.

Lemma parse_string_content env now response text :
  extract_content response = Returned (JStr text) ->
  text <> EmptyString ->
  parseAzureOpenAIResponse env now response = parseContent env now text.
Proof.
  intros Hc Ht. unfold parseAzureOpenAIResponse. rewrite Hc.
  destruct text; [contradiction | reflexivity].
Qed.

Lemma parse_fallback env now response content :
  extract_content response = Returned content ->
  fallbackContent content ->
  parseAzureOpenAIResponse env now response =
    fallbackRecord env now response content.
Proof.
  intros Hc [Hfalsy | (text & -> & Ht & Hparse)].
  - unfold parseAzureOpenAIResponse, fallbackRecord. rewrite Hc, Hfalsy.
    simpl negb. cbv iota.
    destruct content as [ | | b | n | [|c s] | items | fields | host ];
      try reflexivity.
    discriminate.
  - rewrite (parse_string_content env now response text Hc Ht).
    unfold parseContent, fallbackRecord. rewrite Hparse.
    destruct text; [contradiction | reflexivity].
Qed.

Lemma fallbackRecord_fields env now response content :
  exists message,
    fallbackRecord env now response content =
    JObj (populate message (getStoredCustomPrompts env) (openaiResult now)).
Proof.
  unfold fallbackRecord, plainTextRecord.
  destruct content as [ | | b | n | [|c s] | items | fields | host ]; eauto.
Qed.

(** C1 (amended). With a complete configuration and at least one attempt
    allowed, [callAPI] returns a record and throws nothing, whatever the
    transport does.  When its last attempt failed (the request was
    refused or timed out, the status was not ok, the body was no JSON, or
    the parser could not read the response) the record has its [error]
    set, its [provider] equal to [error] unless a stored prompt is itself
    named [provider], and under every property name of the stored
    prompts, [__proto__] apart, a text that starts with the error
    marker.  When its last attempt was answered with a content that is
    missing or is no JSON, the record is the parser's fallback record:
    its [provider] is [openai] and it has no [error], unless a stored
    prompt is itself named [provider] or [error]; an [error] so named
    holds a text. *)
Theorem callAPI_failure_is_error_record env cfg imageUrl imageInfo prop custom trace :
  incomplete cfg = false ->
  (1 <= retryAttempts cfg)%Z ->
  exists r trace',
    callAPI env cfg "openai" imageUrl imageInfo prop custom trace =
    (Returned r, trace') /\
    (attemptFailed env trace' -> errorShaped (activeProperties env) r) /\
    (forall response content,
        transport env trace' = FetchOk (Returned response) ->
        extract_content response = Returned content ->
        fallbackContent content ->
        r = fallbackRecord env (clock env trace') response content /\
        (~ In "provider" (activeProperties env) ->
         obj_get "provider" r = JStr "openai") /\
        (~ In "error" (activeProperties env) -> obj_get "error" r = JUndefined) /\
        (In "error" (activeProperties env) ->
         exists text, obj_get "error" r = JStr text)).
Proof.
  intros Hinc Hpos.
  destruct (callAPI_settles env cfg imageUrl imageInfo prop custom trace Hinc Hpos)
    as (r & trace' & Hcall & Hset).
  exists r, trace'. split; [exact Hcall |].
  unfold attemptFailed, settles in *.
  split.
  - destruct (transport env trace') as [m | st stt t | [response | m]];
      intros Hfailed; subst r; try apply getErrorMetadata_shaped.
    destruct (parse_unreadable env (clock env trace') response Hfailed) as [m Hm].
    rewrite Hm. apply getErrorMetadata_shaped.
  - intros response content Hout Hc Hfb. rewrite Hout in Hset. subst r.
    rewrite (parse_fallback _ _ _ _ Hc Hfb).
    split; [reflexivity |].
    destruct (fallbackRecord_fields env (clock env trace') response content)
      as [message ->].
    unfold activeProperties, obj_get.
    split; [| split].
    + intros Hn. rewrite populate_frame by (assumption || discriminate). reflexivity.
    + intros Hn. rewrite populate_frame by (assumption || discriminate). reflexivity.
    + intros Hin. exists message. apply populate_sets; [exact Hin | discriminate].
Qed.

Lemma callAPI_failure_is_error_record_witness :
  (exists r trace',
      callAPI (offlineEnv NoItem) sampleConfig "openai" sampleImage testImageInfo
        None None [] = (Returned r, trace') /\
      errorShaped ["description"] r) /\
  (exists r trace',
      callAPI (answeringEnv NoItem (responseWith (JStr "A red car"))) sampleConfig
        "openai" sampleImage testImageInfo None None [] = (Returned r, trace') /\
      obj_get "provider" r = JStr "openai" /\
      obj_get "error" r = JUndefined).
Proof.
  split.
  - destruct (callAPI_failure_is_error_record (offlineEnv NoItem) sampleConfig
                sampleImage testImageInfo None None [])
      as (r & trace' & Hcall & Hshape & _).
    + reflexivity.
    + simpl. lia.
    + exists r, trace'. split; [exact Hcall |].
      apply Hshape. exact I.
  - destruct (callAPI_failure_is_error_record
                (answeringEnv NoItem (responseWith (JStr "A red car"))) sampleConfig
                sampleImage testImageInfo None None [])
      as (r & trace' & Hcall & _ & Hfallback).
    + reflexivity.
    + simpl. lia.
    + exists r, trace'. split; [exact Hcall |].
      destruct (Hfallback (responseWith (JStr "A red car")) (JStr "A red car"))
        as (_ & Hprovider & Herror & _).
      * reflexivity.
      * reflexivity.
      * right. exists "A red car".
        split; [reflexivity | split; [discriminate | vm_compute; reflexivity]].
      * split.
        -- apply Hprovider. simpl. intros [H | []]. discriminate.
        -- apply Herror. simpl. intros [H | []]. discriminate.
Defined.

(** C1 as the specification states it fails, twice.  A stored prompt
    named [provider] takes the place of the [provider] field of the
    error record, which then holds the placeholder text and not [error].
    And a content that is no JSON, a parse failure in the
    specification's taxonomy, yields the plain-text record: no [error],
    and the provider [openai]. *)
Lemma callAPI_error_record_not_as_claimed :
  (exists r trace',
      callAPI (offlineEnv providerRule) sampleConfig "openai" sampleImage
        testImageInfo None None [] = (Returned r, trace') /\
      attemptFailed (offlineEnv providerRule) trace' /\
      In "provider" (activeProperties (offlineEnv providerRule)) /\
      obj_get "provider" r =
        JStr (errorMarker ++ "Azure OpenAI API failed: Failed to fetch") /\
      obj_get "provider" r <> JStr "error") /\
  (exists r trace',
      callAPI (answeringEnv NoItem (responseWith (JStr "A red car"))) sampleConfig
        "openai" sampleImage testImageInfo None None [] = (Returned r, trace') /\
      JSON_parse (trim (strip_fences "A red car")) = None /\
      obj_get "error" r = JUndefined /\
      obj_get "provider" r = JStr "openai").
Proof.
  split.
  - eexists. eexists. split; [vm_compute; reflexivity |].
    split; [exact I |].
    split; [left; reflexivity |].
    split; [vm_compute; reflexivity | vm_compute; discriminate].
  - eexists. eexists. split; [vm_compute; reflexivity |].
    repeat split.
Qed.

(** ** The parser *)

Lemma js_or_first2 a b :
  js_or (js_or a b) (JStr EmptyString) = firstTruthy [a; b].
Proof.
  unfold js_or, firstTruthy.
  destruct (truthy a) eqn:Ea; cbv iota; rewrite ?Ea; [reflexivity |].
  destruct (truthy b) eqn:Eb; cbv iota; rewrite ?Eb; reflexivity.
Qed.

Lemma js_or_first3 a b c :
  js_or (js_or (js_or a b) c) (JStr EmptyString) = firstTruthy [a; b; c].
Proof.
  unfold js_or, firstTruthy.
  destruct (truthy a) eqn:Ea; cbv iota; rewrite ?Ea; cbv iota; rewrite ?Ea;
    [reflexivity |].
  destruct (truthy b) eqn:Eb; cbv iota; rewrite ?Eb; cbv iota; rewrite ?Eb;
    [reflexivity |].
  destruct (truthy c) eqn:Ec; cbv iota; rewrite ?Ec; reflexivity.
Qed.

(** C3 (amended). When the content is a non-empty string that, with the
    code-fence markers deleted and trimmed, parses as JSON other than
    [null], the record's [title] is the sanitized first truthy value of
    the keys [Title], [title] in this order, its [description] that of
    [Description], [description], its [tags] that of [Keywords],
    [keywords], [tags]; the keys are matched in these spellings only, and
    a value that is no string, or no truthy value at all, gives the empty
    string.  The provider is [openai].  The fenced content of the
    scenario yields title A, description B, tags c,d. *)
Theorem parse_structured_content :
  (forall env now response text metadata,
      extract_content response = Returned (JStr text) ->
      text <> EmptyString ->
      JSON_parse (trim (strip_fences text)) = Some metadata ->
      nullish metadata = false ->
      let r := parseAzureOpenAIResponse env now response in
      obj_get "title" r =
        JStr (sanitizeString
                (firstTruthy [member metadata "Title"; member metadata "title"])) /\
      obj_get "description" r =
        JStr (sanitizeString
                (firstTruthy [member metadata "Description";
                              member metadata "description"])) /\
      obj_get "tags" r =
        JStr (sanitizeString
                (firstTruthy [member metadata "Keywords";
                              member metadata "keywords";
                              member metadata "tags"])) /\
      obj_get "provider" r = JStr "openai") /\
  (forall env now,
      parseAzureOpenAIResponse env now (responseWith (JStr fencedContent)) =
      JObj [ ("title", JStr "A"); ("description", JStr "B"); ("tags", JStr "c,d");
             ("confidence", JNull); ("processing_time", JNull);
             ("provider", JStr "openai"); ("generated_at", JStr now) ]).
Proof.
  split.
  - intros env now response text metadata Hc Ht Hparse Hnull r.
    subst r. rewrite (parse_string_content env now response text Hc Ht).
    unfold parseContent. rewrite Hparse, Hnull.
    unfold structuredRecord, obj_get. simpl lookup_field.
    rewrite js_or_first3, !js_or_first2. repeat split.
  - intros env now. vm_compute. reflexivity.
Qed.

Lemma parse_structured_content_witness :
  obj_get "title"
    (parseAzureOpenAIResponse (offlineEnv NoItem) "now"
       (responseWith (JStr mixedContent))) = JStr "A red car" /\
  obj_get "tags"
    (parseAzureOpenAIResponse (offlineEnv NoItem) "now"
       (responseWith (JStr mixedContent))) = JStr EmptyString.
Proof.
  destruct (proj1 parse_structured_content (offlineEnv NoItem) "now"
              (responseWith (JStr mixedContent)) mixedContent
              (JObj [ ("title", JStr "  A   red  car ");
                      ("Keywords", JArr [JStr "x"]);
                      ("tags", JStr "t") ]))
    as (Htitle & _ & Htags & _).
  - reflexivity.
  - discriminate.
  - vm_compute. reflexivity.
  - reflexivity.
  - split.
    + rewrite Htitle. vm_compute. reflexivity.
    + rewrite Htags. vm_compute. reflexivity.
Defined.

(** C3 as the specification states it fails: the keys are not matched
    without regard to case.  The content parses as JSON with the key
    [TITLE]; a case-insensitive match would give the title A, and the
    parser gives the empty title. *)
Lemma parse_structured_content_is_case_sensitive :
  JSON_parse (trim (strip_fences capitalsContent)) =
    Some (JObj [ ("TITLE", JStr "A") ]) /\
  JStr (sanitizeString (claimedField ["title"] [ ("TITLE", JStr "A") ])) = JStr "A" /\
  obj_get "title"
    (parseAzureOpenAIResponse (offlineEnv NoItem) "now"
       (responseWith (JStr capitalsContent))) = JStr EmptyString.
Proof. repeat split; vm_compute; reflexivity. Qed.

(** A number too small for a double is zero, hence falsy: the key
    spelled next is read. *)
Example parse_structured_content_underflow :
  JSON_parse (json_lit "{'Title':1e-400,'title':'x'}") =
    Some (JObj [ ("Title", JNum "1e-400"); ("title", JStr "x") ]) /\
  truthy (JNum "1e-400") = false /\
  truthy (JNum "5e-324") = true /\
  obj_get "title"
    (parseAzureOpenAIResponse (offlineEnv NoItem) "now"
       (responseWith (JStr (json_lit "{'Title':1e-400,'title':'x'}")))) = JStr "x".
Proof. repeat split; vm_compute; reflexivity. Qed.

(** C4. A stored prompt may be named [__proto__]: the editor saves it
    and the client enumerates it.  With this prompt stored and a content
    that is no JSON, the parser returns the record it started from: the
    assignment under [__proto__] stores nothing, and the content, [A red
    car], is held under no property of the record. *)
Theorem parse_plain_text_proto_rule :
  CustomPrompts.saveCustomPromptsAndClose true
    ([ {| property := "__proto__"; prompt := "Describe the prototype." |} ], NoItem) =
    ([ {| property := "__proto__"; prompt := "Describe the prototype." |} ],
     protoRule) /\
  activeProperties (offlineEnv protoRule) = ["__proto__"] /\
  extract_content (responseWith (JStr "A red car")) = Returned (JStr "A red car") /\
  JSON_parse (trim (strip_fences "A red car")) = None /\
  sanitizeString (JStr "A red car") = "A red car" /\
  parseAzureOpenAIResponse (offlineEnv protoRule) "now"
    (responseWith (JStr "A red car")) =
    JObj [ ("confidence", JNull);
           ("processing_time", JNull);
           ("provider", JStr "openai");
           ("generated_at", JStr "now") ].
Proof. repeat split; vm_compute; reflexivity. Qed.

(** ** The prompt *)

Lemma prefix_app s t : String.prefix s (s ++ t) = true.
Proof.
  induction s as [|c s IH]; simpl; [destruct t; reflexivity |].
  destruct (ascii_dec c c); [exact IH | congruence].
Qed.

Lemma includes_unfold sub s :
  includes sub s =
  String.prefix sub s ||
  match s with
  | EmptyString => false
  | String _ r => includes sub r
  end.
Proof. destruct s; reflexivity. Qed.

Lemma includes_app sub a b : includes sub (a ++ sub ++ b) = true.
Proof.
  induction a as [|c a IH].
  - change (EmptyString ++ sub ++ b) with (sub ++ b).
    rewrite includes_unfold, prefix_app. reflexivity.
  - simpl. rewrite IH. apply orb_true_r.
Qed.

Lemma genericPrompt_names prop : includes prop (genericPrompt prop) = true.
Proof. unfold genericPrompt. apply includes_app. Qed.

Lemma genericPrompt_not_empty prop : is_empty (genericPrompt prop) = false.
Proof. reflexivity. Qed.

(** A text the table holds is not empty. *)
Lemma defaultPrompts_text key text :
  lookup_field key defaultPrompts = JStr text -> is_empty text = false.
Proof.
  unfold defaultPrompts. cbn [lookup_field].
  destruct (String.eqb "title" key); [intros [= <-]; reflexivity |].
  destruct (String.eqb "description" key); [intros [= <-]; reflexivity |].
  destruct (String.eqb "keywords" key); [intros [= <-]; reflexivity | discriminate].
Qed.

(** The table holds texts only. *)
Lemma defaultPrompts_lookup key :
  lookup_field key defaultPrompts = JUndefined \/
  exists text, lookup_field key defaultPrompts = JStr text.
Proof.
  unfold defaultPrompts. cbn [lookup_field].
  destruct (String.eqb "title" key); [right; eauto |].
  destruct (String.eqb "description" key); [right; eauto |].
  destruct (String.eqb "keywords" key); [right; eauto | left; reflexivity].
Qed.

Lemma getDefaultPromptForProperty_builtin prop text :
  lookup_field (toLowerCase prop) defaultPrompts = JStr text ->
  getDefaultPromptForProperty prop = JStr text.
Proof.
  intros H. unfold getDefaultPromptForProperty, defaultPrompts_get, js_or.
  rewrite H. simpl. now rewrite (defaultPrompts_text _ _ H).
Qed.

Lemma getDefaultPromptForProperty_generic prop :
  lookup_field (toLowerCase prop) defaultPrompts = JUndefined ->
  inheritedMember (toLowerCase prop) = false ->
  getDefaultPromptForProperty prop = JStr (genericPrompt prop).
Proof.
  intros H Hi. unfold getDefaultPromptForProperty, defaultPrompts_get, js_or.
  now rewrite H, Hi.
Qed.

(** C5 (amended). The prompt is settled by the first of these that
    applies: an override that is not empty; for a requested property,
    the text of the first stored rule of exactly that name, empty or not;
    else the built-in default of the property's lower case; else a
    generic instruction that names the property; and with no property
    requested, the configured custom prompt if it is not empty, else the
    built-in prompt.  Nothing is thrown.  The prompt is a non-empty
    string whenever the rule that applies has a text that is not empty
    (and the lower case of the property names no member that objects
    inherit). *)
Theorem resolvePrompt_cascade env cfg prop custom :
  (str_truthy custom = true ->
   resolvePrompt env cfg prop custom = JStr (text_of custom)) /\
  (str_truthy custom = false -> str_truthy prop = true ->
   forall rule, storedPromptFor env (text_of prop) = Some rule ->
   resolvePrompt env cfg prop custom = JStr (prompt rule)) /\
  (str_truthy custom = false -> str_truthy prop = true ->
   storedPromptFor env (text_of prop) = None ->
   forall text, lookup_field (toLowerCase (text_of prop)) defaultPrompts = JStr text ->
   resolvePrompt env cfg prop custom = JStr text) /\
  (str_truthy custom = false -> str_truthy prop = true ->
   storedPromptFor env (text_of prop) = None ->
   lookup_field (toLowerCase (text_of prop)) defaultPrompts = JUndefined ->
   inheritedMember (toLowerCase (text_of prop)) = false ->
   resolvePrompt env cfg prop custom = JStr (genericPrompt (text_of prop)) /\
   includes (text_of prop) (genericPrompt (text_of prop)) = true) /\
  (str_truthy custom = false -> str_truthy prop = false ->
   resolvePrompt env cfg prop custom =
   JStr (if str_truthy (customPrompt cfg) then text_of (customPrompt cfg)
         else builtinPrompt)) /\
  ((forall rule, storedPromptFor env (text_of prop) = Some rule ->
                 is_empty (prompt rule) = false) ->
   inheritedMember (toLowerCase (text_of prop)) = false ->
   exists text, resolvePrompt env cfg prop custom = JStr text /\
                is_empty text = false).
Proof.
  unfold resolvePrompt.
  split; [intros ->; reflexivity |].
  split; [intros -> -> rule ->; reflexivity |].
  split; [intros -> -> -> text H; now apply getDefaultPromptForProperty_builtin |].
  split.
  { intros -> -> -> H Hi. split.
    - now apply getDefaultPromptForProperty_generic.
    - apply genericPrompt_names. }
  split.
  { intros -> ->. unfold str_or. now destruct (str_truthy (customPrompt cfg)). }
  intros Hrule Hi.
  destruct (str_truthy custom) eqn:Ec.
  { eexists. split; [reflexivity |].
    destruct custom as [[|c t]|]; simpl in *; congruence. }
  destruct (str_truthy prop) eqn:Ep.
  - destruct (storedPromptFor env (text_of prop)) as [rule|] eqn:Ef.
    + eexists. split; [reflexivity | now apply Hrule].
    + destruct (defaultPrompts_lookup (toLowerCase (text_of prop))) as [Hu | [text Ht]].
      * rewrite (getDefaultPromptForProperty_generic _ Hu Hi).
        eexists. split; [reflexivity | apply genericPrompt_not_empty].
      * rewrite (getDefaultPromptForProperty_builtin _ _ Ht).
        eexists. split; [reflexivity | exact (defaultPrompts_text _ _ Ht)].
  - unfold str_or. destruct (str_truthy (customPrompt cfg)) eqn:Eg.
    + eexists. split; [reflexivity |].
      destruct (customPrompt cfg) as [[|c t]|]; simpl in *; congruence.
    + eexists. split; reflexivity.
Qed.

Lemma resolvePrompt_cascade_witness :
  resolvePrompt (offlineEnv twoRules) sampleConfig (Some "title") (Some "Say hi.") =
    JStr "Say hi." /\
  resolvePrompt (offlineEnv twoRules) sampleConfig (Some "title") None =
    JStr "Give a title." /\
  resolvePrompt (offlineEnv twoRules) sampleConfig (Some "KeyWords") None =
    JStr defaultKeywordsPrompt /\
  resolvePrompt (offlineEnv twoRules) sampleConfig (Some "colour") None =
    JStr (genericPrompt "colour") /\
  resolvePrompt (offlineEnv twoRules) sampleConfig None None = JStr builtinPrompt.
Proof.
  split; [| split; [| split; [| split]]].
  - apply (proj1 (resolvePrompt_cascade (offlineEnv twoRules) sampleConfig
                    (Some "title") (Some "Say hi."))).
    reflexivity.
  - apply (proj1 (proj2 (resolvePrompt_cascade (offlineEnv twoRules) sampleConfig
                           (Some "title") None)) eq_refl eq_refl
             {| property := "title"; prompt := "Give a title." |}).
    reflexivity.
  - apply (proj1 (proj2 (proj2 (resolvePrompt_cascade (offlineEnv twoRules)
                                  sampleConfig (Some "KeyWords") None)))
             eq_refl eq_refl eq_refl).
    reflexivity.
  - apply (proj1 (proj2 (proj2 (proj2 (resolvePrompt_cascade (offlineEnv twoRules)
                                         sampleConfig (Some "colour") None))))
             eq_refl eq_refl eq_refl eq_refl eq_refl).
  - apply (proj1 (proj2 (proj2 (proj2 (proj2
             (resolvePrompt_cascade (offlineEnv twoRules) sampleConfig None None)))))
             eq_refl eq_refl).
Defined.

(** C5 as the specification states it fails: a stored rule whose text is
    empty is used all the same.  The specification's order gives the
    built-in title prompt here, which is not empty; the client settles on
    the empty string. *)
Lemma resolvePrompt_uses_empty_rule :
  claimedPrompt (offlineEnv emptyTitleRule) sampleConfig (Some "title") None =
    defaultTitlePrompt /\
  is_empty defaultTitlePrompt = false /\
  resolvePrompt (offlineEnv emptyTitleRule) sampleConfig (Some "title") None =
    JStr EmptyString.
Proof. repeat split. Qed.

(** ** Calls that stay off the network *)

(** C6 (amended). When the base URL (the OpenAI URL, else the Open API
    URL), the deployment or the API version is missing or empty, or the
    base URL holds [your-], a call returns the default record, whose
    provider is [default], and performs no event: no request and no
    wait, so nothing is retried.  A placeholder in the deployment or the
    API version is not looked for. *)
Theorem callAPI_incomplete_configuration env cfg imageUrl imageInfo prop custom trace :
  str_truthy (baseUrl cfg) = false \/
  str_truthy (deployment cfg) = false \/
  str_truthy (apiVersion cfg) = false \/
  includes "your-" (text_of (baseUrl cfg)) = true ->
  callAPI env cfg "openai" imageUrl imageInfo prop custom trace =
    (Returned (getDefaultMetadata (clock env trace)), trace) /\
  obj_get "provider" (getDefaultMetadata (clock env trace)) = JStr "default".
Proof.
  intros H. split; [| reflexivity].
  unfold callAPI. simpl.
  replace (incomplete cfg) with true; [reflexivity |].
  unfold incomplete.
  destruct H as [-> | [-> | [-> | ->]]]; simpl;
    rewrite ?orb_true_r; reflexivity.
Qed.

Lemma callAPI_incomplete_configuration_witness :
  callAPI (offlineEnv NoItem) constructor_config "openai" sampleImage testImageInfo
    None None [] =
  (Returned (getDefaultMetadata (sampleClock [])), []) /\
  obj_get "provider" (getDefaultMetadata (sampleClock [])) = JStr "default".
Proof.
  apply (callAPI_incomplete_configuration (offlineEnv NoItem) constructor_config
           sampleImage testImageInfo None None []).
  right. left. reflexivity.
Defined.

(** C6 as the specification states it fails: a placeholder in the
    deployment does not stop the call.  The configuration counts as
    incomplete in the specification's words, and the client sends its
    three requests and returns an error record. *)
Lemma callAPI_placeholder_deployment_is_sent :
  claimedIncomplete placeholderDeployment = true /\
  fetches (snd (callAPI (offlineEnv NoItem) placeholderDeployment "openai"
                  sampleImage testImageInfo None None [])) = 3 /\
  obj_get "provider"
    (resultOrNull (fst (callAPI (offlineEnv NoItem) placeholderDeployment "openai"
                          sampleImage testImageInfo None None []))) = JStr "error".
Proof. repeat split; vm_compute; reflexivity. Qed.

(** C10. A call for any provider other than [openai] performs no event
    and returns the default record, whose provider is [default]; so does
    every [generateLlamaMetadata], and so does the [llama] half of
    [generateBothMetadata], which adds no event to those of the other
    half. *)
Theorem callAPI_other_provider env cfg provider imageUrl imageInfo prop custom trace :
  provider <> "openai" ->
  callAPI env cfg provider imageUrl imageInfo prop custom trace =
    (Returned (getDefaultMetadata (clock env trace)), trace) /\
  generateLlamaMetadata env cfg imageUrl imageInfo trace =
    (Returned (getDefaultMetadata (clock env trace)), trace) /\
  obj_get "provider" (getDefaultMetadata (clock env trace)) = JStr "default" /\
  (exists both,
      fst (generateBothMetadata env cfg imageUrl imageInfo trace) = Returned both /\
      obj_get "provider" (obj_get "llama" both) = JStr "default") /\
  snd (generateBothMetadata env cfg imageUrl imageInfo trace) =
  snd (generateOpenAIMetadata env cfg imageUrl imageInfo None trace).
Proof.
  intros Hp. apply String.eqb_neq in Hp.
  split; [unfold callAPI; now rewrite Hp |].
  split; [reflexivity |].
  split; [reflexivity |].
  unfold generateBothMetadata.
  destruct (generateOpenAIMetadata env cfg imageUrl imageInfo None trace)
    as [settled trace1].
  split; [| reflexivity].
  eexists. split; reflexivity.
Qed.

Lemma callAPI_other_provider_witness :
  callAPI (offlineEnv NoItem) sampleConfig "llama" sampleImage testImageInfo
    None None [] =
  (Returned (getDefaultMetadata (sampleClock [])), []).
Proof.
  apply (callAPI_other_provider (offlineEnv NoItem) sampleConfig "llama" sampleImage
           testImageInfo None None []).
  discriminate.
Defined.

(** ** The combined operation *)

(** The first call goes on from where it was suspended: its events
    begin with those made up to its first [await]. *)
Lemma attempts_extends env cfg url payload k :
  forall attempt lastError trace,
    exists rest,
      snd (attempts env cfg url payload k attempt lastError trace) =
      (trace ++ rest)%list.
Proof.
  induction k as [|k IH]; intros attempt lastError trace.
  - exists []. rewrite app_nil_r. simpl. now destruct lastError.
  - rewrite attempts_step. cbn zeta.
    set (sent := (trace ++ [EvFetch url (authorizationHeader cfg) payload])%list).
    destruct (attemptResult env (clock env sent) (transport env sent))
      as [record | m].
    + eexists. reflexivity.
    + destruct (IH (attempt + 1)%Z (Some m)
                  (if (attempt <? retryAttempts cfg)%Z
                   then (sent ++ [EvWait (backoff attempt)])%list
                   else sent)) as [rest ->].
      unfold sent.
      destruct (attempt <? retryAttempts cfg)%Z;
        rewrite <- ?app_assoc; eexists; reflexivity.
Qed.

Lemma callAPI_resumes env cfg provider imageUrl imageInfo prop custom trace :
  exists rest,
    snd (callAPI env cfg provider imageUrl imageInfo prop custom trace) =
    (callAPI_suspended env cfg provider imageUrl imageInfo prop custom trace
       ++ rest)%list.
Proof.
  unfold callAPI, callAPI_suspended.
  destruct (negb (provider =? "openai")).
  - exists []. now rewrite app_nil_r.
  - destruct (incomplete cfg).
    + exists []. now rewrite app_nil_r.
    + destruct (Z.to_nat (retryAttempts cfg)) as [|k].
      * exists []. now rewrite app_nil_r.
      * rewrite attempts_step. cbn zeta.
        set (sent := (trace ++ [EvFetch (endpointUrl cfg) (authorizationHeader cfg)
                                  (buildAzureOpenAIPayload env cfg imageUrl imageInfo
                                     prop custom)])%list).
        destruct (attemptResult env (clock env sent) (transport env sent))
          as [record | m].
        -- exists []. now rewrite app_nil_r.
        -- destruct (attempts_extends env cfg (endpointUrl cfg)
                       (buildAzureOpenAIPayload env cfg imageUrl imageInfo prop custom)
                       k (1 + 1)%Z (Some m)
                       (if (1 <? retryAttempts cfg)%Z
                        then (sent ++ [EvWait (backoff 1)])%list
                        else sent)) as [rest ->].
           destruct (1 <? retryAttempts cfg)%Z;
             rewrite <- ?app_assoc; eexists; reflexivity.
Qed.

(** C7. [generateBothMetadata] returns both results whatever becomes of
    either call.  Of two settled calls of which one threw, the member of
    the one that threw is an error record and the member of the other is
    its value, unchanged.  In a run, the [openai] member is the value the
    first call returned, or an error record when that call threw.  The
    second call runs while the first is suspended at its first [await]:
    the [llama] member is the value that call returns there, the default
    record of that instant, which is the instant of the call when the
    first call makes no request and the instant after its first request
    otherwise, however many attempts the first call goes on to make.
    The events of the run are those of the first call.  When the
    transport fails every time, the [openai] member is an error record
    and the [llama] member still the default record. *)
Theorem generateBothMetadata_isolates_failures :
  (forall env now value message,
      settledBoth env now (Thrown message) (Returned value) =
        JObj [ ("openai", getErrorMetadata env now "OpenAI API failed");
               ("llama", value) ] /\
      settledBoth env now (Returned value) (Thrown message) =
        JObj [ ("openai", value);
               ("llama", getErrorMetadata env now "Llama API failed") ] /\
      errorShaped (activeProperties env)
        (getErrorMetadata env now "OpenAI API failed") /\
      errorShaped (activeProperties env)
        (getErrorMetadata env now "Llama API failed")) /\
  (forall env cfg imageUrl imageInfo trace,
      let suspended :=
        callAPI_suspended env cfg "openai" imageUrl imageInfo None None trace in
      exists both,
        fst (generateBothMetadata env cfg imageUrl imageInfo trace) = Returned both /\
        (forall value,
            fst (generateOpenAIMetadata env cfg imageUrl imageInfo None trace) =
              Returned value ->
            obj_get "openai" both = value) /\
        (forall message,
            fst (generateOpenAIMetadata env cfg imageUrl imageInfo None trace) =
              Thrown message ->
            errorShaped (activeProperties env) (obj_get "openai" both)) /\
        generateLlamaMetadata env cfg imageUrl imageInfo suspended =
          (Returned (obj_get "llama" both), suspended) /\
        obj_get "llama" both = getDefaultMetadata (clock env suspended) /\
        (incomplete cfg = true \/ (retryAttempts cfg <= 0)%Z -> suspended = trace) /\
        (incomplete cfg = false -> (1 <= retryAttempts cfg)%Z ->
         suspended =
           (trace ++
            [EvFetch (endpointUrl cfg) (authorizationHeader cfg)
               (buildAzureOpenAIPayload env cfg imageUrl imageInfo None None)])%list) /\
        (exists rest,
            snd (generateOpenAIMetadata env cfg imageUrl imageInfo None trace) =
              (suspended ++ rest)%list) /\
        snd (generateBothMetadata env cfg imageUrl imageInfo trace) =
          snd (generateOpenAIMetadata env cfg imageUrl imageInfo None trace)) /\
  (forall env cfg imageUrl imageInfo trace,
      incomplete cfg = false ->
      (1 <= retryAttempts cfg)%Z ->
      (forall h, fails (transport env h)) ->
      exists both,
        fst (generateBothMetadata env cfg imageUrl imageInfo trace) = Returned both /\
        errorShaped (activeProperties env) (obj_get "openai" both) /\
        obj_get "provider" (obj_get "llama" both) = JStr "default").
Proof.
  split; [| split].
  - intros env now value message.
    repeat split; try reflexivity; apply getErrorMetadata_shaped.
  - intros env cfg imageUrl imageInfo trace suspended.
    destruct (callAPI_resumes env cfg "openai" imageUrl imageInfo None None trace)
      as [rest Hrest].
    fold suspended in Hrest.
    unfold generateBothMetadata. fold suspended.
    unfold generateOpenAIMetadata in *.
    destruct (callAPI env cfg "openai" imageUrl imageInfo None None trace)
      as [settled trace1].
    eexists. split; [reflexivity |].
    cbn [fst snd] in *.
    split; [intros value ->; reflexivity |].
    split; [intros message ->; apply getErrorMetadata_shaped |].
    split; [reflexivity |].
    split; [reflexivity |].
    split; [| split; [| split; [exists rest; exact Hrest | reflexivity]]].
    + unfold suspended, callAPI_suspended. cbn [String.eqb Ascii.eqb Bool.eqb negb].
      intros [-> | Hnone]; [reflexivity |].
      destruct (incomplete cfg); [reflexivity |].
      replace (Z.to_nat (retryAttempts cfg)) with O by lia. reflexivity.
    + intros Hinc Hpos.
      unfold suspended, callAPI_suspended. cbn [String.eqb Ascii.eqb Bool.eqb negb].
      rewrite Hinc.
      destruct (Z.to_nat (retryAttempts cfg)) eqn:Hn; [lia | reflexivity].
  - intros env cfg imageUrl imageInfo trace Hinc Hpos Hfail.
    unfold generateBothMetadata, generateOpenAIMetadata.
    destruct (callAPI_settles env cfg imageUrl imageInfo None None trace Hinc Hpos)
      as (r & trace1 & Hcall & Hset).
    rewrite Hcall. eexists. split; [reflexivity |].
    split; [| reflexivity].
    change (errorShaped (activeProperties env) r).
    unfold settles in Hset. specialize (Hfail trace1).
    destruct (transport env trace1) as [m | st stt t | [response | m]];
      try contradiction; subst r; apply getErrorMetadata_shaped.
Qed.

Lemma generateBothMetadata_isolates_failures_witness :
  (fst (generateOpenAIMetadata (offlineEnv NoItem) noAttempts sampleImage
          testImageInfo None []) =
     Thrown (read_of_nullish "undefined" "message") /\
   exists both,
     fst (generateBothMetadata (offlineEnv NoItem) noAttempts sampleImage
            testImageInfo []) = Returned both /\
     errorShaped ["description"] (obj_get "openai" both) /\
     obj_get "llama" both = getDefaultMetadata (sampleClock [])) /\
  (fetches (snd (generateOpenAIMetadata (tickingEnv NoItem) sampleConfig sampleImage
                   testImageInfo None [])) = 3%nat /\
   exists both,
     fst (generateBothMetadata (tickingEnv NoItem) sampleConfig sampleImage
            testImageInfo []) = Returned both /\
     obj_get "generated_at" (obj_get "llama" both) = JStr "after 1 events" /\
     obj_get "generated_at" (obj_get "openai" both) = JStr "after 5 events") /\
  (exists both,
     fst (generateBothMetadata (offlineEnv NoItem) sampleConfig sampleImage
            testImageInfo []) = Returned both /\
     errorShaped ["description"] (obj_get "openai" both) /\
     obj_get "provider" (obj_get "llama" both) = JStr "default").
Proof.
  split; [| split].
  - split; [reflexivity |].
    destruct (proj1 (proj2 generateBothMetadata_isolates_failures)
                (offlineEnv NoItem) noAttempts sampleImage testImageInfo [])
      as (both & Hret & _ & Hthrown & _ & Hllama & _).
    exists both. split; [exact Hret |]. split.
    + apply (Hthrown (read_of_nullish "undefined" "message")). reflexivity.
    + exact Hllama.
  - split; [reflexivity |].
    destruct (proj1 (proj2 generateBothMetadata_isolates_failures)
                (tickingEnv NoItem) sampleConfig sampleImage testImageInfo [])
      as (both & Hret & Hvalue & _ & _ & Hllama & _ & Hfirst & _).
    exists both. split; [exact Hret |]. split.
    + rewrite Hllama, Hfirst; [reflexivity | reflexivity | simpl; lia].
    + rewrite (Hvalue _ eq_refl). reflexivity.
  - apply (proj2 (proj2 generateBothMetadata_isolates_failures)
             (offlineEnv NoItem) sampleConfig sampleImage testImageInfo []).
    + reflexivity.
    + simpl. lia.
    + intros h. exact I.
Defined.

(** C8 (amended). With an incomplete configuration [testConfiguration]
    performs no event and returns an object with the members [openai]
    and [llama], each the default record, whose provider is [default];
    the object itself has no provider.  When the combined call throws,
    the result is [null] and nothing is thrown. *)
Theorem testConfiguration_incomplete env cfg trace :
  incomplete cfg = true ->
  testConfiguration env cfg trace =
    (JObj [ ("openai", getDefaultMetadata (clock env trace));
            ("llama", getDefaultMetadata (clock env trace)) ],
     trace) /\
  obj_get "provider" (obj_get "openai" (fst (testConfiguration env cfg trace))) =
    JStr "default" /\
  obj_get "provider" (obj_get "llama" (fst (testConfiguration env cfg trace))) =
    JStr "default" /\
  (forall message, resultOrNull (Thrown message) = JNull).
Proof.
  intros Hinc.
  assert (H : testConfiguration env cfg trace =
              (JObj [ ("openai", getDefaultMetadata (clock env trace));
                      ("llama", getDefaultMetadata (clock env trace)) ],
               trace)).
  { unfold testConfiguration, generateBothMetadata, generateOpenAIMetadata,
      generateLlamaMetadata, callAPI, callAPI_suspended.
    simpl. rewrite Hinc. reflexivity. }
  rewrite H. repeat split.
Qed.

Lemma testConfiguration_incomplete_witness :
  testConfiguration (offlineEnv NoItem) noDeployment [] =
  (JObj [ ("openai", getDefaultMetadata (sampleClock []));
          ("llama", getDefaultMetadata (sampleClock [])) ],
   []).
Proof.
  apply (testConfiguration_incomplete (offlineEnv NoItem) noDeployment []).
  reflexivity.
Defined.

(** C8 as the specification states it fails: what [testConfiguration]
    returns without a deployment is no record with the provider
    [default]; it has no [provider] at all, and the default records are
    its two members. *)
Lemma testConfiguration_returns_a_pair :
  str_truthy (deployment noDeployment) = false /\
  obj_get "provider" (fst (testConfiguration (offlineEnv NoItem) noDeployment [])) =
    JUndefined /\
  obj_get "provider"
    (obj_get "openai" (fst (testConfiguration (offlineEnv NoItem) noDeployment []))) =
    JStr "default".
Proof. repeat split. Qed.

(** ** The request body *)

(** C9. The body holds one message, of the role [user], whose content is
    one text part with the resolved prompt and one [image_url] part with
    the image reference, and the constants 4096, 1 and 1 as [max_tokens],
    [temperature] and [top_p].  The body is a function of the stored
    prompts, the custom prompt and the model name of the configuration,
    the image reference, the property and the override: the clock, the
    transport, the image information and the rest of the configuration
    have no part in it. *)
Theorem buildAzureOpenAIPayload_shape :
  (forall env cfg imageUrl imageInfo prop custom,
      let body := buildAzureOpenAIPayload env cfg imageUrl imageInfo prop custom in
      obj_get "messages" body =
        JArr
          [ JObj
              [ ("role", JStr "user");
                ("content",
                 JArr
                   [ JObj [ ("type", JStr "text");
                            ("text", resolvePrompt env cfg prop custom) ];
                     JObj [ ("type", JStr "image_url");
                            ("image_url", JObj [ ("url", JStr imageUrl) ]) ] ]) ] ] /\
      obj_get "max_tokens" body = JNum "4096" /\
      obj_get "temperature" body = JNum "1" /\
      obj_get "top_p" body = JNum "1") /\
  (forall env env' cfg cfg' imageUrl imageInfo imageInfo' prop custom,
      storage env = storage env' ->
      customPrompt cfg = customPrompt cfg' ->
      modelName cfg = modelName cfg' ->
      buildAzureOpenAIPayload env cfg imageUrl imageInfo prop custom =
      buildAzureOpenAIPayload env' cfg' imageUrl imageInfo' prop custom).
Proof.
  split.
  - intros. repeat split.
  - intros env env' cfg cfg' imageUrl imageInfo imageInfo' prop custom Hs Hc Hm.
    unfold buildAzureOpenAIPayload, resolvePrompt, storedPromptFor,
      getStoredCustomPrompts.
    now rewrite Hs, Hc, Hm.
Qed.

Lemma buildAzureOpenAIPayload_shape_witness :
  buildAzureOpenAIPayload (offlineEnv twoRules) sampleConfig sampleImage
    testImageInfo (Some "mood") None =
  buildAzureOpenAIPayload (answeringEnv twoRules JNull) placeholderDeployment
    sampleImage testImageInfo (Some "mood") None /\
  obj_get "messages"
    (buildAzureOpenAIPayload (offlineEnv twoRules) sampleConfig sampleImage
       testImageInfo (Some "mood") None) =
  JArr
    [ JObj
        [ ("role", JStr "user");
          ("content",
           JArr
             [ JObj [ ("type", JStr "text"); ("text", JStr "Describe the mood.") ];
               JObj [ ("type", JStr "image_url");
                      ("image_url", JObj [ ("url", JStr sampleImage) ]) ] ]) ] ].
Proof.
  split.
  - apply (proj2 buildAzureOpenAIPayload_shape); reflexivity.
  - apply (proj1 buildAzureOpenAIPayload_shape (offlineEnv twoRules) sampleConfig
             sampleImage testImageInfo (Some "mood") None).
Defined.

(** * Further properties of the client *)

(** ** Every run of the retry loop *)

Section RetryRuns.

Variables (env : Env) (cfg : Config) (url : string) (payload : JSValue).

Let request : Event := EvFetch url (authorizationHeader cfg) payload.

(** Whatever the transport does, the loop stops after some number [j] of
    attempts, at least one and at most those allowed: its events are the
    schedule of [j] attempts, the attempts before the last have failed,
    the last one was answered unless it is the last allowed, and the
    record is the one it settles. *)
Lemma attempts_run :
  forall k attempt lastError trace,
    (Z.of_nat (S k) = retryAttempts cfg - attempt + 1)%Z ->
    exists j r,
      1 <= j <= S k /\
      attempts env cfg url payload (S k) attempt lastError trace =
      (Returned r, (trace ++ retrySchedule request j attempt)%list) /\
      settles env (trace ++ retrySchedule request j attempt)%list r /\
      (forall i, 1 <= i < j ->
                 fails (transport env (trace ++ retrySchedule request i attempt)%list)) /\
      (j < S k ->
       exists response,
         transport env (trace ++ retrySchedule request j attempt)%list =
         FetchOk (Returned response)).
Proof.
  induction k as [|k IH]; intros attempt lastError trace Hinv;
    rewrite attempts_step; cbn zeta; fold request;
    set (sent := (trace ++ [request])%list);
    destruct (attemptResult env (clock env sent) (transport env sent))
      as [record | m] eqn:Hres.
  - apply attemptResult_inl in Hres. destruct Hres as [response [Hout Hrec]].
    exists 1, record. simpl retrySchedule. fold sent.
    repeat split; try lia.
    unfold settles. now rewrite Hout.
  - replace (attempt <? retryAttempts cfg)%Z with false
      by (symmetry; apply Z.ltb_ge; lia).
    simpl attempts. eexists 1, _. simpl retrySchedule. fold sent.
    split; [lia |]. split; [reflexivity |].
    split; [| split; intros; lia].
    unfold settles, failureMessage. rewrite Hres.
    apply attemptResult_inr_fails in Hres.
    destruct (transport env sent) as [m' | st stt [t | m'] | [r' | m']];
      simpl in Hres; try contradiction; reflexivity.
  - apply attemptResult_inl in Hres. destruct Hres as [response [Hout Hrec]].
    exists 1, record. simpl retrySchedule. fold sent.
    split; [lia |]. split; [reflexivity |].
    split; [unfold settles; now rewrite Hout |].
    split; [intros; lia |].
    intros _. eauto.
  - replace (attempt <? retryAttempts cfg)%Z with true
      by (symmetry; apply Z.ltb_lt; lia).
    destruct (IH (attempt + 1)%Z (Some m) (sent ++ [EvWait (backoff attempt)])%list)
      as (j & r & Hj & Hrun & Hset & Hbefore & Hlast); [lia |].
    assert (Hshift : forall i, 1 <= i ->
              ((sent ++ [EvWait (backoff attempt)]) ++
               retrySchedule request i (attempt + 1))%list =
              (trace ++ retrySchedule request (S i) attempt)%list).
    { intros i Hi. destruct i as [|i]; [lia |].
      rewrite retrySchedule_step. subst sent. now rewrite <- !app_assoc. }
    exists (S j), r.
    rewrite <- (Hshift j) by lia.
    split; [lia |]. split; [exact Hrun |]. split; [exact Hset |].
    split.
    + intros i Hi. destruct i as [|[|i]]; [lia | |].
      * simpl retrySchedule. fold sent.
        now apply attemptResult_inr_fails in Hres.
      * rewrite <- (Hshift (S i)) by lia. apply Hbefore. lia.
    + intros Hlt. apply Hlast. lia.
Qed.

End RetryRuns.

(** X1. With a complete configuration, when the attempts before the
    [j]-th fail and the [j]-th, one of those allowed, is answered with
    JSON, [callAPI] stops there: its events are [j] requests with the
    [j-1] waits of 1000, 2000, ... ms between them, nothing follows the
    answered request, and the result is the parser's record of that
    response. *)
Theorem callAPI_stops_at_first_answer
    env cfg imageUrl imageInfo prop custom trace j response :
  incomplete cfg = false ->
  1 <= j ->
  (Z.of_nat j <= retryAttempts cfg)%Z ->
  (forall i, 1 <= i < j ->
     fails (transport env
              (trace ++ retrySchedule
                          (requestOf env cfg imageUrl imageInfo prop custom) i 1)%list)) ->
  transport env
    (trace ++ retrySchedule (requestOf env cfg imageUrl imageInfo prop custom) j 1)%list =
    FetchOk (Returned response) ->
  let evs := retrySchedule (requestOf env cfg imageUrl imageInfo prop custom) j 1 in
  callAPI env cfg "openai" imageUrl imageInfo prop custom trace =
    (Returned (parseAzureOpenAIResponse env (clock env (trace ++ evs)%list) response),
     (trace ++ evs)%list) /\
  fetches evs = j /\
  waits evs = map (fun i => (1000 * 2 ^ Z.of_nat i)%Z) (seq 0 (j - 1)).
Proof.
  intros Hinc Hj Hle Hbefore Hanswer evs.
  split; [| split].
  - unfold callAPI. simpl. rewrite Hinc.
    destruct (Z.to_nat (retryAttempts cfg)) as [|k] eqn:Hn; [lia |].
    destruct (attempts_run env cfg (endpointUrl cfg)
                (buildAzureOpenAIPayload env cfg imageUrl imageInfo prop custom)
                k 1%Z None trace)
      as (j' & r & Hj' & Hrun & Hset & Hfail' & Hlast'); [lia |].
    fold (requestOf env cfg imageUrl imageInfo prop custom) in *.
    assert (j' = j) as ->.
    { destruct (Nat.lt_trichotomy j' j) as [Hlt | [Heq | Hgt]]; [| exact Heq |].
      - destruct Hlast' as [response' Hr']; [lia |].
        specialize (Hbefore j' (conj (proj1 Hj') Hlt)).
        rewrite Hr' in Hbefore. contradiction.
      - specialize (Hfail' j (conj Hj Hgt)).
        rewrite Hanswer in Hfail'. contradiction. }
    rewrite Hrun. unfold settles in Hset. rewrite Hanswer in Hset.
    now subst r.
  - subst evs. unfold requestOf. apply fetches_retrySchedule.
  - subst evs. unfold requestOf. rewrite waits_retrySchedule.
    apply map_ext. intros i. unfold backoff. do 2 f_equal. lia.
Qed.

Lemma callAPI_stops_at_first_answer_witness :
  fetches (snd (callAPI (recoveringEnv NoItem (responseWith (JStr fencedContent)))
                  sampleConfig "openai" sampleImage testImageInfo None None [])) = 2 /\
  waits (snd (callAPI (recoveringEnv NoItem (responseWith (JStr fencedContent)))
                sampleConfig "openai" sampleImage testImageInfo None None [])) =
    [1000%Z] /\
  obj_get "title"
    (resultOrNull
       (fst (callAPI (recoveringEnv NoItem (responseWith (JStr fencedContent)))
               sampleConfig "openai" sampleImage testImageInfo None None []))) =
    JStr "A".
Proof.
  destruct (callAPI_stops_at_first_answer
              (recoveringEnv NoItem (responseWith (JStr fencedContent))) sampleConfig
              sampleImage testImageInfo None None [] 2
              (responseWith (JStr fencedContent)))
    as (Hcall & Hf & Hw).
  - reflexivity.
  - lia.
  - simpl. lia.
  - intros i Hi. destruct i as [|[|i]]; [lia | exact I | lia].
  - reflexivity.
  - rewrite Hcall. cbn [fst snd app resultOrNull].
    split; [exact Hf |]. split; [exact Hw |].
    vm_compute. reflexivity.
Defined.

(** X2. Whatever the provider, the configuration and the transport, the
    events of a call are the schedule of some number of attempts, at most
    [retryAttempts]: so many requests, all of them the same request, with
    the backoff waits between them, and nothing else. *)
Theorem callAPI_events env cfg provider imageUrl imageInfo prop custom trace :
  exists j,
    j <= Z.to_nat (retryAttempts cfg) /\
    snd (callAPI env cfg provider imageUrl imageInfo prop custom trace) =
    (trace ++ retrySchedule (requestOf env cfg imageUrl imageInfo prop custom) j 1)%list /\
    fetches (retrySchedule (requestOf env cfg imageUrl imageInfo prop custom) j 1) = j.
Proof.
  unfold callAPI.
  destruct (negb (String.eqb provider "openai")).
  { exists 0. simpl. rewrite app_nil_r. repeat split; lia. }
  destruct (incomplete cfg).
  { exists 0. simpl. rewrite app_nil_r. repeat split; lia. }
  cbn zeta.
  destruct (Z.to_nat (retryAttempts cfg)) as [|k] eqn:Hn.
  { exists 0. simpl. rewrite app_nil_r. repeat split; lia. }
  destruct (attempts_run env cfg (endpointUrl cfg)
              (buildAzureOpenAIPayload env cfg imageUrl imageInfo prop custom)
              k 1%Z None trace)
    as (j & r & Hj & Hrun & _); [lia |].
  exists j. rewrite Hrun.
  split; [lia |]. split; [reflexivity |].
  unfold requestOf. apply fetches_retrySchedule.
Qed.

(** X3. With a complete configuration that allows no attempt
    ([retryAttempts] zero or less) [callAPI] performs no event and throws
    the TypeError of reading the message of an error that never was.
    [generateBothMetadata] does not throw: its [openai] member is the
    error record of the message [OpenAI API failed] and its [llama]
    member the default record; so [testConfiguration] returns that
    object, not [null]. *)
Theorem callAPI_without_attempts env cfg imageUrl imageInfo prop custom trace :
  incomplete cfg = false ->
  (retryAttempts cfg <= 0)%Z ->
  callAPI env cfg "openai" imageUrl imageInfo prop custom trace =
    (Thrown (read_of_nullish "undefined" "message"), trace) /\
  generateBothMetadata env cfg imageUrl imageInfo trace =
    (Returned
       (JObj [ ("openai", getErrorMetadata env (clock env trace) "OpenAI API failed");
               ("llama", getDefaultMetadata (clock env trace)) ]),
     trace) /\
  testConfiguration env cfg trace =
    (JObj [ ("openai", getErrorMetadata env (clock env trace) "OpenAI API failed");
            ("llama", getDefaultMetadata (clock env trace)) ],
     trace).
Proof.
  intros Hinc Hn.
  assert (Hcall : forall p c,
             callAPI env cfg "openai" imageUrl imageInfo p c trace =
             (Thrown (read_of_nullish "undefined" "message"), trace)).
  { intros p c. unfold callAPI. simpl. rewrite Hinc.
    replace (Z.to_nat (retryAttempts cfg)) with 0 by lia. reflexivity. }
  assert (Hcall' :
            callAPI env cfg "openai" "data:image/jpeg;base64,test" testImageInfo
              None None trace =
            (Thrown (read_of_nullish "undefined" "message"), trace)).
  { unfold callAPI. simpl. rewrite Hinc.
    replace (Z.to_nat (retryAttempts cfg)) with 0 by lia. reflexivity. }
  assert (Hsuspended : forall url info,
             callAPI_suspended env cfg "openai" url info None None trace = trace).
  { intros url info. unfold callAPI_suspended. simpl. rewrite Hinc.
    replace (Z.to_nat (retryAttempts cfg)) with 0 by lia. reflexivity. }
  split; [apply Hcall |]. split.
  - unfold generateBothMetadata, generateOpenAIMetadata.
    rewrite Hcall, Hsuspended. reflexivity.
  - unfold testConfiguration, generateBothMetadata, generateOpenAIMetadata.
    rewrite Hcall', Hsuspended. reflexivity.
Qed.

Lemma callAPI_without_attempts_witness :
  callAPI (offlineEnv NoItem) noAttempts "openai" sampleImage testImageInfo
    None None [] =
  (Thrown (read_of_nullish "undefined" "message"), []).
Proof.
  apply (callAPI_without_attempts (offlineEnv NoItem) noAttempts sampleImage
           testImageInfo None None []).
  - reflexivity.
  - simpl. lia.
Defined.

(** ** What every record carries *)

Lemma parse_tags env now response :
  (exists s, obj_get "provider" (parseAzureOpenAIResponse env now response) = JStr s) /\
  (exists t,
      obj_get "generated_at" (parseAzureOpenAIResponse env now response) = JStr t).
Proof.
  assert (He : forall m,
             (exists s, obj_get "provider" (getErrorMetadata env now m) = JStr s) /\
             (exists t, obj_get "generated_at" (getErrorMetadata env now m) = JStr t)).
  { intros m. unfold getErrorMetadata, obj_get.
    split; apply populate_keeps_text; simpl; eauto. }
  assert (Hp : forall m,
             (exists s, lookup_field "provider"
                          (populate m (getStoredCustomPrompts env) (openaiResult now)) =
                        JStr s) /\
             (exists t, lookup_field "generated_at"
                          (populate m (getStoredCustomPrompts env) (openaiResult now)) =
                        JStr t)).
  { intros m. split; apply populate_keeps_text; simpl; eauto. }
  unfold parseAzureOpenAIResponse.
  destruct (extract_content response) as [content | m]; [| apply He].
  destruct (negb (truthy content)); [apply Hp |].
  destruct content; try apply He.
  unfold parseContent, plainTextRecord.
  destruct (JSON_parse (trim (strip_fences s))) as [metadata|]; [| apply Hp].
  destruct (nullish metadata); [apply Hp |].
  unfold structuredRecord, obj_get. simpl. eauto.
Qed.

(** X4. Every record a call returns, for whatever provider,
    configuration, stored prompts and answers of the transport, carries a
    [provider] and a [generated_at] that are strings. *)
Theorem callAPI_record_tags env cfg provider imageUrl imageInfo prop custom trace r :
  fst (callAPI env cfg provider imageUrl imageInfo prop custom trace) = Returned r ->
  (exists s, obj_get "provider" r = JStr s) /\
  (exists t, obj_get "generated_at" r = JStr t).
Proof.
  unfold callAPI.
  destruct (negb (String.eqb provider "openai")).
  { intros [= <-]. simpl. eauto. }
  destruct (incomplete cfg).
  { intros [= <-]. simpl. eauto. }
  cbn zeta.
  destruct (Z.to_nat (retryAttempts cfg)) as [|k] eqn:Hn; [discriminate |].
  destruct (attempts_run env cfg (endpointUrl cfg)
              (buildAzureOpenAIPayload env cfg imageUrl imageInfo prop custom)
              k 1%Z None trace)
    as (j & r' & _ & Hrun & Hset & _); [lia |].
  rewrite Hrun. intros [= <-].
  unfold settles in Hset.
  destruct (transport env _) as [m | st stt t | [response | m]]; subst r';
    try apply parse_tags;
    unfold getErrorMetadata, obj_get;
    split; apply populate_keeps_text; simpl; eauto.
Qed.

Lemma callAPI_record_tags_witness :
  (exists s,
      obj_get "provider"
        (getErrorMetadata (offlineEnv providerRule)
           (sampleClock []) "Azure OpenAI API failed: Failed to fetch") = JStr s) /\
  (exists t,
      obj_get "generated_at"
        (getErrorMetadata (offlineEnv providerRule)
           (sampleClock []) "Azure OpenAI API failed: Failed to fetch") = JStr t).
Proof.
  apply (callAPI_record_tags (offlineEnv providerRule) sampleConfig "openai"
           sampleImage testImageInfo None None []).
  vm_compute. reflexivity.
Defined.

(** X5. With a complete configuration, at least one attempt allowed, a
    transport that fails every time and no stored prompt named [error],
    when the last answer has a status that is not ok the [error] of the
    record is [Azure OpenAI API failed: HTTP], the status, a colon, the
    status text, a dash and the body of that answer, and when the last
    request was refused it is [Azure OpenAI API failed: ] and the message
    of the refusal; every stored property other than [__proto__] shows
    the same text behind the error marker. *)
Theorem callAPI_error_text env cfg imageUrl imageInfo prop custom trace :
  incomplete cfg = false ->
  (1 <= retryAttempts cfg)%Z ->
  (forall h, fails (transport env h)) ->
  ~ In "error" (activeProperties env) ->
  let final :=
    (trace ++ retrySchedule (requestOf env cfg imageUrl imageInfo prop custom)
                (Z.to_nat (retryAttempts cfg)) 1)%list in
  let r := resultOrNull (fst (callAPI env cfg "openai" imageUrl imageInfo prop custom
                                trace)) in
  obj_get "error" r = JStr ("Azure OpenAI API failed: " ++ failureMessage env final) /\
  (forall p, In p (activeProperties env) -> p <> "__proto__" ->
     obj_get p r =
     JStr (errorMarker ++ "Azure OpenAI API failed: " ++ failureMessage env final)) /\
  (forall status statusText body,
      transport env final = FetchNotOk status statusText (Returned body) ->
      failureMessage env final =
      "HTTP " ++ Z_to_string status ++ ": " ++ statusText ++ " - " ++ body) /\
  (forall message,
      transport env final = FetchRejected message ->
      failureMessage env final = message).
Proof.
  intros Hinc Hpos Hfail Herr final r.
  assert (Hr : r = getErrorMetadata env (clock env final)
                     ("Azure OpenAI API failed: " ++ failureMessage env final)).
  { subst r. unfold callAPI. simpl. rewrite Hinc.
    destruct (Z.to_nat (retryAttempts cfg)) as [|k] eqn:Hn; [lia |].
    rewrite (attempts_all_fail env cfg (endpointUrl cfg)
               (buildAzureOpenAIPayload env cfg imageUrl imageInfo prop custom)
               Hfail k 1%Z None trace) by lia.
    reflexivity. }
  rewrite Hr. unfold getErrorMetadata, obj_get.
  split; [| split; [| split]].
  - rewrite populate_frame by (assumption || discriminate). reflexivity.
  - intros p Hin Hp. now apply populate_sets.
  - intros status statusText body Ht. unfold failureMessage. now rewrite Ht.
  - intros message Ht. unfold failureMessage. now rewrite Ht.
Qed.

Lemma callAPI_error_text_witness :
  obj_get "error"
    (resultOrNull (fst (callAPI (unauthorizedEnv twoRules) sampleConfig "openai"
                          sampleImage testImageInfo None None []))) =
  JStr "Azure OpenAI API failed: HTTP 401: Unauthorized - Access denied due to invalid key.".
Proof.
  destruct (callAPI_error_text (unauthorizedEnv twoRules) sampleConfig sampleImage
              testImageInfo None None [])
    as (Herror & _ & Hhttp & _).
  - reflexivity.
  - simpl. lia.
  - intros h. exact I.
  - simpl. intros [H | [H | []]]; discriminate.
  - rewrite Herror.
    rewrite (Hhttp 401%Z "Unauthorized" "Access denied due to invalid key." eq_refl).
    reflexivity.
Defined.

(** ** The other branches of the parser *)

Lemma define_field_keys k v fields k' :
  In k' (map fst (define_field k v fields)) -> k' = k \/ In k' (map fst fields).
Proof.
  induction fields as [|[k0 v0] rest IH]; simpl.
  - intros [H | []]. now left.
  - destruct (String.eqb k0 k) eqn:E; simpl.
    + apply String.eqb_eq in E. subst k0. intros [H | H]; auto.
    + intros [H | H]; [auto |]. destruct (IH H); auto.
Qed.

Lemma populate_no_proto message prompts fields :
  ~ In "__proto__" (map fst fields) ->
  ~ In "__proto__" (map fst (populate message prompts fields)).
Proof.
  unfold populate. destruct (0 <? length prompts)%nat.
  - revert fields. induction prompts as [|q rest IH]; intros fields Hf; simpl.
    + exact Hf.
    + apply IH. unfold assign_field.
      destruct (String.eqb (property q) "__proto__") eqn:E; [exact Hf |].
      apply String.eqb_neq in E. intros Hin.
      apply define_field_keys in Hin. destruct Hin as [Hin | Hin]; [| tauto].
      apply E. now symmetry.
  - intros Hf Hin. apply define_field_keys in Hin.
    destruct Hin as [Hin | Hin]; [discriminate | tauto].
Qed.

Lemma openaiResult_no_proto now : ~ In "__proto__" (map fst (openaiResult now)).
Proof. simpl. intros [H | [H | [H | [H | []]]]]; discriminate. Qed.

(** X6. When the response is neither [null] nor [undefined] and its
    content is missing or falsy (no [choices], an empty [choices], no
    [message], an empty or [null] content), the parser returns the record
    in which every stored property other than [__proto__] (the
    description alone when no prompt is stored) holds [Raw Response: ]
    and the serialized response, a property named [provider] or [error]
    like any other; the record has no own property [__proto__]; when no
    stored prompt is named [error] the record has no [error], and when
    none is named [provider] its provider is [openai].  A response
    object without [choices] is such a response. *)
Theorem parse_missing_content env now response content :
  extract_content response = Returned content ->
  truthy content = false ->
  let r := parseAzureOpenAIResponse env now response in
  let message := "📝 Raw Response: " ++ stringify_pretty env response in
  (forall p, In p (activeProperties env) -> p <> "__proto__" ->
             obj_get p r = JStr message) /\
  ~ In "__proto__" (own_keys r) /\
  (activeProperties env = [] -> obj_get "description" r = JStr message) /\
  (~ In "error" (activeProperties env) -> obj_get "error" r = JUndefined) /\
  (~ In "provider" (activeProperties env) -> obj_get "provider" r = JStr "openai") /\
  (forall fields,
      lookup_field "choices" fields = JUndefined ->
      extract_content (JObj fields) = Returned JUndefined).
Proof.
  intros Hc Ht r message. subst r message.
  unfold parseAzureOpenAIResponse. rewrite Hc, Ht. simpl negb. cbv iota.
  unfold obj_get, own_keys.
  split; [| split; [| split; [| split; [| split]]]].
  - intros p Hin Hp. now apply populate_sets.
  - apply populate_no_proto, openaiResult_no_proto.
  - unfold activeProperties. intros Hnone.
    apply map_eq_nil in Hnone. rewrite Hnone. apply populate_empty.
  - intros Hn. rewrite populate_frame by (assumption || discriminate). reflexivity.
  - intros Hn. rewrite populate_frame by (assumption || discriminate). reflexivity.
  - intros fields Hf. unfold extract_content, member, obj_get. simpl.
    now rewrite Hf.
Qed.

Lemma parse_missing_content_witness :
  obj_get "mood"
    (parseAzureOpenAIResponse (offlineEnv twoRules) "now"
       (JObj [ ("choices", JArr []) ])) = JStr "📝 Raw Response: {}" /\
  obj_get "error"
    (parseAzureOpenAIResponse (offlineEnv twoRules) "now"
       (JObj [ ("choices", JArr []) ])) = JUndefined /\
  obj_get "provider"
    (parseAzureOpenAIResponse (offlineEnv providerRule) "now"
       (JObj [ ("choices", JArr []) ])) = JStr "📝 Raw Response: {}".
Proof.
  destruct (parse_missing_content (offlineEnv twoRules) "now"
              (JObj [ ("choices", JArr []) ]) JUndefined)
    as (Hall & _ & _ & Herror & _); [reflexivity | reflexivity |].
  destruct (parse_missing_content (offlineEnv providerRule) "now"
              (JObj [ ("choices", JArr []) ]) JUndefined)
    as (Hprovider & _); [reflexivity | reflexivity |].
  split; [| split].
  - apply Hall; [right; left; reflexivity | discriminate].
  - apply Herror. simpl. intros [H | [H | []]]; discriminate.
  - apply Hprovider; [left; reflexivity | discriminate].
Defined.

(** X23. When the content is a non-empty string that, with the code-fence
    markers deleted and trimmed, does not parse as JSON, the parser
    returns a record (it throws nothing) in which every property name of
    the stored prompts, [__proto__] apart, holds the sanitized content;
    with no stored prompt the description holds it. *)
Theorem parse_plain_text_content env now response text :
  extract_content response = Returned (JStr text) ->
  text <> EmptyString ->
  JSON_parse (trim (strip_fences text)) = None ->
  let r := parseAzureOpenAIResponse env now response in
  (exists fields, r = JObj fields) /\
  (forall p, In p (activeProperties env) -> p <> "__proto__" ->
             obj_get p r = JStr (sanitizeString (JStr text))) /\
  (activeProperties env = [] ->
   obj_get "description" r = JStr (sanitizeString (JStr text))).
Proof.
  intros Hc Ht Hparse r. subst r.
  rewrite (parse_string_content env now response text Hc Ht).
  unfold parseContent. rewrite Hparse. unfold plainTextRecord, obj_get.
  split; [eauto | split].
  - intros p Hin Hp. now apply populate_sets.
  - unfold activeProperties. intros Hnone.
    apply map_eq_nil in Hnone. rewrite Hnone. apply populate_empty.
Qed.

Lemma parse_plain_text_content_witness :
  obj_get "title"
    (parseAzureOpenAIResponse (offlineEnv twoRules) "now"
       (responseWith (JStr "A  red   car, parked. "))) = JStr "A red car, parked." /\
  obj_get "mood"
    (parseAzureOpenAIResponse (offlineEnv twoRules) "now"
       (responseWith (JStr "A  red   car, parked. "))) = JStr "A red car, parked.".
Proof.
  destruct (parse_plain_text_content (offlineEnv twoRules) "now"
              (responseWith (JStr "A  red   car, parked. "))
              "A  red   car, parked. ")
    as (_ & Hall & _).
  - reflexivity.
  - discriminate.
  - vm_compute. reflexivity.
  - split.
    + rewrite Hall; [vm_compute; reflexivity | vm_compute; tauto | discriminate].
    + rewrite Hall; [vm_compute; reflexivity | vm_compute; tauto | discriminate].
Defined.

(** X7. A content that is valid JSON for [null], alone or in a code
    fence, is treated as plain text: the parser returns the record in
    which every stored property other than [__proto__] (the description
    alone when no prompt is stored) holds the sanitized content. *)
Theorem parse_null_content env now response text :
  extract_content response = Returned (JStr text) ->
  JSON_parse (trim (strip_fences text)) = Some JNull ->
  let r := parseAzureOpenAIResponse env now response in
  (forall p, In p (activeProperties env) -> p <> "__proto__" ->
             obj_get p r = JStr (sanitizeString (JStr text))) /\
  (activeProperties env = [] ->
   obj_get "description" r = JStr (sanitizeString (JStr text))).
Proof.
  intros Hc Hparse r. subst r.
  assert (Ht : text <> EmptyString).
  { intros ->. vm_compute in Hparse. discriminate. }
  rewrite (parse_string_content env now response text Hc Ht).
  unfold parseContent. rewrite Hparse. simpl nullish. cbv iota.
  unfold plainTextRecord, obj_get. split.
  - intros p Hin Hp. now apply populate_sets.
  - unfold activeProperties. intros Hnone.
    apply map_eq_nil in Hnone. rewrite Hnone. apply populate_empty.
Qed.

Lemma parse_null_content_witness :
  obj_get "title"
    (parseAzureOpenAIResponse (offlineEnv twoRules) "now"
       (responseWith (JStr ("```json" ++ nl ++ " null " ++ nl ++ "```")))) =
  JStr "```json null ```".
Proof.
  destruct (parse_null_content (offlineEnv twoRules) "now"
              (responseWith (JStr ("```json" ++ nl ++ " null " ++ nl ++ "```")))
              ("```json" ++ nl ++ " null " ++ nl ++ "```"))
    as (Hall & _).
  - reflexivity.
  - vm_compute. reflexivity.
  - rewrite Hall; [vm_compute; reflexivity | left; reflexivity | discriminate].
Defined.

(** ** Code fences *)

Lemma prefix_app_true a b s :
  String.prefix (a ++ b) s = true -> String.prefix a s = true.
Proof.
  revert s. induction a as [|c a IH]; intros s.
  - intros _. destruct s; reflexivity.
  - destruct s as [|c' s]; cbn [String.prefix String.append]; [discriminate |].
    destruct (ascii_dec c c'); [apply IH | discriminate].
Qed.

(** A text that does not start with three backticks does not start with
    them either when a line feed and a closing fence follow it. *)
Lemma no_fence_start_closing j :
  String.prefix "```" j = false ->
  String.prefix "```" (j ++ nl ++ "```") = false.
Proof.
  unfold nl.
  destruct j as [|c1 [|c2 [|c3 j]]]; cbn [String.prefix String.append]; intros H;
    repeat match goal with
           | |- context [ascii_dec ?a ?b] => destruct (ascii_dec a b)
           | H : context [ascii_dec ?a ?b] |- _ => destruct (ascii_dec a b)
           end; try reflexivity; try discriminate; try congruence.
  destruct j; discriminate.
Qed.

Lemma fence_len_zero s :
  String.prefix "```" s = false ->
  (forall r, s = nl ++ r -> String.prefix "```" r = false) ->
  fence_len s = 0.
Proof.
  intros H3 Hnl. unfold fence_len.
  destruct (String.prefix ("```json" ++ nl) s) eqn:E1.
  { apply (prefix_app_true "```" ("json" ++ nl)) in E1. congruence. }
  destruct (String.prefix "```json" s) eqn:E2.
  { apply (prefix_app_true "```" "json") in E2. congruence. }
  destruct (String.prefix (nl ++ "```") s) eqn:E4.
  { destruct s as [|c r]; [discriminate |].
    unfold nl in E4. cbn [String.prefix String.append] in E4.
    destruct (ascii_dec (ascii_of_N 10) c) as [<- |]; [| discriminate].
    rewrite (Hnl r eq_refl) in E4. discriminate. }
  now rewrite H3.
Qed.

(** A text without three backticks in a row, followed by a line feed
    and a closing fence, is left as it is and the fence is deleted. *)
Lemma strip_fences_closing j :
  includes "```" j = false ->
  strip_fences_from 0 (j ++ nl ++ "```") = j.
Proof.
  induction j as [|c j IH]; intros Hj; [reflexivity |].
  rewrite includes_unfold in Hj. apply orb_false_iff in Hj. destruct Hj as [Hp Hi].
  assert (Hj' : String.prefix "```" j = false).
  { rewrite includes_unfold in Hi. apply orb_false_iff in Hi. tauto. }
  change ((String c j) ++ nl ++ "```") with (String c (j ++ nl ++ "```")).
  cbn [strip_fences_from].
  rewrite fence_len_zero.
  - now rewrite IH.
  - exact (no_fence_start_closing (String c j) Hp).
  - intros r [= _ <-]. now apply no_fence_start_closing.
Qed.

(** Such a text on its own is left as it is. *)
Lemma strip_fences_none j :
  includes "```" j = false -> strip_fences_from 0 j = j.
Proof.
  induction j as [|c j IH]; intros Hj; [reflexivity |].
  rewrite includes_unfold in Hj. apply orb_false_iff in Hj. destruct Hj as [Hp Hi].
  assert (Hj' : String.prefix "```" j = false).
  { rewrite includes_unfold in Hi. apply orb_false_iff in Hi. tauto. }
  cbn [strip_fences_from].
  rewrite fence_len_zero.
  - now rewrite IH.
  - exact Hp.
  - intros r [= _ <-]. exact Hj'.
Qed.

Lemma prefix_nil s : String.prefix EmptyString s = true.
Proof. destruct s; reflexivity. Qed.

Lemma strip_fences_from_drop k : forall r,
  strip_fences_from k r = strip_fences_from 0 (drop k r).
Proof.
  induction k as [|k IH]; intros r; destruct r as [|c r]; try reflexivity.
  cbn [strip_fences_from drop]. apply IH.
Qed.

Lemma strip_fences_match s k :
  fence_len s = S k -> strip_fences_from 0 s = strip_fences_from 0 (drop (S k) s).
Proof.
  intros H. destruct s as [|c r]; [discriminate |].
  cbn [strip_fences_from]. rewrite H. cbn [drop]. apply strip_fences_from_drop.
Qed.

Lemma strip_fences_json_fence j :
  includes "```" j = false ->
  strip_fences ("```json" ++ nl ++ j ++ nl ++ "```") = j.
Proof.
  intros Hj. unfold strip_fences.
  rewrite (strip_fences_match _ 7).
  - now apply strip_fences_closing.
  - unfold fence_len.
    change ("```json" ++ nl ++ j ++ nl ++ "```")
      with (("```json" ++ nl) ++ j ++ nl ++ "```").
    now rewrite prefix_app.
Qed.

Lemma strip_fences_plain_fence j :
  includes "```" j = false ->
  strip_fences ("```" ++ nl ++ j ++ nl ++ "```") = nl ++ j.
Proof.
  intros Hj. unfold strip_fences.
  assert (Hp : String.prefix "```" j = false).
  { rewrite includes_unfold in Hj. apply orb_false_iff in Hj. tauto. }
  rewrite (strip_fences_match _ 2).
  - change (drop 3 ("```" ++ nl ++ j ++ nl ++ "```"))
      with (String (ascii_of_N 10) (j ++ nl ++ "```")).
    cbn [strip_fences_from].
    rewrite fence_len_zero.
    + now rewrite strip_fences_closing.
    + reflexivity.
    + intros r [= <-]. now apply no_fence_start_closing.
  - unfold fence_len, nl. cbn [String.append String.prefix].
    rewrite prefix_nil. reflexivity.
Qed.

(** X8. Code fences are transparent.  For a text without three
    backticks in a row that, trimmed, parses as JSON other than [null],
    the parser returns the same record for the text alone, for the text
    between a [```json] line and a closing fence line, and for the text
    between two plain fence lines: the structured record of the parsed
    value. *)
Theorem parse_fenced_content env now j metadata :
  includes "```" j = false ->
  JSON_parse (trim j) = Some metadata ->
  nullish metadata = false ->
  parseAzureOpenAIResponse env now (responseWith (JStr j)) =
    structuredRecord now metadata /\
  parseAzureOpenAIResponse env now
    (responseWith (JStr ("```json" ++ nl ++ j ++ nl ++ "```"))) =
    structuredRecord now metadata /\
  parseAzureOpenAIResponse env now
    (responseWith (JStr ("```" ++ nl ++ j ++ nl ++ "```"))) =
    structuredRecord now metadata.
Proof.
  intros Hj Hparse Hnull.
  assert (Hbare : parseContent env now j = structuredRecord now metadata).
  { unfold parseContent, strip_fences.
    now rewrite strip_fences_none, Hparse, Hnull. }
  assert (Hjson : parseContent env now ("```json" ++ nl ++ j ++ nl ++ "```") =
                  structuredRecord now metadata).
  { unfold parseContent.
    now rewrite strip_fences_json_fence, Hparse, Hnull. }
  assert (Hplain : parseContent env now ("```" ++ nl ++ j ++ nl ++ "```") =
                   structuredRecord now metadata).
  { unfold parseContent. rewrite strip_fences_plain_fence by exact Hj.
    change (trim (nl ++ j)) with (trim j).
    now rewrite Hparse, Hnull. }
  assert (Hne : j <> EmptyString).
  { intros ->. vm_compute in Hparse. discriminate. }
  split; [| split].
  - rewrite (parse_string_content env now (responseWith (JStr j)) j eq_refl Hne).
    exact Hbare.
  - rewrite (parse_string_content env now
               (responseWith (JStr ("```json" ++ nl ++ j ++ nl ++ "```")))
               ("```json" ++ nl ++ j ++ nl ++ "```") eq_refl);
      [exact Hjson | discriminate].
  - rewrite (parse_string_content env now
               (responseWith (JStr ("```" ++ nl ++ j ++ nl ++ "```")))
               ("```" ++ nl ++ j ++ nl ++ "```") eq_refl);
      [exact Hplain | discriminate].
Qed.

Lemma parse_fenced_content_witness :
  parseAzureOpenAIResponse (offlineEnv NoItem) "now"
    (responseWith (JStr ("```" ++ nl ++ mixedContent ++ nl ++ "```"))) =
  parseAzureOpenAIResponse (offlineEnv NoItem) "now"
    (responseWith (JStr mixedContent)).
Proof.
  destruct (parse_fenced_content (offlineEnv NoItem) "now" mixedContent
              (JObj [ ("title", JStr "  A   red  car ");
                      ("Keywords", JArr [JStr "x"]);
                      ("tags", JStr "t") ]))
    as (Hbare & _ & Hplain).
  - vm_compute. reflexivity.
  - vm_compute. reflexivity.
  - reflexivity.
  - rewrite Hbare, Hplain. reflexivity.
Defined.

(** ** The parser kept for other providers *)





(** ** Configuring the client *)

Lemma placeholder_endpoint_incomplete cfg u :
  openaiUrl cfg = Some u -> includes "your-" u = true -> incomplete cfg = true.
Proof.
  intros H Hu. unfold incomplete, baseUrl, str_or. rewrite H.
  destruct u as [|c u]; [discriminate |].
  cbn [str_truthy is_empty negb text_of]. rewrite Hu. apply orb_true_r.
Qed.

(** X10. The endpoint the constructor sets and the one of
    [DEFAULT_CONFIG] both hold a placeholder.  So after the constructor,
    and after [setConfig(DEFAULT_CONFIG)] on any configuration, every
    call returns the default record and sends nothing, and this stays so
    under every further [setConfig] that has no [openaiUrl]: whatever
    else it sets, [openApiUrl] included. *)
Theorem setConfig_placeholder_endpoint
    env cfg later provider imageUrl imageInfo prop custom trace :
  Patch.openaiUrl later = None ->
  callAPI env (setConfig later (setConfig DEFAULT_CONFIG cfg)) provider
    imageUrl imageInfo prop custom trace =
    (Returned (getDefaultMetadata (clock env trace)), trace) /\
  callAPI env (setConfig later constructor_config) provider
    imageUrl imageInfo prop custom trace =
    (Returned (getDefaultMetadata (clock env trace)), trace).
Proof.
  intros Hl. unfold callAPI.
  destruct (negb (String.eqb provider "openai")); [split; reflexivity |].
  rewrite (placeholder_endpoint_incomplete
             (setConfig later (setConfig DEFAULT_CONFIG cfg))
             "https://your-resource.openai.azure.com"),
          (placeholder_endpoint_incomplete
             (setConfig later constructor_config)
             "https://your-openai-api-endpoint.com/analyze").
  - split; reflexivity.
  - unfold setConfig. cbn [openaiUrl]. now rewrite Hl.
  - reflexivity.
  - unfold setConfig. cbn [openaiUrl]. now rewrite Hl.
  - reflexivity.
Qed.

Lemma setConfig_placeholder_endpoint_witness :
  callAPI (answeringEnv NoItem (responseWith (JStr fencedContent)))
    (setConfig otherSettings (setConfig DEFAULT_CONFIG sampleConfig)) "openai"
    sampleImage testImageInfo None None [] =
  (Returned (getDefaultMetadata (sampleClock [])), []).
Proof.
  apply (setConfig_placeholder_endpoint
           (answeringEnv NoItem (responseWith (JStr fencedContent)))
           sampleConfig otherSettings "openai" sampleImage testImageInfo None None []).
  reflexivity.
Defined.

(** X11. After a [setConfig] that gives an endpoint, a deployment and an
    API version, none of them empty and the endpoint free of [your-], a
    call on a client that allows an attempt goes to the network whatever
    the configuration was before: it sends at least one request, each to
    the address made of these three and with the body of the new
    configuration. *)
Theorem setConfig_endpoint
    env cfg config u d v imageUrl imageInfo prop custom trace :
  Patch.openaiUrl config = Some (Some u) ->
  Patch.deployment config = Some (Some d) ->
  Patch.apiVersion config = Some (Some v) ->
  is_empty u = false -> is_empty d = false -> is_empty v = false ->
  includes "your-" u = false ->
  (1 <= retryAttempts (setConfig config cfg))%Z ->
  exists j,
    1 <= j /\
    snd (callAPI env (setConfig config cfg) "openai" imageUrl imageInfo prop custom
           trace) =
    (trace ++
     retrySchedule
       (EvFetch (u ++ "/openai/deployments/" ++ d ++ "/chat/completions?api-version=" ++ v)
          (authorizationHeader (setConfig config cfg))
          (buildAzureOpenAIPayload env (setConfig config cfg) imageUrl imageInfo
             prop custom))
       j 1)%list.
Proof.
  intros Hu Hd Hv Eu Ed Ev Hy Hn.
  assert (Hbase : baseUrl (setConfig config cfg) = Some u).
  { unfold baseUrl, str_or, setConfig. cbn [openaiUrl]. rewrite Hu.
    cbn [spread str_truthy]. now rewrite Eu. }
  assert (Hdep : deployment (setConfig config cfg) = Some d).
  { unfold setConfig. cbn [deployment]. now rewrite Hd. }
  assert (Hver : apiVersion (setConfig config cfg) = Some v).
  { unfold setConfig. cbn [apiVersion]. now rewrite Hv. }
  assert (Hinc : incomplete (setConfig config cfg) = false).
  { unfold incomplete. rewrite Hbase, Hdep, Hver.
    cbn [str_truthy text_of]. now rewrite Eu, Ed, Ev, Hy. }
  assert (Hurl : endpointUrl (setConfig config cfg) =
                 u ++ "/openai/deployments/" ++ d ++
                 "/chat/completions?api-version=" ++ v).
  { unfold endpointUrl. now rewrite Hbase, Hdep, Hver. }
  unfold callAPI. cbn [String.eqb Ascii.eqb Bool.eqb negb]. rewrite Hinc. cbv zeta.
  destruct (Z.to_nat (retryAttempts (setConfig config cfg))) as [|k] eqn:Hk; [lia |].
  destruct (attempts_run env (setConfig config cfg) (endpointUrl (setConfig config cfg))
              (buildAzureOpenAIPayload env (setConfig config cfg) imageUrl imageInfo
                 prop custom)
              k 1%Z None trace)
    as (j & r & Hj & Hrun & _); [lia |].
  exists j. split; [lia |]. rewrite Hrun. cbn [snd]. now rewrite Hurl.
Qed.

Lemma setConfig_endpoint_witness :
  exists j,
    1 <= j /\
    snd (callAPI (offlineEnv NoItem) (setConfig endpointSettings constructor_config)
           "openai" sampleImage testImageInfo None None []) =
    ([] ++
     retrySchedule
       (EvFetch
          ("https://contoso.openai.azure.com" ++ "/openai/deployments/" ++ "gpt-4o" ++
           "/chat/completions?api-version=" ++ "2024-02-01")
          (authorizationHeader (setConfig endpointSettings constructor_config))
          (buildAzureOpenAIPayload (offlineEnv NoItem)
             (setConfig endpointSettings constructor_config) sampleImage testImageInfo
             None None))
       j 1)%list.
Proof.
  apply (setConfig_endpoint (offlineEnv NoItem) constructor_config endpointSettings
           "https://contoso.openai.azure.com" "gpt-4o" "2024-02-01"
           sampleImage testImageInfo None None []);
    try reflexivity.
  simpl. lia.
Defined.

(** X12. [DEFAULT_CONFIG] spells out what the client falls back to: its
    custom prompt is the built-in prompt and its model the built-in
    model, so after [setConfig(DEFAULT_CONFIG)] on any configuration the
    body of a request is the one the constructor's configuration
    gives. *)
Theorem DEFAULT_CONFIG_request_body env cfg imageUrl imageInfo prop custom :
  buildAzureOpenAIPayload env (setConfig DEFAULT_CONFIG cfg) imageUrl imageInfo
    prop custom =
  buildAzureOpenAIPayload env constructor_config imageUrl imageInfo prop custom.
Proof.
  assert (Hprompt : defaultConfigPrompt = builtinPrompt) by (vm_compute; reflexivity).
  unfold buildAzureOpenAIPayload, resolvePrompt.
  cbn [setConfig DEFAULT_CONFIG constructor_config customPrompt modelName
       Patch.customPrompt Patch.modelName spread].
  replace (str_or (Some defaultConfigPrompt) (Some builtinPrompt))
    with (Some builtinPrompt).
  - reflexivity.
  - rewrite Hprompt. reflexivity.
Qed.

(** ** The prompt editor and the client *)

Lemma trim_not_empty s : is_empty (trim s) = false -> is_empty s = false.
Proof. destruct s; [intros H; exact H | reflexivity]. Qed.

Lemma validPrompt_texts p :
  CustomPrompts.validPrompt p = true ->
  is_empty (trim (property p)) = false /\ is_empty (trim (prompt p)) = false.
Proof.
  unfold CustomPrompts.validPrompt. intros H.
  apply andb_true_iff in H. destruct H as [H1 H2].
  apply negb_true_iff in H1, H2. now split.
Qed.

(** X13. What [saveCustomPromptsAndClose] writes is what the client
    reads: the prompts of the editor whose property and text are not
    blank, in their order.  For every property the client then
    enumerates, the prompt it sends is a stored text that is not empty.
    Saving twice is saving once. *)
Theorem saveCustomPromptsAndClose_client env cfg state :
  storage env = snd (CustomPrompts.saveCustomPromptsAndClose true state) ->
  getStoredCustomPrompts env = filter CustomPrompts.validPrompt (fst state) /\
  (forall p, In p (getStoredCustomPrompts env) <->
             In p (fst state) /\ is_empty (trim (property p)) = false /\
             is_empty (trim (prompt p)) = false) /\
  (forall name, In name (activeProperties env) ->
     exists rule,
       In rule (fst state) /\ property rule = name /\
       resolvePrompt env cfg (Some name) None = JStr (prompt rule) /\
       is_empty (prompt rule) = false) /\
  CustomPrompts.saveCustomPromptsAndClose true
    (CustomPrompts.saveCustomPromptsAndClose true state) =
  CustomPrompts.saveCustomPromptsAndClose true state.
Proof.
  intros Hs.
  assert (Hread : getStoredCustomPrompts env =
                  filter CustomPrompts.validPrompt (fst state)).
  { unfold getStoredCustomPrompts. rewrite Hs. reflexivity. }
  split; [exact Hread |]. split; [| split].
  - intros p. rewrite Hread, filter_In. split.
    + intros [Hin Hv]. split; [exact Hin | now apply validPrompt_texts].
    + intros (Hin & H1 & H2). split; [exact Hin |].
      unfold CustomPrompts.validPrompt. now rewrite H1, H2.
  - intros name Hin. unfold activeProperties in Hin.
    apply in_map_iff in Hin. destruct Hin as (p & <- & Hin).
    assert (Hp := Hin). rewrite Hread in Hp. apply filter_In in Hp.
    destruct Hp as [_ Hv]. apply validPrompt_texts in Hv. destruct Hv as [Hv _].
    apply trim_not_empty in Hv.
    unfold resolvePrompt. cbn [str_truthy text_of]. rewrite Hv. cbn [negb].
    unfold storedPromptFor.
    destruct (find (fun q => String.eqb (property q) (property p))
                (getStoredCustomPrompts env)) as [rule|] eqn:Ef.
    + apply find_some in Ef. destruct Ef as [Hr He].
      apply String.eqb_eq in He.
      rewrite Hread in Hr. apply filter_In in Hr. destruct Hr as [Hr Hvr].
      apply validPrompt_texts in Hvr. destruct Hvr as [_ Hvr].
      exists rule. repeat split; auto using trim_not_empty.
    + apply (find_none _ _ Ef) in Hin. cbn beta in Hin.
      now rewrite String.eqb_refl in Hin.
  - unfold CustomPrompts.saveCustomPromptsAndClose, CustomPrompts.saveCustomPrompts.
    cbn [fst snd].
    assert (Hidem : forall l, filter CustomPrompts.validPrompt
                                (filter CustomPrompts.validPrompt l) =
                              filter CustomPrompts.validPrompt l).
    { induction l as [|a l IH]; [reflexivity |].
      simpl. destruct (CustomPrompts.validPrompt a) eqn:Ea; [| exact IH].
      simpl. now rewrite Ea, IH. }
    now rewrite Hidem.
Qed.

Lemma saveCustomPromptsAndClose_client_witness :
  getStoredCustomPrompts (offlineEnv (Item [ {| property := "title";
                                                prompt := "Give a title." |} ])) =
  filter CustomPrompts.validPrompt (fst (editedPrompts, NoItem)).
Proof.
  apply (saveCustomPromptsAndClose_client
           (offlineEnv (Item [ {| property := "title"; prompt := "Give a title." |} ]))
           sampleConfig (editedPrompts, NoItem)).
  vm_compute. reflexivity.
Defined.

Lemma js_or_text name : js_or (JStr name) (JStr EmptyString) = JStr name.
Proof. destruct name; reflexivity. Qed.

Lemma js_or_truthy v : truthy v = true -> js_or v (JStr EmptyString) = v.
Proof. intros H. unfold js_or. now rewrite H. Qed.

Lemma filterEntries_cons name text rest :
  CustomPrompts.filterEntries ((name, text) :: rest) =
  match name with
  | JStr name =>
      if is_empty (trim name) then CustomPrompts.filterEntries rest
      else
        match text with
        | JStr body =>
            option_map
              (fun kept =>
                 if is_empty (trim body) then kept
                 else {| property := name; prompt := body |} :: kept)
              (CustomPrompts.filterEntries rest)
        | _ => None
        end
  | _ => None
  end.
Proof. destruct name; reflexivity. Qed.

Lemma import_entry entry :
  nullish entry = false ->
  let name := js_or (member entry "property") (JStr EmptyString) in
  let text := js_or (member entry "prompt") (JStr EmptyString) in
  forall rest,
    CustomPrompts.filterEntries ((name, text) :: rest) =
    if refusedEntry entry then None
    else option_map (app (importedPrompt entry)) (CustomPrompts.filterEntries rest).
Proof.
  intros Hn name text rest. subst name text.
  rewrite filterEntries_cons.
  unfold refusedEntry, importedPrompt, CustomPrompts.validPrompt.
  rewrite Hn. cbn [orb property prompt].
  assert (Hid : forall o : option (list PromptConfig), option_map (app []) o = o).
  { now intros [l|]. }
  destruct (member entry "property") as [ | | b | n | name | items | fields | host ]
    eqn:Hname.
  1-4, 6-8:
    (destruct (truthy _) eqn:Ht;
     [rewrite (js_or_truthy _ Ht); reflexivity
     | unfold js_or; rewrite Ht; cbn [trim is_empty]; now rewrite Hid]).
  rewrite js_or_text.
  destruct (is_empty (trim name)) eqn:Hblank; cbn [negb andb].
  { destruct (member entry "prompt"); now rewrite Hid. }
  destruct (member entry "prompt") as [ | | b | n | body | items | fields | host ]
    eqn:Hbody.
  1-4, 6-8:
    (destruct (truthy _) eqn:Ht;
     [rewrite (js_or_truthy _ Ht); reflexivity
     | unfold js_or; rewrite Ht; cbn [trim is_empty option_map];
       destruct (CustomPrompts.filterEntries rest); reflexivity]).
  rewrite js_or_text.
  destruct (is_empty (trim body)); cbn [negb];
    destruct (CustomPrompts.filterEntries rest); reflexivity.
Qed.

Lemma import_entries items :
  match CustomPrompts.mapEntries items with
  | None => existsb refusedEntry items = true
  | Some entries =>
      match CustomPrompts.filterEntries entries with
      | None => existsb refusedEntry items = true
      | Some valid =>
          existsb refusedEntry items = false /\ valid = importedPrompts items
      end
  end.
Proof.
  induction items as [|entry rest IH]; [now split |].
  cbn [CustomPrompts.mapEntries existsb].
  destruct (nullish entry) eqn:Hn.
  { unfold refusedEntry. now rewrite Hn. }
  destruct (CustomPrompts.mapEntries rest) as [entries|]; cbn [option_map].
  - rewrite (import_entry entry Hn).
    destruct (refusedEntry entry); [reflexivity |].
    destruct (CustomPrompts.filterEntries entries) as [valid|]; cbn [option_map orb].
    + destruct IH as [-> ->]. split; reflexivity.
    + exact IH.
  - rewrite IH. apply orb_true_r.
Qed.

(** X14. What the handler of an imported file does is settled by the
    file.  A text that is no JSON, a JSON value whose [prompts] is no
    array, an array with an entry the handler throws at, and an array
    that names no prompt leave the editor and the storage as they are.
    In every other case the editor holds, and saves, the prompts the
    entries name, in the order of the file: one for each entry whose
    property and prompt are strings that are not blank. *)
Theorem importPromptsFromFile_outcome writable text state :
  let imported := CustomPrompts.importPromptsFromFile writable text state in
  (JSON_parse text = None -> imported = state) /\
  (forall importData,
      JSON_parse text = Some importData ->
      (forall items, member importData "prompts" <> JArr items) ->
      imported = state) /\
  (forall importData items,
      JSON_parse text = Some importData ->
      member importData "prompts" = JArr items ->
      (existsb refusedEntry items = true -> imported = state) /\
      (existsb refusedEntry items = false ->
       (importedPrompts items = [] -> imported = state) /\
       (importedPrompts items <> [] ->
        imported =
          (importedPrompts items,
           CustomPrompts.saveCustomPrompts writable (importedPrompts items)
             (snd state))))).
Proof.
  intros imported. subst imported. unfold CustomPrompts.importPromptsFromFile.
  split; [intros ->; reflexivity |]. split.
  - intros importData -> Hnone.
    destruct (nullish importData); [reflexivity |].
    destruct (member importData "prompts"); try reflexivity.
    now destruct (Hnone items).
  - intros importData items -> Hmember.
    assert (Hn : nullish importData = false).
    { destruct importData; try reflexivity; discriminate. }
    rewrite Hn, Hmember.
    pose proof (import_entries items) as H.
    destruct (CustomPrompts.mapEntries items) as [entries|].
    + destruct (CustomPrompts.filterEntries entries) as [valid|].
      * destruct H as [Hnone ->]. rewrite Hnone.
        split; [discriminate |]. intros _.
        destruct (importedPrompts items); split; congruence.
      * rewrite H. split; [reflexivity | discriminate].
    + rewrite H. split; [reflexivity | discriminate].
Qed.

(** The prompts of a file are taken in its order, the entries with a
    blank property or text left out. *)
Example importPromptsFromFile_sample :
  CustomPrompts.importPromptsFromFile true promptsFile (editedPrompts, NoItem) =
  ([ {| property := "title"; prompt := "Give a title." |} ],
   Item [ {| property := "title"; prompt := "Give a title." |} ]) /\
  CustomPrompts.importPromptsFromFile true (json_lit "{'prompts':[{'property':7}]}")
    (editedPrompts, NoItem) = (editedPrompts, NoItem).
Proof. split; vm_compute; reflexivity. Qed.

(** ** The arrays and the objects of the editor *)

Lemma nth_new_objects (A : Type) (h es : list A) (d : A) :
  map (fun a => nth a (h ++ es)%list d) (seq (length h) (length es)) = es.
Proof.
  revert h. induction es as [|e es IH]; intros h; [reflexivity |].
  cbn [length seq map]. rewrite app_nth2, Nat.sub_diag by lia. cbn [nth]. f_equal.
  specialize (IH (h ++ [e])%list). rewrite length_app in IH. cbn [length] in IH.
  rewrite Nat.add_1_r, <- app_assoc in IH. exact IH.
Qed.

Lemma nth_old_objects (A : Type) (h es : list A) (d : A) (addresses : list nat) :
  Forall (fun a => a < length h) addresses ->
  map (fun a => nth a (h ++ es)%list d) addresses = map (fun a => nth a h d) addresses.
Proof.
  intros H. apply map_ext_in. intros a Ha.
  rewrite Forall_forall in H. now rewrite app_nth1 by auto.
Qed.

(** X15. The editor's [getStoredCustomPrompts] and the client's return
    the same prompts, and the client reads what the editor has left in
    the storage, whenever something is stored or the storage can be
    written (the defaults being those of [DEFAULT_CUSTOM_PROMPTS] as
    long as that array holds what it held at the start).  With nothing
    stored and a storage that refuses the write they differ: the editor
    shows the short fallback prompt, the client sends the first-time
    prompt.  [loadCustomPrompts] shows what [getStoredCustomPrompts]
    returns unless the storage cannot be read, where it shows the
    defaults and the client sends the fallback prompt. *)
Theorem getStoredCustomPrompts_editor_client env env' writable saved st :
  storage env = Editor.clientStorage saved ->
  storage env' =
    Editor.clientStorage (snd (Editor.getStoredCustomPrompts writable saved st)) ->
  map Editor.config (Editor.defaultContents st) = DEFAULT_CUSTOM_PROMPTS ->
  (writable = true \/ saved <> Editor.NothingSaved ->
   map Editor.config
     (Editor.returnedContents (Editor.getStoredCustomPrompts writable saved st)) =
     getStoredCustomPrompts env /\
   getStoredCustomPrompts env' = getStoredCustomPrompts env) /\
  (writable = false -> saved = Editor.NothingSaved ->
   map Editor.config
     (Editor.returnedContents (Editor.getStoredCustomPrompts writable saved st)) =
     [ {| property := "description"; prompt := fallbackPrompt |} ] /\
   getStoredCustomPrompts env' =
     [ {| property := "description"; prompt := firstTimePrompt |} ] /\
   fallbackPrompt <> firstTimePrompt) /\
  (saved <> Editor.SavedUnreadable ->
   Editor.contents (fst (Editor.loadCustomPrompts writable saved st)) =
     Editor.returnedContents (Editor.getStoredCustomPrompts writable saved st) /\
   snd (Editor.loadCustomPrompts writable saved st) =
     snd (Editor.getStoredCustomPrompts writable saved st)) /\
  (saved = Editor.SavedUnreadable ->
   map Editor.config
     (Editor.contents (fst (Editor.loadCustomPrompts writable saved st))) =
     [ {| property := "description"; prompt := firstTimePrompt |} ] /\
   getStoredCustomPrompts env =
     [ {| property := "description"; prompt := fallbackPrompt |} ]).
Proof.
  assert (Hdefault : DEFAULT_CUSTOM_PROMPTS =
                     [ {| property := "description"; prompt := firstTimePrompt |} ])
    by (vm_compute; reflexivity).
  assert (Hnew : forall entries : list Editor.Entry,
             map (Editor.object
                    {| Editor.heap := (Editor.heap st ++ entries)%list;
                       Editor.defaults := Editor.defaults st;
                       Editor.customPrompts := Editor.customPrompts st |})
               (Editor.allocate entries st) = entries).
  { intros entries. unfold Editor.object, Editor.allocate. cbn [Editor.heap].
    apply nth_new_objects. }
  unfold getStoredCustomPrompts. rewrite Hdefault.
  intros Hs Hs' Hd. rewrite Hs. split; [| split; [| split]].
  - intros Hw. destruct saved as [|entries|].
    + destruct Hw as [-> | Hne]; [| congruence].
      cbn [Editor.getStoredCustomPrompts snd Editor.clientStorage] in *.
      rewrite Hs'. unfold Editor.returnedContents. cbn [fst snd].
      change (map (Editor.object st) (Editor.defaults st))
        with (Editor.defaultContents st).
      now rewrite Hd.
    + cbn [Editor.getStoredCustomPrompts snd Editor.clientStorage] in *.
      rewrite Hs'. unfold Editor.returnedContents. cbn [fst snd]. now rewrite Hnew.
    + cbn [Editor.getStoredCustomPrompts snd Editor.clientStorage] in *.
      rewrite Hs'. unfold Editor.returnedContents. cbn [fst snd]. now rewrite Hnew.
  - intros -> ->. cbn [Editor.getStoredCustomPrompts snd Editor.clientStorage] in *.
    rewrite Hs'. unfold Editor.returnedContents. cbn [fst snd]. rewrite Hnew.
    repeat split. vm_compute. discriminate.
  - intros Hne. destruct saved as [|entries|]; [| | congruence].
    + unfold Editor.loadCustomPrompts.
      destruct writable; cbn [Editor.getStoredCustomPrompts]; cbn [fst snd];
        (split; [| reflexivity]).
      * reflexivity.
      * unfold Editor.contents, Editor.elements, Editor.returnedContents.
        cbn [fst snd Editor.customPrompts]. unfold Editor.object. reflexivity.
    + cbn [Editor.loadCustomPrompts Editor.getStoredCustomPrompts fst snd].
      split; [| reflexivity].
      unfold Editor.contents, Editor.elements, Editor.returnedContents.
      cbn [fst snd Editor.customPrompts]. unfold Editor.object. reflexivity.
  - intros ->. cbn [Editor.loadCustomPrompts fst Editor.clientStorage].
    split; [| reflexivity].
    unfold Editor.contents, Editor.elements. cbn [Editor.customPrompts].
    change (map (Editor.object
                   {| Editor.heap := Editor.heap st;
                      Editor.defaults := Editor.defaults st;
                      Editor.customPrompts := None |}) (Editor.defaults st))
      with (Editor.defaultContents st).
    exact Hd.
Qed.

Lemma getStoredCustomPrompts_editor_client_witness :
  map Editor.config
    (Editor.returnedContents
       (Editor.getStoredCustomPrompts true Editor.NothingSaved Editor.initial)) =
    getStoredCustomPrompts (offlineEnv NoItem) /\
  getStoredCustomPrompts (offlineEnv (Item DEFAULT_CUSTOM_PROMPTS)) =
    getStoredCustomPrompts (offlineEnv NoItem).
Proof.
  apply (getStoredCustomPrompts_editor_client (offlineEnv NoItem)
           (offlineEnv (Item DEFAULT_CUSTOM_PROMPTS)) true Editor.NothingSaved
           Editor.initial).
  - reflexivity.
  - reflexivity.
  - reflexivity.
  - left. reflexivity.
Defined.

(** ** Sanitized texts *)

Lemma ws_len_le s : (ws_len s <= String.length s)%nat.
Proof.
  unfold ws_len.
  destruct s as [|c1 [|c2 [|c3 r]]]; simpl;
    repeat match goal with |- context [if ?b then _ else _] => destruct b end; lia.
Qed.

Lemma ws_len_app s k t : ws_len s = S k -> ws_len (s ++ t) = S k.
Proof.
  unfold ws_len.
  destruct s as [|c1 [|c2 [|c3 r]]]; simpl; try discriminate.
  - destruct ((9 <=? code c1)%N && (code c1 <=? 13)%N || (code c1 =? 32)%N); [| discriminate].
    destruct t; auto.
  - destruct ((9 <=? code c1)%N && (code c1 <=? 13)%N || (code c1 =? 32)%N); [auto |].
    destruct ((code c1 =? 194)%N && (code c2 =? 160)%N); [auto | discriminate].
  - auto.
Qed.

Lemma drop_0 s : drop 0 s = s.
Proof. destruct s; reflexivity. Qed.

Lemma drop_ws_skip k : forall s,
  (k <= String.length s)%nat -> drop_ws k s = drop_ws 0 (drop k s).
Proof.
  induction k as [|k IH]; intros s Hk; [now rewrite drop_0 |].
  destruct s as [|c r]; simpl in Hk; [lia |].
  cbn [drop_ws drop]. apply IH. lia.
Qed.

Lemma only_ws_skip k : forall s,
  (k <= String.length s)%nat -> only_ws k s = only_ws 0 (drop k s).
Proof.
  induction k as [|k IH]; intros s Hk; [now rewrite drop_0 |].
  destruct s as [|c r]; simpl in Hk; [lia |].
  cbn [only_ws drop]. apply IH. lia.
Qed.

Lemma collapse_ws_skip k b : forall s, (k <= String.length s)%nat ->
  collapse_ws k b s = collapse_ws 0 b (drop k s).
Proof.
  induction k as [|k IH]; intros s Hk; [now rewrite drop_0 |].
  destruct s as [|c r]; simpl in Hk; [lia |].
  cbn [collapse_ws drop]. apply IH. lia.
Qed.

Lemma ws_len_tail c r k : ws_len (String c r) = S k -> (k <= String.length r)%nat.
Proof.
  intros H. pose proof (ws_len_le (String c r)) as Hle.
  rewrite H in Hle. simpl in Hle. lia.
Qed.

Lemma only_ws_token s k : ws_len s = S k -> only_ws 0 s = only_ws 0 (drop (S k) s).
Proof.
  destruct s as [|c r]; [discriminate |]. intros H.
  cbn [only_ws drop]. rewrite H. apply only_ws_skip. eapply ws_len_tail; eauto.
Qed.

Lemma collapse_ws_token s k b :
  ws_len s = S k ->
  collapse_ws 0 b s =
  (if b then EmptyString else " ") ++ collapse_ws 0 true (drop (S k) s).
Proof.
  destruct s as [|c r]; [discriminate |]. intros H.
  cbn [collapse_ws drop]. rewrite H.
  rewrite (collapse_ws_skip k true r) by (eapply ws_len_tail; eauto).
  now destruct b.
Qed.

Lemma collapse_ws_copy c r b :
  ws_len (String c r) = 0 ->
  collapse_ws 0 b (String c r) = String c (collapse_ws 0 false r).
Proof. intros H. cbn [collapse_ws]. now rewrite H. Qed.

Lemma only_ws_app p : forall k w,
  (k <= String.length p)%nat -> only_ws k p = true -> only_ws 0 w = true ->
  only_ws k (p ++ w) = true.
Proof.
  induction p as [|c p IH]; intros k w Hk Hp Hw.
  - simpl in Hk. now replace k with 0 by lia.
  - destruct k as [|k].
    + cbn [only_ws] in Hp.
      destruct (ws_len (String c p)) as [|j] eqn:Hj; [discriminate |].
      change ((String c p) ++ w) with (String c (p ++ w)).
      cbn [only_ws].
      change (String c (p ++ w)) with ((String c p) ++ w).
      rewrite (ws_len_app _ _ w Hj).
      apply IH; auto. eapply ws_len_tail; eauto.
    + simpl. apply IH; auto. simpl in Hk. lia.
Qed.

Lemma trimEnd_split r : exists w, r = trimEnd r ++ w /\ only_ws 0 w = true.
Proof.
  induction r as [|c r IH]; [exists EmptyString; now split |].
  cbn [trimEnd]. destruct (only_ws 0 (String c r)) eqn:E.
  - exists (String c r). now split.
  - destruct IH as (w & Hr & Hw). exists w. split; [| exact Hw].
    simpl. now rewrite <- Hr.
Qed.

Lemma trimEnd_clean r : forall i,
  (i < String.length (trimEnd r))%nat -> only_ws 0 (drop i (trimEnd r)) = false.
Proof.
  induction r as [|c r IH]; intros i Hi; [simpl in Hi; lia |].
  cbn [trimEnd] in *. destruct (only_ws 0 (String c r)) eqn:E; [simpl in Hi; lia |].
  destruct i as [|i].
  - cbn [drop]. destruct (only_ws 0 (String c (trimEnd r))) eqn:E'; [| reflexivity].
    destruct (trimEnd_split r) as (w & Hr & Hw).
    pose proof (only_ws_app (String c (trimEnd r)) 0 w (Nat.le_0_l _) E' Hw) as H.
    simpl in H. rewrite <- Hr in H. simpl in E. congruence.
  - cbn [drop]. apply IH. simpl in Hi. lia.
Qed.

Lemma drop_ws_start : forall s k, drop_ws k s = EmptyString \/ ws_len (drop_ws k s) = 0.
Proof.
  induction s as [|c r IH]; intros k; [now left |].
  cbn [drop_ws]. destruct k as [|k]; [| apply IH].
  destruct (ws_len (String c r)) as [|j] eqn:E; [now right | apply IH].
Qed.

Lemma trimEnd_start s : ws_len s = 0 -> ws_len (trimEnd s) = 0.
Proof.
  intros H. destruct (ws_len (trimEnd s)) as [|k] eqn:E; [reflexivity |].
  destruct (trimEnd_split s) as (w & Hs & _).
  apply (ws_len_app _ _ w) in E. rewrite <- Hs in E. congruence.
Qed.

Lemma trim_start s : ws_len (trim s) = 0.
Proof.
  unfold trim. destruct (drop_ws_start s 0) as [-> | H]; [reflexivity |].
  now apply trimEnd_start.
Qed.

Lemma ws_len_0_first c r :
  ws_len (String c r) = 0 ->
  ((9 <=? code c) && (code c <=? 13) || (code c =? 32))%N = false.
Proof.
  unfold ws_len.
  destruct ((9 <=? code c) && (code c <=? 13) || (code c =? 32))%N; [discriminate | reflexivity].
Qed.

Lemma ws_len_0_second c c2 r :
  ws_len (String c (String c2 r)) = 0 ->
  ((code c =? 194) && (code c2 =? 160))%N = false.
Proof.
  unfold ws_len.
  destruct ((9 <=? code c) && (code c <=? 13) || (code c =? 32))%N; [discriminate |].
  destruct ((code c =? 194) && (code c2 =? 160))%N; [discriminate | reflexivity].
Qed.

Lemma ws_len_space2 c t :
  ((9 <=? code c) && (code c <=? 13) || (code c =? 32))%N = false ->
  ws_len (String c (String " " t)) = 0.
Proof.
  intros H1. unfold ws_len. rewrite H1.
  change (code " ") with 32%N. cbn [N.eqb Pos.eqb].
  rewrite !andb_false_r. destruct t; reflexivity.
Qed.

Lemma ws_len_space3 c c2 t :
  ((9 <=? code c) && (code c <=? 13) || (code c =? 32))%N = false ->
  ((code c =? 194) && (code c2 =? 160))%N = false ->
  ws_len (String c (String c2 (String " " t))) = 0.
Proof.
  intros H1 H2. unfold ws_len. rewrite H1, H2.
  change (code " ") with 32%N.
  change ((128 <=? 32)%N && (32 <=? 138)%N || (32 =? 168)%N || (32 =? 169)%N || (32 =? 175)%N)
    with false.
  change (32 =? 128)%N with false. change (32 =? 159)%N with false.
  change (32 =? 191)%N with false.
  rewrite !andb_false_r. reflexivity.
Qed.

Lemma ws_len_collapse c r :
  ws_len (String c r) = 0 -> ws_len (String c (collapse_ws 0 false r)) = 0.
Proof.
  intros H.
  destruct r as [|c2 r2]; [exact H |].
  destruct (ws_len (String c2 r2)) as [|k] eqn:E2.
  - rewrite (collapse_ws_copy _ _ _ E2).
    destruct r2 as [|c3 r3]; [exact H |].
    destruct (ws_len (String c3 r3)) as [|k3] eqn:E3.
    + rewrite (collapse_ws_copy _ _ _ E3). exact H.
    + rewrite (collapse_ws_token _ _ false E3). cbn [append].
      apply ws_len_space3; [eapply ws_len_0_first | eapply ws_len_0_second]; eauto.
  - rewrite (collapse_ws_token _ _ false E2). cbn [append].
    apply ws_len_space2. eapply ws_len_0_first; eauto.
Qed.

Lemma drop_drop j : forall s i, drop i (drop j s) = drop (i + j) s.
Proof.
  induction j as [|j IH]; intros s i.
  - now rewrite drop_0, Nat.add_0_r.
  - destruct s as [|c r].
    + cbn [drop]. now destruct i.
    + rewrite Nat.add_succ_r. cbn [drop]. apply IH.
Qed.

Lemma drop_len j : forall s, String.length (drop j s) = String.length s - j.
Proof.
  induction j as [|j IH]; intros s; [rewrite drop_0; lia |].
  destruct s as [|c r]; [reflexivity |]. cbn [drop]. simpl. apply IH.
Qed.

Lemma collapse_spaced n : forall u b,
  (String.length u <= n)%nat ->
  (forall i, (i < String.length u)%nat -> only_ws 0 (drop i u) = false) ->
  (b = true -> u <> EmptyString) ->
  spaced (collapse_ws 0 b u) = true /\
  (b = true -> collapse_ws 0 b u <> EmptyString /\ ws_len (collapse_ws 0 b u) = 0).
Proof.
  induction n as [|n IH]; intros u b Hn Hclean Hb.
  - destruct u; [| simpl in Hn; lia].
    split; [reflexivity |]. intros ->. now destruct Hb.
  - destruct u as [|c r]; [split; [reflexivity |]; intros ->; now destruct Hb |].
    destruct (ws_len (String c r)) as [|k] eqn:E.
    + rewrite (collapse_ws_copy _ _ _ E).
      destruct (IH r false) as [Hs _].
      * simpl in Hn. lia.
      * intros i Hi. apply (Hclean (S i)). simpl. lia.
      * discriminate.
      * pose proof (ws_len_collapse _ _ E) as Hw.
        split; [| intros _; split; [discriminate | exact Hw]].
        cbn [spaced]. now rewrite Hw.
    + rewrite (collapse_ws_token _ _ b E).
      assert (Hrest : only_ws 0 (drop (S k) (String c r)) = false).
      { rewrite <- (only_ws_token _ _ E). apply (Hclean 0). simpl. lia. }
      destruct (IH (drop (S k) (String c r)) true) as [Hs Ht].
      * rewrite drop_len. simpl in *. lia.
      * intros i Hi. rewrite drop_drop. apply Hclean.
        rewrite drop_len in Hi. lia.
      * intros _ Hempty. rewrite Hempty in Hrest. discriminate.
      * destruct (Ht eq_refl) as [Hne Hw].
        destruct b; cbn [append]; [split; [exact Hs | intros _; now split] |].
        split; [| discriminate].
        set (C := collapse_ws 0 true (drop (S k) (String c r))) in *.
        cbn [spaced].
        replace (ws_len (String " " C)) with 1 by reflexivity.
        rewrite Hw, Hs. destruct C; [now destruct Hne | reflexivity].
Qed.

Lemma spaced_trimEnd s : spaced s = true -> trimEnd s = s.
Proof.
  induction s as [|c r IH]; [reflexivity |].
  cbn [spaced trimEnd]. destruct (ws_len (String c r)) as [|k] eqn:E; cbn [Nat.eqb].
  - intros Hs. cbn [only_ws]. rewrite E. now rewrite IH.
  - intros Hs. apply andb_true_iff in Hs. destruct Hs as [Hs Hr].
    apply andb_true_iff in Hs. destruct Hs as [Hs Hw].
    apply andb_true_iff in Hs. destruct Hs as [Hc Hne].
    apply N.eqb_eq in Hc. apply Nat.eqb_eq in Hw.
    assert (c = " "%char) as ->.
    { rewrite <- (ascii_N_embedding c). unfold code in Hc. now rewrite Hc. }
    destruct r as [|c2 r2]; [discriminate |].
    cbn [only_ws]. replace (ws_len (String " " (String c2 r2))) with 1 by reflexivity.
    cbn [only_ws]. rewrite Hw. now rewrite IH.
Qed.

Lemma spaced_collapse s :
  spaced s = true ->
  (ws_len s = 0 -> collapse_ws 0 true s = s) /\ collapse_ws 0 false s = s.
Proof.
  induction s as [|c r IH]; [now split |].
  cbn [spaced]. destruct (ws_len (String c r)) as [|k] eqn:E; cbn [Nat.eqb].
  - intros Hs. destruct (IH Hs) as [_ Hf].
    rewrite !(collapse_ws_copy _ _ _ E), Hf. now split.
  - intros Hs. apply andb_true_iff in Hs. destruct Hs as [Hs Hr].
    apply andb_true_iff in Hs. destruct Hs as [Hs Hw].
    apply andb_true_iff in Hs. destruct Hs as [Hc Hne].
    apply N.eqb_eq in Hc. apply Nat.eqb_eq in Hw.
    assert (c = " "%char) as ->.
    { rewrite <- (ascii_N_embedding c). unfold code in Hc. now rewrite Hc. }
    split; [discriminate |].
    destruct (IH Hr) as [Ht _].
    cbn [collapse_ws]. replace (ws_len (String " " r)) with 1 by (destruct r; reflexivity).
    now rewrite (Ht Hw).
Qed.

(** X16. What [sanitizeString] returns is tidy: it does not start with
    white space, and its only white space is single spaces, each with a
    character other than white space after it (so it does not end with
    white space either).  A tidy text is returned as it is; hence
    sanitizing twice is sanitizing once. *)
Theorem sanitizeString_tidy v :
  tidy (sanitizeString v) = true /\
  sanitizeString (JStr (sanitizeString v)) = sanitizeString v /\
  (forall s, tidy s = true -> sanitizeString (JStr s) = s).
Proof.
  assert (Hfix : forall s, tidy s = true -> sanitizeString (JStr s) = s).
  { intros s Ht. unfold tidy in Ht. apply andb_true_iff in Ht. destruct Ht as [Hw Hs].
    apply Nat.eqb_eq in Hw. unfold sanitizeString, trim.
    assert (Hd : drop_ws 0 s = s).
    { destruct s as [|c r]; [reflexivity |]. cbn [drop_ws]. now rewrite Hw. }
    rewrite Hd, (spaced_trimEnd _ Hs). now apply spaced_collapse. }
  assert (Htidy : tidy (sanitizeString v) = true).
  { destruct v; try reflexivity. cbn [sanitizeString].
    destruct (collapse_spaced (String.length (trim s)) (trim s) false) as [Hs _].
    - lia.
    - unfold trim. apply trimEnd_clean.
    - discriminate.
    - unfold tidy. rewrite Hs, andb_true_r. apply Nat.eqb_eq.
      pose proof (trim_start s) as Hw.
      destruct (trim s) as [|c r]; [reflexivity |].
      rewrite (collapse_ws_copy _ _ _ Hw). now apply ws_len_collapse. }
  split; [exact Htidy |]. split; [| exact Hfix].
  now apply Hfix.
Qed.

(** ** Image file names *)

Lemma code_char c n : code c = n -> c = ascii_of_N n.
Proof. intros <-. unfold code. now rewrite ascii_N_embedding. Qed.

Lemma split_dot_whole s : includes "." s = false -> split_dot s = [s].
Proof.
  induction s as [|c r IH]; [reflexivity |].
  rewrite includes_unfold. intros H. apply orb_false_iff in H. destruct H as [Hp Hr].
  cbn [split_dot]. destruct (code c =? 46)%N eqn:E.
  - apply N.eqb_eq in E. apply code_char in E.
    change (ascii_of_N 46) with "."%char in E. subst c.
    change (String "." r) with ("." ++ r) in Hp. rewrite prefix_app in Hp.
    discriminate.
  - now rewrite (IH Hr).
Qed.

Lemma split_dot_last base : forall ext,
  exists first rest,
    split_dot (base ++ "." ++ ext) = first :: rest /\ rest <> [] /\
    last rest EmptyString = last (split_dot ext) EmptyString.
Proof.
  induction base as [|c base IH]; intros ext.
  - exists EmptyString, (split_dot ext). split; [reflexivity |]. split; [| reflexivity].
    destruct ext as [|c r]; [discriminate |]. cbn [split_dot].
    destruct (code c =? 46)%N; [discriminate |]. destruct (split_dot r); discriminate.
  - destruct (IH ext) as (first & rest & Hs & Hne & Hl).
    change ((String c base) ++ "." ++ ext) with (String c (base ++ "." ++ ext)).
    cbn [split_dot]. rewrite Hs. destruct (code c =? 46)%N.
    + exists EmptyString, (first :: rest). split; [reflexivity |]. split; [discriminate |].
      rewrite <- Hl. destruct rest; [now destruct Hne | reflexivity].
    + exists (String c first), rest. now repeat split.
Qed.

(** X17. [isValidImage] looks at nothing but the text after the last
    dot of the name, in lower case: what comes before that dot does not
    matter, a name without a dot is taken whole, and a name that ends in
    a dot and one of the extensions of [IMAGE_EXTENSIONS] is valid. *)
Theorem isValidImage_extension base ext :
  includes "." ext = false ->
  isValidImage (JStr (base ++ "." ++ ext)) =
    existsb (String.eqb (toLowerCase ext)) IMAGE_EXTENSIONS /\
  isValidImage (JStr ext) = existsb (String.eqb (toLowerCase ext)) IMAGE_EXTENSIONS /\
  (In ext IMAGE_EXTENSIONS -> isValidImage (JStr (base ++ "." ++ ext)) = true).
Proof.
  intros Hext.
  assert (Hdot : isValidImage (JStr (base ++ "." ++ ext)) =
                 existsb (String.eqb (toLowerCase ext)) IMAGE_EXTENSIONS).
  { unfold isValidImage.
    destruct (split_dot_last base ext) as (first & rest & Hs & Hne & Hl).
    rewrite Hs.
    replace (last (first :: rest) EmptyString) with (last rest EmptyString)
      by (destruct rest; [now destruct Hne | reflexivity]).
    rewrite Hl, (split_dot_whole _ Hext). cbn [last].
    destruct base; reflexivity. }
  split; [exact Hdot |]. split.
  - unfold isValidImage. destruct ext as [|c r]; [reflexivity |].
    rewrite (split_dot_whole _ Hext). reflexivity.
  - intros Hin. rewrite Hdot. unfold IMAGE_EXTENSIONS in Hin. cbn [In] in Hin.
    repeat (destruct Hin as [<- | Hin]; [reflexivity |]). contradiction.
Qed.

Lemma isValidImage_extension_witness :
  isValidImage (JStr ("holiday.photo" ++ "." ++ "JPG")) = true /\
  isValidImage (JStr "png") = true /\
  isValidImage (JStr ("archive.png" ++ "." ++ "zip")) = false.
Proof.
  split; [| split].
  - rewrite (proj1 (isValidImage_extension "holiday.photo" "JPG" eq_refl)).
    reflexivity.
  - reflexivity.
  - rewrite (proj1 (isValidImage_extension "archive.png" "zip" eq_refl)).
    reflexivity.
Defined.

(** ** The CSV text *)

Lemma app_assoc_s (a b c : string) : (a ++ b) ++ c = a ++ b ++ c.
Proof. induction a as [|x a IH]; [reflexivity |]. simpl. now rewrite IH. Qed.

Lemma app_nil_s (a : string) : a ++ EmptyString = a.
Proof. induction a as [|x a IH]; [reflexivity |]. simpl. now rewrite IH. Qed.

Lemma double_quotes_tail a : forall b x y,
  starts_with 34 x = false -> starts_with 34 y = false ->
  double_quotes a ++ dq ++ x = double_quotes b ++ dq ++ y ->
  a = b /\ x = y.
Proof.
  assert (Hdq : forall x, dq ++ x = String (ascii_of_N 34) x) by reflexivity.
  assert (Hquote : forall c, (code c =? 34)%N = true -> c = ascii_of_N 34).
  { intros c Hc. apply N.eqb_eq in Hc. unfold code in Hc.
    now rewrite <- (ascii_N_embedding c), Hc. }
  assert (Hother : forall c, (code c =? 34)%N = false -> c <> ascii_of_N 34).
  { intros c Hc ->. discriminate. }
  induction a as [|c a IH]; intros b x y Hx Hy H.
  - destruct b as [|d b]; cbn [double_quotes] in H.
    + cbn [append] in H. rewrite !Hdq in H. injection H as H. now split.
    + destruct (code d =? 34)%N eqn:Ed.
      * rewrite (Hquote _ Ed) in H. cbn [append] in H. rewrite !Hdq in H.
        injection H as H. subst x. discriminate.
      * apply Hother in Ed. cbn [append] in H. rewrite !Hdq in H.
        injection H as H1 H2. exfalso. apply Ed. exact (eq_sym H1).
  - destruct b as [|d b]; cbn [double_quotes] in H.
    + destruct (code c =? 34)%N eqn:Ec.
      * rewrite (Hquote _ Ec) in H. cbn [append] in H. rewrite !Hdq in H.
        injection H as H. subst y. discriminate.
      * apply Hother in Ec. cbn [append] in H. rewrite !Hdq in H.
        injection H as H1 H2. exfalso. apply Ec. exact H1.
    + destruct (code c =? 34)%N eqn:Ec, (code d =? 34)%N eqn:Ed.
      * rewrite (Hquote _ Ec), (Hquote _ Ed) in *. cbn [append] in H.
        injection H as H. destruct (IH b x y Hx Hy H) as [-> ->]. now split.
      * rewrite (Hquote _ Ec) in H. apply Hother in Ed. cbn [append] in H.
        injection H as H1 H2. exfalso. apply Ed. exact (eq_sym H1).
      * rewrite (Hquote _ Ed) in H. apply Hother in Ec. cbn [append] in H.
        injection H as H1 H2. exfalso. apply Ec. exact H1.
      * cbn [append] in H. injection H as H1 H2. subst d.
        destruct (IH b x y Hx Hy H2) as [-> ->]. now split.
Qed.

Lemma csvCell_tail a b x y :
  starts_with 34 x = false -> starts_with 34 y = false ->
  csvCell a ++ x = csvCell b ++ y -> a = b /\ x = y.
Proof.
  intros Hx Hy H. unfold csvCell in H. rewrite !app_assoc_s in H.
  assert (Hdq : forall s, dq ++ s = String (ascii_of_N 34) s) by reflexivity.
  rewrite (Hdq (double_quotes a ++ _)), (Hdq (double_quotes b ++ _)) in H.
  injection H as H. now apply double_quotes_tail.
Qed.

Lemma join_cons sep x y l : join sep (x :: y :: l) = x ++ sep ++ join sep (y :: l).
Proof. reflexivity. Qed.

(** The text of a row, followed by the end of the text or a line feed,
    determines the row. *)
Lemma csvRow_tail r1 : forall r2 x y,
  r1 <> [] -> r2 <> [] ->
  x = EmptyString \/ starts_with 10 x = true ->
  y = EmptyString \/ starts_with 10 y = true ->
  join "," (map csvCell r1) ++ x = join "," (map csvCell r2) ++ y ->
  r1 = r2 /\ x = y.
Proof.
  assert (Hq : forall x, x = EmptyString \/ starts_with 10 x = true ->
                         starts_with 34 x = false).
  { intros x [-> | Hx]; [reflexivity |]. destruct x as [|c x]; [reflexivity |].
    cbn [starts_with] in *. apply N.eqb_eq in Hx. rewrite Hx. reflexivity. }
  assert (Hc : forall x t, x = EmptyString \/ starts_with 10 x = true ->
                           x <> "," ++ t).
  { intros x t [-> | Hx] Heq; [discriminate |]. subst x. discriminate. }
  induction r1 as [|a [|a' r1] IH]; intros r2 x y H1 H2 Hx Hy H; [now destruct H1 | |].
  - destruct r2 as [|b [|b' r2]]; [now destruct H2 | |].
    + cbn [map join] in H. apply csvCell_tail in H; auto.
      destruct H as [-> ->]. now split.
    + cbn [map] in H. rewrite join_cons in H. cbn [join] in H.
      rewrite !app_assoc_s in H. apply csvCell_tail in H; auto.
      destruct H as [_ H]. now apply Hc in H.
  - destruct r2 as [|b [|b' r2]]; [now destruct H2 | |].
    + cbn [map] in H. rewrite join_cons in H. cbn [join] in H.
      rewrite !app_assoc_s in H. apply csvCell_tail in H; auto.
      destruct H as [_ H]. symmetry in H. now apply Hc in H.
    + cbn [map] in H. rewrite !join_cons in H.
      rewrite !app_assoc_s in H. apply csvCell_tail in H; auto.
      destruct H as [-> H]. cbn [append] in H. injection H as H.
      change (csvCell a' :: map csvCell r1) with (map csvCell (a' :: r1)) in H.
      change (csvCell b' :: map csvCell r2) with (map csvCell (b' :: r2)) in H.
      destruct (IH (b' :: r2) x y) as [Hr ->]; auto; try discriminate.
      rewrite Hr. now split.
Qed.

Lemma csvRow_starts r : r <> [] -> starts_with 34 (join "," (map csvCell r)) = true.
Proof. destruct r as [|a [|b r]]; [congruence | reflexivity | reflexivity]. Qed.

(** X18. The CSV text of [exportAsCsv] determines the table: two
    tables whose rows all have a cell (as every row the export builds
    has) and whose texts are equal are the same table, whatever quotes,
    commas and line feeds their cells hold. *)
Theorem csvContent_injective a : forall b,
  Forall (fun row => row <> []) a -> Forall (fun row => row <> []) b ->
  csvContent a = csvContent b -> a = b.
Proof.
  unfold csvContent.
  induction a as [|r1 [|r1' a] IH]; intros b Ha Hb H.
  - destruct b as [|r2 [|r2' b]]; [reflexivity | |].
    + cbn [map join] in H. inversion Hb as [|? ? Hr _]; subst.
      apply csvRow_starts in Hr. rewrite <- H in Hr. discriminate.
    + cbn [map] in H. rewrite join_cons in H. inversion Hb as [|? ? Hr _]; subst.
      apply csvRow_starts in Hr.
      destruct (join "," (map csvCell r2)); discriminate.
  - inversion Ha as [|? ? Hr1 _]; subst.
    destruct b as [|r2 [|r2' b]].
    + cbn [map join] in H. apply csvRow_starts in Hr1. rewrite H in Hr1. discriminate.
    + inversion Hb as [|? ? Hr2 _]; subst. cbn [map join] in H.
      rewrite <- (app_nil_s (join "," (map csvCell r1))) in H.
      rewrite <- (app_nil_s (join "," (map csvCell r2))) in H.
      apply csvRow_tail in H; auto. now destruct H as [-> _].
    + inversion Hb as [|? ? Hr2 _]; subst. cbn [map] in H. rewrite join_cons in H.
      cbn [join] in H.
      rewrite <- (app_nil_s (join "," (map csvCell r1))) in H.
      apply csvRow_tail in H; auto; try (right; reflexivity).
      destruct H as [_ H]. discriminate.
  - inversion Ha as [|? ? Hr1 Ha']; subst.
    destruct b as [|r2 [|r2' b]].
    + cbn [map] in H. rewrite join_cons in H. apply csvRow_starts in Hr1.
      destruct (join "," (map csvCell r1)); discriminate.
    + inversion Hb as [|? ? Hr2 _]; subst. cbn [map] in H. rewrite join_cons in H.
      cbn [join] in H.
      rewrite <- (app_nil_s (join "," (map csvCell r2))) in H.
      apply csvRow_tail in H; auto; try (right; reflexivity).
      destruct H as [_ H]. discriminate.
    + inversion Hb as [|? ? Hr2 Hb']; subst. cbn [map] in H. rewrite !join_cons in H.
      apply csvRow_tail in H; auto; try (right; reflexivity).
      destruct H as [-> H]. unfold nl in H. cbn [append] in H. injection H as H.
      f_equal. apply IH; auto.
Qed.

Lemma csvContent_injective_witness :
  sampleTable = sampleTable /\
  csvContent [ [ "a,b" ] ] = dq ++ "a,b" ++ dq.
Proof.
  split; [| reflexivity].
  apply (csvContent_injective sampleTable sampleTable).
  - repeat constructor; discriminate.
  - repeat constructor; discriminate.
  - reflexivity.
Defined.

(** ** What is written is read back *)

Lemma quote_char_item c rest :
  json_string_items (quote_char c ++ rest) =
  option_map (cons_item (item_of c)) (json_string_items rest).
Proof.
  destruct c as [[] [] [] [] [] [] [] []]; reflexivity.
Qed.

Lemma encode_item c r : encode_items (item_of c :: r) = String c (encode_items r).
Proof.
  destruct c as [[] [] [] [] [] [] [] []]; try reflexivity;
    destruct r as [|[|] r]; reflexivity.
Qed.

Lemma skip_json_ws_app w s : json_ws_only w = true -> skip_json_ws (w ++ s) = skip_json_ws s.
Proof.
  induction w as [|c w IH]; [reflexivity |].
  cbn [json_ws_only append skip_json_ws]. intros H. apply andb_true_iff in H.
  destruct H as [Hc Hw]. rewrite Hc. now apply IH.
Qed.

Lemma json_ws_only_app a b :
  json_ws_only a = true -> json_ws_only b = true -> json_ws_only (a ++ b) = true.
Proof.
  induction a as [|c a IH]; [auto |]. cbn [json_ws_only append]. intros H Hb.
  apply andb_true_iff in H. destruct H as [-> Ha]. now apply IH.
Qed.

Lemma quote_body_items s rest :
  json_string_items (quote_body s ++ dq ++ rest) = Some (items_of s, rest).
Proof.
  induction s as [|c s IH]; [reflexivity |].
  cbn [quote_body items_of]. rewrite app_assoc_s, quote_char_item, IH. reflexivity.
Qed.

Lemma encode_items_of s : encode_items (items_of s) = s.
Proof.
  induction s as [|c s IH]; [reflexivity |].
  cbn [items_of]. now rewrite encode_item, IH.
Qed.

Lemma json_value_ws f w s :
  json_ws_only w = true -> json_value f (w ++ s) = json_value f s.
Proof. intros H. destruct f; [reflexivity |]. cbn [json_value]. now rewrite skip_json_ws_app. Qed.

Lemma json_members_ws f w s acc :
  json_ws_only w = true -> json_members f (w ++ s) acc = json_members f s acc.
Proof. intros H. destruct f; [reflexivity |]. cbn [json_members]. now rewrite skip_json_ws_app. Qed.

Lemma json_elements_ws f w s acc :
  json_ws_only w = true -> json_elements f (w ++ s) acc = json_elements f s acc.
Proof. intros H. destruct f; [reflexivity |]. cbn [json_elements]. now rewrite json_value_ws. Qed.

Lemma json_value_string f s rest :
  json_value (S f) (QuoteJSONString s ++ rest) = Some (JStr s, rest).
Proof.
  unfold QuoteJSONString. rewrite !app_assoc_s.
  change (dq ++ quote_body s ++ dq ++ rest)
    with (String (ascii_of_N 34) (quote_body s ++ dq ++ rest)).
  cbn [json_value skip_json_ws]. 
  change (is_json_ws (ascii_of_N 34)) with false. cbv iota.
  change (code (ascii_of_N 34) =? 123)%N with false.
  change (code (ascii_of_N 34) =? 91)%N with false.
  change (code (ascii_of_N 34) =? 34)%N with true. cbv iota.
  now rewrite quote_body_items, encode_items_of.
Qed.

Lemma json_members_step f k tail acc :
  json_members (S f) (QuoteJSONString k ++ ":" ++ tail) acc =
  match json_value f tail with
  | None => None
  | Some (v, r3) =>
      match skip_json_ws r3 with
      | EmptyString => None
      | String c3 r4 =>
          if (code c3 =? 44)%N then json_members f r4 (define_field k v acc)
          else if (code c3 =? 125)%N then Some (JObj (define_field k v acc), r4)
          else None
      end
  end.
Proof.
  unfold QuoteJSONString. rewrite !app_assoc_s.
  change (dq ++ quote_body k ++ dq ++ ":" ++ tail)
    with (String (ascii_of_N 34) (quote_body k ++ dq ++ ":" ++ tail)).
  cbn [json_members skip_json_ws].
  change (is_json_ws (ascii_of_N 34)) with false. cbv iota.
  change (code (ascii_of_N 34) =? 34)%N with true. cbv iota.
  rewrite quote_body_items. cbv iota beta.
  change (":" ++ tail) with (String ":" tail).
  cbn [skip_json_ws]. change (is_json_ws ":") with false. cbv iota.
  change (code ":" =? 58)%N with true. cbv iota.
  rewrite encode_items_of. reflexivity.
Qed.

Lemma json_members_more f k tail acc v w r4 :
  json_value f tail = Some (v, w ++ "," ++ r4) -> json_ws_only w = true ->
  json_members (S f) (QuoteJSONString k ++ ":" ++ tail) acc =
  json_members f r4 (define_field k v acc).
Proof.
  intros Hv Hw. rewrite json_members_step, Hv, skip_json_ws_app by exact Hw.
  reflexivity.
Qed.

Lemma json_members_last f k tail acc v w r4 :
  json_value f tail = Some (v, w ++ "}" ++ r4) -> json_ws_only w = true ->
  json_members (S f) (QuoteJSONString k ++ ":" ++ tail) acc =
  Some (JObj (define_field k v acc), r4).
Proof.
  intros Hv Hw. rewrite json_members_step, Hv, skip_json_ws_app by exact Hw.
  reflexivity.
Qed.

Lemma json_elements_more f s acc v w r :
  json_value f s = Some (v, w ++ "," ++ r) -> json_ws_only w = true ->
  json_elements (S f) s acc = json_elements f r (acc ++ [v])%list.
Proof.
  intros Hv Hw. cbn [json_elements]. rewrite Hv, skip_json_ws_app by exact Hw.
  reflexivity.
Qed.

Lemma json_elements_last f s acc v w r :
  json_value f s = Some (v, w ++ "]" ++ r) -> json_ws_only w = true ->
  json_elements (S f) s acc = Some (JArr (acc ++ [v])%list, r).
Proof.
  intros Hv Hw. cbn [json_elements]. rewrite Hv, skip_json_ws_app by exact Hw.
  reflexivity.
Qed.

Lemma json_value_object f w k tail :
  json_ws_only w = true ->
  json_value (S f) ("{" ++ w ++ QuoteJSONString k ++ tail) =
  json_members f (QuoteJSONString k ++ tail) [].
Proof.
  intros Hw. change ("{" ++ w ++ QuoteJSONString k ++ tail)
    with (String "{" (w ++ QuoteJSONString k ++ tail)).
  cbn [json_value skip_json_ws]. change (is_json_ws "{") with false. cbv iota.
  change (code "{" =? 123)%N with true. cbv iota.
  rewrite skip_json_ws_app by exact Hw.
  unfold QuoteJSONString. rewrite !app_assoc_s.
  reflexivity.
Qed.

Lemma json_value_array f w tail :
  json_ws_only w = true ->
  json_value (S f) ("[" ++ w ++ "{" ++ tail) = json_elements f ("{" ++ tail) [].
Proof.
  intros Hw. change ("[" ++ w ++ "{" ++ tail) with (String "[" (w ++ "{" ++ tail)).
  cbn [json_value skip_json_ws]. change (is_json_ws "[") with false. cbv iota.
  change (code "[" =? 123)%N with false. change (code "[" =? 91)%N with true.
  cbv iota. rewrite skip_json_ws_app by exact Hw. reflexivity.
Qed.

Lemma members_parse gap sw clw : forall fields acc f rest,
  json_ws_only sw = true -> json_ws_only clw = true ->
  fields <> [] -> length fields + 1 <= f ->
  json_members f
    (join ("," ++ sw)
       (map (fun field => member_text gap (fst field) (QuoteJSONString (snd field)))
            fields) ++ clw ++ "}" ++ rest) acc =
  Some (JObj (fold_left (fun a field => define_field (fst field) (JStr (snd field)) a)
                fields acc), rest).
Proof.
  assert (Hcw : json_ws_only (if is_empty gap then EmptyString else " ") = true)
    by (destruct (is_empty gap); reflexivity).
  induction fields as [|[k v] [|field2 fields] IH]; intros acc f rest Hsw Hclw Hne Hf;
    [now destruct Hne | |].
  - destruct f as [|[|f]]; [simpl in Hf; lia | simpl in Hf; lia |].
    cbn [map join fst snd fold_left]. unfold member_text. rewrite !app_assoc_s.
    apply json_members_last with (w := clw); [| exact Hclw].
    rewrite json_value_ws by exact Hcw. apply json_value_string.
  - destruct f as [|[|f]]; [simpl in Hf; lia | simpl in Hf; lia |].
    cbn [map]. rewrite join_cons. cbn [fst snd fold_left].
    unfold member_text at 1. rewrite !app_assoc_s.
    rewrite json_members_more
      with (v := JStr v) (w := EmptyString)
           (r4 := sw ++
                  join ("," ++ sw)
                    (map (fun field =>
                            member_text gap (fst field) (QuoteJSONString (snd field)))
                         (field2 :: fields)) ++ clw ++ "}" ++ rest).
    + rewrite json_members_ws by exact Hsw.
      apply IH; auto; [discriminate | simpl in *; lia].
    + rewrite json_value_ws by exact Hcw. apply json_value_string.
    + reflexivity.
Qed.

Lemma json_value_object_members f w X :
  json_ws_only w = true ->
  (exists k tail, X = QuoteJSONString k ++ tail) ->
  json_value (S f) ("{" ++ w ++ X) = json_members f X [].
Proof.
  intros Hw (k & tail & ->). now apply json_value_object.
Qed.

Lemma members_start gap sep fields tail :
  fields <> [] ->
  exists k t,
    join sep
      (map (fun field => member_text gap (fst field) (QuoteJSONString (snd field)))
           fields) ++ tail = QuoteJSONString k ++ t.
Proof.
  destruct fields as [|[k v] [|field2 fields]]; intros Hne; [now destruct Hne | |].
  - exists k. cbn [map join fst snd]. unfold member_text. rewrite !app_assoc_s. eauto.
  - exists k. cbn [map]. rewrite join_cons. cbn [fst snd]. unfold member_text at 1.
    rewrite !app_assoc_s. eauto.
Qed.

Lemma object_parse gap sw clw fields f rest :
  json_ws_only sw = true -> json_ws_only clw = true ->
  fields <> [] -> length fields + 2 <= f ->
  json_value f
    ("{" ++ sw ++
     join ("," ++ sw)
       (map (fun field => member_text gap (fst field) (QuoteJSONString (snd field)))
            fields) ++ clw ++ "}" ++ rest) =
  Some (entryObject fields, rest).
Proof.
  intros Hsw Hclw Hne Hf. destruct f as [|f]; [lia |].
  rewrite json_value_object_members by (auto using members_start).
  apply members_parse; auto. lia.
Qed.

Lemma SerializeEntry_parse gap stepback fields f rest :
  json_ws_only gap = true -> json_ws_only stepback = true ->
  length fields + 2 <= f ->
  json_value f (SerializeEntry gap stepback fields ++ rest) =
  Some (entryObject fields, rest).
Proof.
  intros Hg Hs Hf.
  unfold SerializeEntry, serialize.
  destruct fields as [|field fields]; [destruct f; [lia | reflexivity] |].
  cbn [map].
  change (member_text gap (fst field) (QuoteJSONString (snd field)) ::
          map (fun field0 => member_text gap (fst field0) (QuoteJSONString (snd field0)))
            fields)
    with (map (fun field0 => member_text gap (fst field0) (QuoteJSONString (snd field0)))
            (field :: fields)).
  destruct (is_empty gap) eqn:Eg.
  - rewrite !app_assoc_s.
    apply (object_parse gap EmptyString EmptyString (field :: fields) f rest);
      auto; discriminate.
  - cbv zeta.
    transitivity
      (json_value f
         ("{" ++ (nl ++ stepback ++ gap) ++
          join ("," ++ nl ++ stepback ++ gap)
            (map (fun field0 =>
                    member_text gap (fst field0) (QuoteJSONString (snd field0)))
               (field :: fields)) ++ (nl ++ stepback) ++ "}" ++ rest));
      [f_equal; rewrite !app_assoc_s; reflexivity |].
    apply (object_parse gap (nl ++ stepback ++ gap) (nl ++ stepback)
             (field :: fields) f rest); auto; try discriminate;
      repeat (apply json_ws_only_app; try reflexivity; auto).
Qed.

Lemma SerializeEntry_start gap stepback fields :
  exists t, SerializeEntry gap stepback fields = "{" ++ t.
Proof.
  unfold SerializeEntry, serialize.
  destruct (map _ fields); [eauto |]. destruct (is_empty gap); eauto.
Qed.

Lemma entries_start gap stepback sep entries tail :
  entries <> [] ->
  exists t, join sep (map (SerializeEntry gap stepback) entries) ++ tail = "{" ++ t.
Proof.
  destruct entries as [|e [|e2 entries]]; intros Hne; [now destruct Hne | |].
  - cbn [map join]. destruct (SerializeEntry_start gap stepback e) as [t ->].
    rewrite app_assoc_s. eauto.
  - cbn [map]. rewrite join_cons.
    destruct (SerializeEntry_start gap stepback e) as [t ->].
    rewrite !app_assoc_s. eauto.
Qed.

Lemma elements_parse gap stepback sw clw M : forall entries acc f rest,
  json_ws_only gap = true -> json_ws_only stepback = true ->
  json_ws_only sw = true -> json_ws_only clw = true ->
  entries <> [] -> Forall (fun e => length e <= M) entries ->
  length entries + M + 2 <= f ->
  json_elements f
    (join ("," ++ sw) (map (SerializeEntry gap stepback) entries) ++
     clw ++ "]" ++ rest) acc =
  Some (JArr (acc ++ map entryObject entries)%list, rest).
Proof.
  induction entries as [|e [|e2 entries] IH];
    intros acc f rest Hg Hs Hsw Hclw Hne HM Hf; [now destruct Hne | |].
  - destruct f as [|f]; [simpl in Hf; lia |].
    inversion HM as [|? ? He _]; subst.
    cbn [map join].
    apply json_elements_last with (w := clw); [| exact Hclw].
    apply SerializeEntry_parse; auto. simpl in Hf. lia.
  - destruct f as [|f]; [simpl in Hf; lia |].
    inversion HM as [|? ? He HM']; subst.
    cbn [map]. rewrite join_cons. rewrite !app_assoc_s.
    rewrite json_elements_more
      with (v := entryObject e) (w := EmptyString)
           (r := sw ++ join ("," ++ sw)
                         (map (SerializeEntry gap stepback) (e2 :: entries)) ++
                 clw ++ "]" ++ rest).
    + rewrite json_elements_ws by exact Hsw.
      rewrite IH; auto; [| discriminate | simpl in *; lia].
      now rewrite <- app_assoc.
    + apply SerializeEntry_parse; auto. simpl in Hf. lia.
    + reflexivity.
Qed.

Lemma json_value_array_elements f w X :
  json_ws_only w = true ->
  (exists t, X = "{" ++ t) ->
  json_value (S f) ("[" ++ w ++ X) = json_elements f X [].
Proof. intros Hw (t & ->). now apply json_value_array. Qed.

Lemma SerializeEntries_parse gap stepback entries M f rest :
  json_ws_only gap = true -> json_ws_only stepback = true ->
  Forall (fun e => length e <= M) entries ->
  length entries + M + 3 <= f ->
  json_value f (SerializeEntries gap stepback entries ++ rest) =
  Some (JArr (map entryObject entries), rest).
Proof.
  intros Hg Hs HM Hf. destruct f as [|f]; [lia |].
  unfold SerializeEntries, serialize.
  destruct entries as [|e entries]; [reflexivity |].
  cbn [map].
  change (SerializeEntry gap (stepback ++ gap) e ::
          map (SerializeEntry gap (stepback ++ gap)) entries)
    with (map (SerializeEntry gap (stepback ++ gap)) (e :: entries)).
  assert (Hsg : json_ws_only (stepback ++ gap) = true) by now apply json_ws_only_app.
  destruct (is_empty gap) eqn:Eg.
  - transitivity
      (json_value (S f)
         ("[" ++ EmptyString ++
          join ("," ++ EmptyString)
            (map (SerializeEntry gap (stepback ++ gap)) (e :: entries)) ++
          EmptyString ++ "]" ++ rest));
      [f_equal; rewrite !app_assoc_s; reflexivity |].
    rewrite json_value_array_elements;
      [| reflexivity | apply entries_start; discriminate].
    apply (elements_parse gap (stepback ++ gap) EmptyString EmptyString M); auto;
      [discriminate | simpl in *; lia].
  - cbv zeta.
    transitivity
      (json_value (S f)
         ("[" ++ (nl ++ stepback ++ gap) ++
          join ("," ++ nl ++ stepback ++ gap)
            (map (SerializeEntry gap (stepback ++ gap)) (e :: entries)) ++
          (nl ++ stepback) ++ "]" ++ rest));
      [f_equal; rewrite !app_assoc_s; reflexivity |].
    assert (Hind : json_ws_only (nl ++ stepback ++ gap) = true)
      by (apply (json_ws_only_app nl); [reflexivity | exact Hsg]).
    assert (Hclose : json_ws_only (nl ++ stepback) = true)
      by (now apply (json_ws_only_app nl)).
    rewrite json_value_array_elements;
      [| exact Hind | apply entries_start; discriminate].
    apply (elements_parse gap (stepback ++ gap) (nl ++ stepback ++ gap)
             (nl ++ stepback) M); auto; [discriminate | simpl in *; lia].
Qed.

Lemma fields_bound (entries : list (list (string * string))) :
  exists M, Forall (fun e => length e <= M) entries.
Proof.
  induction entries as [|e entries [M HM]]; [exists 0; constructor |].
  exists (Nat.max (length e) M). constructor; [lia |].
  eapply Forall_impl; [| exact HM]. cbn beta. intros; lia.
Qed.

Lemma JSON_parse_value text v f :
  json_value (2 * String.length text + 2 + f) text = Some (v, EmptyString) ->
  JSON_parse text = Some v.
Proof.
  intros H. unfold JSON_parse. rewrite <- (JSON_parse_fuel text _ (Nat.le_add_r _ f)).
  now rewrite H.
Qed.

Lemma JSON_parse_stored entries :
  JSON_parse (SerializeEntries EmptyString EmptyString entries) =
  Some (JArr (map entryObject entries)).
Proof.
  destruct (fields_bound entries) as [M HM].
  apply (JSON_parse_value _ _ (length entries + M + 3)).
  rewrite <- (app_nil_s (SerializeEntries _ _ entries)) at 2.
  apply (SerializeEntries_parse EmptyString EmptyString entries M); auto. lia.
Qed.

Lemma export_shape_parse sw cw clw exported array arrayValue f rest :
  json_ws_only sw = true -> json_ws_only cw = true -> json_ws_only clw = true ->
  json_value f (array ++ clw ++ "}" ++ rest) =
    Some (arrayValue, clw ++ "}" ++ rest) ->
  json_value (S (S (S (S f))))
    ("{" ++ sw ++
     QuoteJSONString "version" ++ ":" ++ cw ++ QuoteJSONString "1.0" ++ "," ++ sw ++
     QuoteJSONString "exported" ++ ":" ++ cw ++ QuoteJSONString exported ++ "," ++ sw ++
     QuoteJSONString "prompts" ++ ":" ++ cw ++ array ++ clw ++ "}" ++ rest) =
  Some (JObj [ ("version", JStr "1.0");
               ("exported", JStr exported);
               ("prompts", arrayValue) ], rest).
Proof.
  intros Hsw Hcw Hclw Harray.
  rewrite json_value_object by exact Hsw.
  rewrite json_members_more
    with (v := JStr "1.0") (w := EmptyString)
         (r4 := sw ++ QuoteJSONString "exported" ++ ":" ++ cw ++
                QuoteJSONString exported ++ "," ++ sw ++
                QuoteJSONString "prompts" ++ ":" ++ cw ++ array ++ clw ++ "}" ++ rest);
    [| rewrite json_value_ws by exact Hcw; apply json_value_string | reflexivity].
  rewrite json_members_ws by exact Hsw.
  rewrite json_members_more
    with (v := JStr exported) (w := EmptyString)
         (r4 := sw ++ QuoteJSONString "prompts" ++ ":" ++ cw ++ array ++ clw ++
                "}" ++ rest);
    [| rewrite json_value_ws by exact Hcw; apply json_value_string | reflexivity].
  rewrite json_members_ws by exact Hsw.
  rewrite json_members_last with (v := arrayValue) (w := clw) (r4 := rest);
    [reflexivity | | exact Hclw].
  rewrite json_value_ws by exact Hcw. exact Harray.
Qed.

Lemma JSON_parse_export exported entries :
  JSON_parse (exportPromptsToFile exported entries) =
  Some (JObj [ ("version", JStr "1.0");
               ("exported", JStr exported);
               ("prompts", JArr (map entryObject entries)) ]).
Proof.
  destruct (fields_bound entries) as [M HM].
  apply (JSON_parse_value _ _ (length entries + M + 7)).
  set (F := 2 * String.length (exportPromptsToFile exported entries) + 2 +
            (length entries + M + 7)).
  assert (HF : length entries + M + 7 <= F) by (subst F; lia).
  clearbody F. destruct F as [|[|[|[|f]]]]; try lia.
  transitivity
    (json_value (S (S (S (S f))))
       ("{" ++ (nl ++ "  ") ++
        QuoteJSONString "version" ++ ":" ++ " " ++ QuoteJSONString "1.0" ++
        "," ++ (nl ++ "  ") ++
        QuoteJSONString "exported" ++ ":" ++ " " ++ QuoteJSONString exported ++
        "," ++ (nl ++ "  ") ++
        QuoteJSONString "prompts" ++ ":" ++ " " ++
        SerializeEntries "  " "  " entries ++ nl ++ "}" ++ EmptyString)).
  - f_equal. unfold exportPromptsToFile, serialize, member_text.
    cbn [is_empty join]. cbv zeta. rewrite !app_assoc_s. reflexivity.
  - apply export_shape_parse; try reflexivity.
    apply (SerializeEntries_parse "  " "  " entries M); auto. lia.
Qed.

Lemma entryObject_member fields key :
  member (entryObject fields) key = JUndefined \/
  exists text, member (entryObject fields) key = JStr text.
Proof.
  unfold entryObject, member, obj_get.
  assert (H : forall acc,
             (lookup_field key acc = JUndefined \/
              exists text, lookup_field key acc = JStr text) ->
             lookup_field key
               (fold_left (fun a field => define_field (fst field) (JStr (snd field)) a)
                  fields acc) = JUndefined \/
             exists text,
               lookup_field key
                 (fold_left (fun a field => define_field (fst field) (JStr (snd field)) a)
                    fields acc) = JStr text).
  { induction fields as [|[k v] fields IH]; intros acc Hacc; [exact Hacc |].
    cbn [fold_left fst snd]. apply IH.
    destruct (String.eqb k key) eqn:E.
    - apply String.eqb_eq in E. subst. right. exists v. apply lookup_define_eq.
    - apply String.eqb_neq in E. rewrite lookup_define_ne by exact E. exact Hacc. }
  apply H. now left.
Qed.

Lemma entry_or_empty fields key :
  js_or (member (entryObject fields) key) (JStr EmptyString) =
  JStr (textOf (member (entryObject fields) key)).
Proof.
  destruct (entryObject_member fields key) as [-> | [text ->]]; [reflexivity |].
  unfold js_or. cbn [truthy textOf]. now destruct text.
Qed.

Lemma mapEntries_entries entries :
  CustomPrompts.mapEntries (map entryObject entries) =
  Some (map (fun e => (JStr (property (entryPrompt e)), JStr (prompt (entryPrompt e))))
          entries).
Proof.
  induction entries as [|e entries IH]; [reflexivity |].
  cbn [map CustomPrompts.mapEntries]. rewrite IH.
  unfold entryObject at 1. cbn [nullish option_map].
  fold (entryObject e). now rewrite !entry_or_empty.
Qed.

Lemma filterEntries_prompts (prompts : list PromptConfig) :
  CustomPrompts.filterEntries
    (map (fun p => (JStr (property p), JStr (prompt p))) prompts) =
  Some (filter CustomPrompts.validPrompt prompts).
Proof.
  induction prompts as [|[name body] prompts IH]; [reflexivity |].
  cbn [map CustomPrompts.filterEntries filter property prompt].
  unfold CustomPrompts.validPrompt at 1. cbn [property prompt].
  rewrite IH. destruct (is_empty (trim name)); [reflexivity |].
  cbn [option_map negb andb]. now destruct (is_empty (trim body)).
Qed.

(** X19. A file that [exportPromptsToFile] has written is read back by
    [importPromptsFromFile]: the text parses to the exported object, and
    the import installs and saves the prompts of the exported entries
    whose property and text are not blank, in their order, whatever
    characters they hold; when there is no such prompt it changes
    nothing. *)
Theorem importPromptsFromFile_of_export writable exported entries state :
  JSON_parse (exportPromptsToFile exported entries) =
    Some (JObj [ ("version", JStr "1.0");
                 ("exported", JStr exported);
                 ("prompts", JArr (map entryObject entries)) ]) /\
  CustomPrompts.importPromptsFromFile writable (exportPromptsToFile exported entries)
    state =
  match filter CustomPrompts.validPrompt (map entryPrompt entries) with
  | [] => state
  | validPrompts =>
      (validPrompts, CustomPrompts.saveCustomPrompts writable validPrompts (snd state))
  end.
Proof.
  split; [apply JSON_parse_export |].
  unfold CustomPrompts.importPromptsFromFile.
  rewrite JSON_parse_export. cbn [nullish member obj_get lookup_field String.eqb].
  cbn. rewrite mapEntries_entries.
  rewrite <- (map_map entryPrompt (fun p => (JStr (property p), JStr (prompt p)))).
  rewrite filterEntries_prompts.
  now destruct (filter CustomPrompts.validPrompt (map entryPrompt entries)).
Qed.

(** The round trip, run. *)
Example importPromptsFromFile_of_export_sample :
  CustomPrompts.importPromptsFromFile true
    (exportPromptsToFile "2025-01-01T00:00:00.000Z" sampleEntries) ([], NoItem) =
  ([ {| property := "title";
        prompt := "Give a " ++ dq ++ "short" ++ dq ++ " title." |};
     {| property := "description"; prompt := "Describe" ++ nl ++ "the image." |} ],
   Item [ {| property := "title";
             prompt := "Give a " ++ dq ++ "short" ++ dq ++ " title." |};
          {| property := "description"; prompt := "Describe" ++ nl ++ "the image." |} ]).
Proof. vm_compute. reflexivity. Qed.

(** X20. What [saveCustomPrompts] writes, [JSON.parse] reads back: the
    text [JSON.stringify] gives for the entries of the editor parses to
    the array of these very objects, whatever characters their strings
    hold.  For an entry in each of the shapes the editor makes, the
    property and the prompt read from the object are the ones
    written. *)
Theorem saveCustomPrompts_text_parses entries :
  JSON_parse (SerializeEntries EmptyString EmptyString entries) =
    Some (JArr (map entryObject entries)) /\
  (forall id p,
     entryPrompt [ ("id", id); ("property", property p); ("prompt", prompt p) ] = p /\
     entryPrompt [ ("property", property p); ("prompt", prompt p); ("id", id) ] = p /\
     entryPrompt [ ("property", property p); ("prompt", prompt p) ] = p).
Proof.
  split; [apply JSON_parse_stored |].
  intros id [name body]. repeat split.
Qed.

(** ** Editing the prompts *)

Section EditorStore.

Import Editor.

Lemma assign_new h e change :
  assign (h ++ [e])%list (length h) change = (h ++ [change e])%list.
Proof. induction h as [|x h IH]; [reflexivity |]. simpl. now rewrite IH. Qed.

Lemma find_new (p : nat -> bool) l n :
  (forall a, In a l -> p a = false) -> p n = true -> find p (l ++ [n])%list = Some n.
Proof.
  intros Hl Hn. induction l as [|a l IH]; simpl; [now rewrite Hn |].
  rewrite (Hl a) by now left. apply IH. intros b Hb. apply Hl. now right.
Qed.

Lemma copies_config (st : Store) (newIds : nat -> string) l k :
  map config
    (map (fun ka => {| id := Some (newIds (fst ka));
                       config := config (object st (snd ka)) |})
       (combine (seq k (length l)) l)) =
  map config (map (object st) l).
Proof.
  revert k. induction l as [|a l IH]; intros k; [reflexivity |].
  simpl. now rewrite IH.
Qed.

Lemma nth_assign_same objects : forall a change,
  a < length objects ->
  nth a (assign objects a change) noEntry = change (nth a objects noEntry).
Proof.
  induction objects as [|e objects IH]; intros a change Ha; [simpl in Ha; lia |].
  destruct a as [|a]; [reflexivity |]. cbn [assign nth]. apply IH. simpl in Ha. lia.
Qed.

Lemma updateObject_new h d e i change :
  Forall (fun a => a < length h) d ->
  (forall a, In a d -> id (nth a h noEntry) <> Some i) ->
  id e = Some i ->
  updateObject (Some i) change
    {| heap := (h ++ [e])%list; defaults := (d ++ [length h])%list;
       customPrompts := None |} =
  {| heap := (h ++ [change e])%list; defaults := (d ++ [length h])%list;
     customPrompts := None |}.
Proof.
  intros Hwf Hfresh He.
  unfold updateObject, elements, object. cbn [heap defaults customPrompts].
  rewrite find_new.
  - now rewrite assign_new.
  - intros a Ha. rewrite Forall_forall in Hwf. rewrite app_nth1 by auto.
    specialize (Hfresh a Ha).
    destruct (id (nth a h noEntry)) as [x|]; [| reflexivity].
    cbn [same_id]. apply String.eqb_neq. congruence.
  - rewrite app_nth2, Nat.sub_diag by lia. cbn [nth]. rewrite He.
    cbn [same_id]. apply String.eqb_refl.
Qed.

(** X21. After a first load with nothing stored (and a storage that can
    be written), or with a storage that cannot be read, [customPrompts]
    is the array [DEFAULT_CUSTOM_PROMPTS] itself, and what the user
    edits are the defaults.  A prompt that the user then adds and fills
    in is added to the defaults, and [resetCustomPromptsToDefaults]
    then shows the old defaults and this prompt; a text typed into the
    row of a default without an id becomes the text of that default. *)
Theorem edits_reach_the_defaults writable saved st newId name text newIds :
  well_formed st ->
  saved = SavedUnreadable \/ (saved = NothingSaved /\ writable = true) ->
  (forall e, In e (defaultContents st) -> id e <> Some newId) ->
  let st1 := fst (loadCustomPrompts writable saved st) in
  let st2 :=
    updateCustomPromptText (Some newId) text
      (updateCustomPromptProperty (Some newId) name (addCustomPrompt newId st1)) in
  customPrompts st1 = None /\
  map config (defaultContents st2) =
    (map config (defaultContents st) ++
     [ {| property := name; prompt := text |} ])%list /\
  map config (contents (resetCustomPromptsToDefaults newIds st2)) =
    (map config (defaultContents st) ++
     [ {| property := name; prompt := text |} ])%list /\
  (forall a rest,
     defaults st = a :: rest -> id (object st a) = None ->
     hd noEntry (defaultContents (updateCustomPromptText None text st1)) =
     setPrompt text (object st a)).
Proof.
  intros Hwf Hsaved Hfresh st1 st2.
  assert (H1 : st1 = {| heap := heap st; defaults := defaults st; customPrompts := None |}).
  { subst st1. destruct Hsaved as [-> | [-> ->]]; reflexivity. }
  assert (Hfresh' : forall a, In a (defaults st) ->
                              id (nth a (heap st) noEntry) <> Some newId).
  { intros a Ha. apply (Hfresh (object st a)). now apply in_map. }
  assert (H2 : st2 =
               {| heap := (heap st ++ [ {| id := Some newId;
                                          config := {| property := name;
                                                       prompt := text |} |} ])%list;
                  defaults := (defaults st ++ [length (heap st)])%list;
                  customPrompts := None |}).
  { subst st2. rewrite H1.
    unfold addCustomPrompt. cbn [customPrompts heap defaults]. cbv zeta.
    unfold updateCustomPromptProperty, updateCustomPromptText.
    rewrite (updateObject_new _ _ _ newId) by auto.
    rewrite (updateObject_new _ _ _ newId) by auto.
    reflexivity. }
  assert (Hd : map config (defaultContents st2) =
               (map config (defaultContents st) ++
                [ {| property := name; prompt := text |} ])%list).
  { rewrite H2. unfold defaultContents, object. cbn [heap defaults].
    rewrite map_app, map_app. cbn [map].
    rewrite app_nth2, Nat.sub_diag by lia. cbn [nth config].
    now rewrite (nth_old_objects _ _ _ _ _ Hwf). }
  split; [now rewrite H1 |]. split; [exact Hd |]. split.
  - rewrite <- Hd.
    unfold contents, elements, resetCustomPromptsToDefaults, object at 1, allocate.
    cbn [customPrompts heap]. rewrite nth_new_objects.
    apply copies_config.
  - intros a rest Ha Hid. rewrite H1.
    unfold updateCustomPromptText, updateObject, elements.
    cbn [customPrompts defaults]. rewrite Ha. cbn [find].
    unfold object at 1. cbn [heap]. unfold object in Hid. rewrite Hid.
    cbn [same_id]. unfold defaultContents. cbn [defaults].
    cbn [map hd]. unfold object. cbn [heap].
    apply nth_assign_same. unfold well_formed in Hwf. rewrite Ha in Hwf.
    now inversion Hwf.
Qed.

Lemma edits_reach_the_defaults_witness :
  map config
    (contents
       (resetCustomPromptsToDefaults (fun _ => "id_2")
          (updateCustomPromptText (Some "id_1") "Give a title."
             (updateCustomPromptProperty (Some "id_1") "title"
                (addCustomPrompt "id_1"
                   (fst (loadCustomPrompts true NothingSaved initial))))))) =
  (map config (defaultContents initial) ++
   [ {| property := "title"; prompt := "Give a title." |} ])%list.
Proof.
  apply (edits_reach_the_defaults true NothingSaved initial "id_1" "title"
           "Give a title." (fun _ => "id_2")).
  - repeat constructor.
  - right. split; reflexivity.
  - intros e [<- | []]. discriminate.
Defined.

Lemma nth_assign_other objects : forall a b change,
  a <> b -> nth b (assign objects a change) noEntry = nth b objects noEntry.
Proof.
  induction objects as [|e objects IH]; intros a b change Hab; [now destruct a |].
  destruct a as [|a], b as [|b]; cbn [assign nth]; try reflexivity; [lia |].
  apply IH. lia.
Qed.

Lemma length_assign objects : forall a change,
  length (assign objects a change) = length objects.
Proof.
  induction objects as [|e objects IH]; intros a change; [now destruct a |].
  destruct a; cbn [assign length]; [reflexivity | now rewrite IH].
Qed.

Lemma edit_separated n e st :
  separated n st ->
  separated n (edit e st) /\ defaultContents (edit e st) = defaultContents st.
Proof.
  intros (Hd & Hn & items & Hc & Hi).
  assert (Hkeep : forall h',
             (forall b, b < n -> nth b h' noEntry = nth b (heap st) noEntry) ->
             map (fun a => nth a h' noEntry) (defaults st) =
             map (fun a => nth a (heap st) noEntry) (defaults st)).
  { intros h' Hh. apply map_ext_in. intros b Hb. apply Hh.
    rewrite Forall_forall in Hd. auto. }
  assert (Hupdate : forall i change,
             separated n (updateObject i change st) /\
             defaultContents (updateObject i change st) = defaultContents st).
  { intros i change. unfold updateObject, elements. rewrite Hc.
    destruct (find (fun a => same_id (id (object st a)) i) items) as [a|] eqn:Ef.
    - apply find_some in Ef. destruct Ef as [Ha _].
      assert (Hna : n <= a) by (rewrite Forall_forall in Hi; auto).
      split.
      + split; [exact Hd |]. cbn [heap defaults customPrompts].
        rewrite length_assign. split; [exact Hn |].
        exists items. split; [assumption || reflexivity | exact Hi].
      + unfold defaultContents, object. cbn [heap defaults].
        apply Hkeep. intros b Hb. apply nth_assign_other. lia.
    - split; [| reflexivity]. split; [exact Hd |]. split; [exact Hn |].
      exists items. split; [assumption || reflexivity | exact Hi]. }
  destruct e as [newId | i | i text | i text]; cbn [edit].
  - unfold addCustomPrompt. rewrite Hc. split.
    + split; [exact Hd |]. cbn [heap defaults customPrompts].
      rewrite length_app. cbn [length]. split; [lia |].
      eexists. split; [reflexivity |]. apply Forall_app. split; [exact Hi |].
      constructor; [lia | constructor].
    + unfold defaultContents, object. cbn [heap defaults].
      apply Hkeep. intros b Hb. apply app_nth1. lia.
  - unfold removeCustomPrompt. split; [| reflexivity].
    split; [exact Hd |]. split; [exact Hn |].
    eexists. split; [reflexivity |]. unfold elements. rewrite Hc.
    apply Forall_forall. intros a Ha. apply filter_In in Ha.
    rewrite Forall_forall in Hi. apply Hi. tauto.
  - apply Hupdate.
  - apply Hupdate.
Qed.

Lemma edits_separated n es : forall st,
  separated n st -> defaultContents (edits es st) = defaultContents st.
Proof.
  induction es as [|e es IH]; intros st Hsep; [reflexivity |].
  unfold edits in *. cbn [fold_left].
  destruct (edit_separated _ e st Hsep) as [Hsep' Hsame].
  now rewrite (IH _ Hsep').
Qed.

(** X22. After a load of stored prompts the editor works on objects of
    its own: whatever the user adds, removes and changes,
    [DEFAULT_CUSTOM_PROMPTS] holds what it held before; and the editor
    starts from the stored prompts. *)
Theorem edits_after_load_keep_defaults writable entries st es :
  well_formed st ->
  defaultContents
    (edits es (fst (loadCustomPrompts writable (SavedEntries entries) st))) =
  defaultContents st /\
  map config (contents (fst (loadCustomPrompts writable (SavedEntries entries) st))) =
  map config entries.
Proof.
  intros Hwf. split.
  - rewrite (edits_separated (length (heap st))).
    + cbn [loadCustomPrompts fst]. unfold defaultContents, object.
      cbn [heap defaults]. now apply nth_old_objects.
    + cbn [loadCustomPrompts fst]. split; [exact Hwf |].
      cbn [heap defaults customPrompts]. rewrite length_app. split; [lia |].
      eexists. split; [reflexivity |]. unfold allocate.
      apply Forall_forall. intros a Ha. apply in_seq in Ha. lia.
  - cbn [loadCustomPrompts fst]. unfold contents, elements, object, allocate.
    cbn [heap customPrompts]. now rewrite nth_new_objects.
Qed.

Lemma edits_after_load_keep_defaults_witness :
  defaultContents
    (edits
       [ SetPrompt None "Describe it."; Add "id_1";
         SetProperty (Some "id_1") "title"; Remove None ]
       (fst (loadCustomPrompts true
               (SavedEntries
                  [ {| id := None;
                       config := {| property := "description";
                                    prompt := "Say what you see." |} |} ])
               initial))) =
  defaultContents initial.
Proof.
  apply (edits_after_load_keep_defaults true
           [ {| id := None;
                config := {| property := "description";
                             prompt := "Say what you see." |} |} ]
           initial).
  repeat constructor.
Defined.

End EditorStore.
